(** * Digital-signage backend: presence and instruction-delivery core

    A shallow embedding of the request handlers and streaming generators of
    [routers/code.py], [routers/device.py] and [routers/setup.py], together
    with the part of Redis (string keys, sets, pub/sub) and of the relational
    store (devices, setups, playlists) that they touch.

    Conventions.
    - Python [int] is [Z]; [str] is [string]; [str(n)] inside an f-string is
      stdpp's [pretty n] (decimal, leading minus sign, injective).
    - A handler that raises returns [Raise e]; a handler that returns
      normally returns [Ok v].  Handlers thread the Redis state and the
      database explicitly.
    - [json.dumps] of a dict is kept as the structured value [Json]; the wire
      text is the standard serialisation of that value.
    - Values coming from the outside ([random.randint], [secrets],
      [datetime.now], [datetime.strptime]) are explicit inputs.
    - The body of a handler is one step: requests are taken one at a time.
      The generator behind a streaming response is not part of that step.
      It runs later, while the response is sent, from one suspension point
      to the next; between the handler and the generator, and between two
      steps of the generator, other requests are served, messages arrive,
      and the stream can be ended from outside.  Each generator is
      therefore a transition system driven by a list of events. *)

From Stdlib Require Import ZArith Lia Ascii Sorted.
From stdpp Require Import base option list strings pretty gmap sets.

Local Open Scope Z_scope.

(** ** HTTP results *)

Module Http.

Definition HTTP_400_BAD_REQUEST : Z := 400.
Definition HTTP_404_NOT_FOUND : Z := 404.
Definition HTTP_409_CONFLICT : Z := 409.

(** [HTTPException(detail=..., status_code=...)], and the two built-in
    exceptions the handlers can let escape. *)
Inductive Exception :=
| HTTPException (status_code : Z) (detail : string)
| ValueError
| NameError.

Inductive Result (A : Type) :=
| Ok (a : A)
| Raise (e : Exception).
Global Arguments Ok {A} a.
Global Arguments Raise {A} e.

Definition bind {A B} (x : Result A) (k : A -> Result B) : Result B :=
  match x with
  | Ok a => k a
  | Raise e => Raise e
  end.

Definition is_ok {A} (x : Result A) : bool :=
  match x with Ok _ => true | Raise _ => false end.

End Http.
Import Http.

#[global] Instance result_bind : MBind Http.Result :=
  λ A B k x, Http.bind x k.
#[global] Instance result_ret : MRet Http.Result := λ A a, Http.Ok a.

(** ** JSON payloads *)

#[warnings="-register-all"]
Inductive Json :=
| JStr (s : string)
| JInt (z : Z)
| JObj (fields : list (string * Json)).

(** ** Redis: string keys, sets and pub/sub *)

Module Redis.

Record t := mk {
  kv : gmap string Z;                    (* keys holding integers *)
  sets : gmap string (gset string);      (* keys holding sets of strings *)
  channels : gmap string (gset nat);     (* channel -> subscribed connections *)
  published : list (string * Json);      (* every PUBLISH so far, oldest first *)
}.

Definition empty : t :=
  {| kv := ∅; sets := ∅; channels := ∅; published := [] |}.

(** EXISTS key *)
Definition exists_ (key : string) (r : t) : Z :=
  match kv r !! key with Some _ => 1 | None => 0 end.

(** SET key value *)
Definition set (key : string) (v : Z) (r : t) : t :=
  {| kv := <[key := v]> (kv r); sets := sets r;
     channels := channels r; published := published r |}.

(** INCR key: a missing key counts as 0; the new value is returned. *)
Definition incr (key : string) (r : t) : Z * t :=
  let v := default 0 (kv r !! key) + 1 in
  (v, set key v r).

(** SMEMBERS key *)
Definition smembers (key : string) (r : t) : gset string :=
  default ∅ (sets r !! key).

(** SADD key member *)
Definition sadd (key member : string) (r : t) : t :=
  {| kv := kv r; sets := <[key := {[member]} ∪ smembers key r]> (sets r);
     channels := channels r; published := published r |}.

(** SREM key member *)
Definition srem (key member : string) (r : t) : t :=
  {| kv := kv r; sets := alter (λ s, s ∖ {[member]}) key (sets r);
     channels := channels r; published := published r |}.

Definition subscribers (channel : string) (r : t) : gset nat :=
  default ∅ (channels r !! channel).

(** PUBSUB NUMSUB channel: what the handlers read as [result[0][1]]. *)
Definition pubsub_numsub (channel : string) (r : t) : Z :=
  Z.of_nat (size (subscribers channel r)).

(** PUBLISH channel message: fire and forget. *)
Definition publish (channel : string) (msg : Json) (r : t) : t :=
  {| kv := kv r; sets := sets r; channels := channels r;
     published := published r ++ [(channel, msg)] |}.

(** [pubsub.subscribe(channel)] on connection [conn]. *)
Definition subscribe (conn : nat) (channel : string) (r : t) : t :=
  {| kv := kv r; sets := sets r;
     channels := <[channel := {[conn]} ∪ subscribers channel r]> (channels r);
     published := published r |}.

(** [pubsub.unsubscribe()] without argument: leave every channel. *)
Definition unsubscribe (conn : nat) (r : t) : t :=
  {| kv := kv r; sets := sets r;
     channels := (λ s, s ∖ {[conn]}) <$> channels r;
     published := published r |}.

(** [pubsub.unsubscribe(channel)]. *)
Definition unsubscribe_from (conn : nat) (channel : string) (r : t) : t :=
  {| kv := kv r; sets := sets r;
     channels := alter (λ s, s ∖ {[conn]}) channel (channels r);
     published := published r |}.

(** Messages published on one channel, oldest first. *)
Definition published_on (channel : string) (r : t) : list Json :=
  (filter (λ p, p.1 = channel) (published r)).*2.

End Redis.

(** ** The relational store *)

Module Device.
(** [models/device.py], class [Device]. *)
Record t := mk {
  id : Z;
  name : string;
  location : string;
  setup_id : option Z;
  last_seen : Z;
  api_key : string;
}.

Definition set_last_seen (now : Z) (d : t) : t :=
  {| id := id d; name := name d; location := location d;
     setup_id := setup_id d; last_seen := now; api_key := api_key d |}.

Definition set_setup_id (s : option Z) (d : t) : t :=
  {| id := id d; name := name d; location := location d;
     setup_id := s; last_seen := last_seen d; api_key := api_key d |}.
End Device.

(** [DeviceInput]: [Base] plus the activation code. *)
Record DeviceInput := {
  di_name : string;
  di_location : string;
  di_setup_id : option Z;
  di_code : Z;
}.

Module Setup.
(** [models/setup.py], class [Setup]. *)
Record t := mk { id : Z; name : string }.
End Setup.

Module Playlist.
(** [models/setup.py], class [Playlist]. *)
Record t := mk {
  id : Z;
  name : string;
  start_time : string;
  end_time : string;
  monday : bool; tuesday : bool; wednesday : bool; thursday : bool;
  friday : bool; saturday : bool; sunday : bool;
  setup_id : Z;
}.
End Playlist.

Module Image.
Record t := mk { id : Z; url : string; duration : Z; playlist_id : Z }.
End Image.

Module Video.
Record t := mk { id : Z; url : string; playlist_id : Z }.
End Video.

Module Db.

(** The tables, and for each the primary key the store assigns next. *)
Record t := mk {
  devices : list Device.t;      next_device_id : Z;
  setups : list Setup.t;        next_setup_id : Z;
  playlists : list Playlist.t;  next_playlist_id : Z;
  images : list Image.t;        next_image_id : Z;
  videos : list Video.t;        next_video_id : Z;
}.

Definition empty : t := mk [] 1 [] 1 [] 1 [] 1 [] 1.

(** [session.exec(select(Device).filter_by(name=n)).first()] *)
Definition device_by_name (n : string) (db : t) : option Device.t :=
  List.find (λ d, bool_decide (Device.name d = n)) (devices db).

(** [session.exec(select(Device).filter_by(api_key=k)).first()] *)
Definition device_by_api_key (k : string) (db : t) : option Device.t :=
  List.find (λ d, bool_decide (Device.api_key d = k)) (devices db).

(** [session.exec(select(Device).filter_by(id=i)).first()] *)
Definition device_by_id (i : Z) (db : t) : option Device.t :=
  List.find (λ d, bool_decide (Device.id d = i)) (devices db).

(** [session.exec(select(Setup).filter_by(name=n)).first()] *)
Definition setup_by_name (n : string) (db : t) : option Setup.t :=
  List.find (λ s, bool_decide (Setup.name s = n)) (setups db).

(** [session.add(Device(...))] followed by a flush or commit: the row gets
    its primary key from the store and is appended to the table. *)
Definition add_device (name location : string) (last_seen : Z)
    (api_key : string) (db : t) : Device.t * t :=
  let row := Device.mk (next_device_id db) name location None last_seen api_key in
  (row, mk (devices db ++ [row]) (next_device_id db + 1)
           (setups db) (next_setup_id db)
           (playlists db) (next_playlist_id db)
           (images db) (next_image_id db)
           (videos db) (next_video_id db)).

(** [session.add(device)] for a row that is already in the table: the row
    with that primary key is replaced. *)
Definition update_device (d : Device.t) (db : t) : t :=
  mk ((λ d', if bool_decide (Device.id d' = Device.id d) then d else d')
        <$> devices db) (next_device_id db)
     (setups db) (next_setup_id db)
     (playlists db) (next_playlist_id db)
     (images db) (next_image_id db)
     (videos db) (next_video_id db).

Definition add_setup (name : string) (db : t) : Setup.t * t :=
  let row := Setup.mk (next_setup_id db) name in
  (row, mk (devices db) (next_device_id db)
           (setups db ++ [row]) (next_setup_id db + 1)
           (playlists db) (next_playlist_id db)
           (images db) (next_image_id db)
           (videos db) (next_video_id db)).

Definition add_playlist (row : Z -> Playlist.t) (db : t) : Playlist.t * t :=
  let row := row (next_playlist_id db) in
  (row, mk (devices db) (next_device_id db)
           (setups db) (next_setup_id db)
           (playlists db ++ [row]) (next_playlist_id db + 1)
           (images db) (next_image_id db)
           (videos db) (next_video_id db)).

Definition add_image (url : string) (duration playlist_id : Z) (db : t) : t :=
  mk (devices db) (next_device_id db)
     (setups db) (next_setup_id db)
     (playlists db) (next_playlist_id db)
     (images db ++ [Image.mk (next_image_id db) url duration playlist_id])
     (next_image_id db + 1)
     (videos db) (next_video_id db).

Definition add_video (url : string) (playlist_id : Z) (db : t) : t :=
  mk (devices db) (next_device_id db)
     (setups db) (next_setup_id db)
     (playlists db) (next_playlist_id db)
     (images db) (next_image_id db)
     (videos db ++ [Video.mk (next_video_id db) url playlist_id])
     (next_video_id db + 1).

End Db.

(** ** Server-sent event frames

    [f"event: {event}\ndata: {data}\n\n"]: the event name and what is
    printed after [data:]. *)

Inductive FrameData :=
| Text (s : string)               (* a literal *)
| Payload (j : Json)              (* [message['data']], the published text *)
| Members (ids : gset string).    (* [list(init_devices)], in no fixed order *)

Record Frame := { event : string; data : FrameData }.

Definition heartbeat_frame : Frame :=
  {| event := "heartbeat"; data := Text "heartbeat" |}.

(** What throws into a suspended generator: the client went away, or the
    task that drives the response was cancelled. *)
Inductive Cause := ClientDisconnect | Cancellation.

(** An [asyncio] task created by a generator.  [Task.cancel()] on a task
    that waits at an [await] makes the next resumption raise
    [CancelledError] there; on a finished task it does nothing. *)
Inductive Task := NotCreated | Waiting | CancelRequested | Finished.

#[global] Instance Task_eq_dec : EqDecision Task.
Proof. solve_decision. Defined.

Definition cancel (t : Task) : Task :=
  match t with
  | Waiting => CancelRequested
  | other => other
  end.

(** ** [routers/device.py] *)

Module DeviceRouter.

(** The channel an activation code names: redis-py sends the [int] as its
    decimal text. *)
Definition code_channel (code : Z) : string := pretty code.

(** [f"device:{device.id}:instructions"] *)
Definition instructions_channel (device_id : Z) : string :=
  "device:" +:+ pretty device_id +:+ ":instructions".

(** The [while True] loop of [create_device] around
    [utils.generate_api_key] ([secrets.token_urlsafe(32)]).  [tokens] are
    the values the generator is going to return, in order; the loop has not
    left within them when the result is [None]. *)
Fixpoint generate_api_key_loop (tokens : list string) (db : Db.t)
    : option string :=
  match tokens with
  | [] => None
  | api_key :: tokens' =>
      match Db.device_by_api_key api_key db with
      | Some _ => generate_api_key_loop tokens' db
      | None => Some api_key
      end
  end.

(** [json.dumps({"name": new_device.name, "api_key": new_device.api_key})] *)
Definition activation_payload (d : Device.t) : Json :=
  JObj [("name", JStr (Device.name d)); ("api_key", JStr (Device.api_key d))].

Definition create_device (data : DeviceInput) (now : Z) (tokens : list string)
    (redis : Redis.t) (session : Db.t)
    : option (Result Device.t * Redis.t * Db.t) :=
  let channel_subscriber_number :=
    Redis.pubsub_numsub (code_channel (di_code data)) redis in
  if bool_decide (channel_subscriber_number = 0) then
    Some (Raise (HTTPException HTTP_404_NOT_FOUND
            ("No Client awaiting with the following pin: "
             +:+ pretty (di_code data))), redis, session)
  else
    match Db.device_by_name (di_name data) session with
    | Some _ =>
        Some (Raise (HTTPException HTTP_409_CONFLICT
                ("Device name " +:+ di_name data +:+ " already exsist.")),
              redis, session)
    | None =>
        match generate_api_key_loop tokens session with
        | None => None
        | Some api_key =>
            let '(new_device, session') :=
              Db.add_device (di_name data) (di_location data) now api_key
                session in
            let redis' :=
              Redis.publish (code_channel (di_code data))
                (activation_payload new_device) redis in
            Some (Ok new_device, redis', session')
        end
    end.

(** Some device row carries this name. *)
Definition name_taken (n : string) (session : Db.t) : Prop :=
  ∃ d, d ∈ Db.devices session ∧ Device.name d = n.

(** Some device row carries this API key. *)
Definition api_key_taken (k : string) (session : Db.t) : Prop :=
  ∃ d, d ∈ Db.devices session ∧ Device.api_key d = k.

(** Some device row has this primary key. *)
Definition device_exists (i : Z) (session : Db.t) : Prop :=
  ∃ d, d ∈ Db.devices session ∧ Device.id d = i.

(** *** [send_snapshot_instruction] *)

(** [json.dumps({"instruction": "snapshot", "url": data.url})] *)
Definition snapshot_payload (url : string) : Json :=
  JObj [("instruction", JStr "snapshot"); ("url", JStr url)].

Definition send_snapshot_instruction (data_url : string) (device_id : Z)
    (redis : Redis.t) (session : Db.t) : Result Json * Redis.t :=
  match Db.device_by_id device_id session with
  | None =>
      (Raise (HTTPException HTTP_404_NOT_FOUND
                ("Device " +:+ pretty device_id +:+ " not found")), redis)
  | Some device =>
      if bool_decide
           (Redis.pubsub_numsub (instructions_channel (Device.id device)) redis
            = 0)
      then
        (Raise (HTTPException HTTP_409_CONFLICT
                  ("Device " +:+ pretty device_id +:+ " is offline")), redis)
      else
        let instruction := snapshot_payload data_url in
        (Ok (JObj [("detail", JStr "Instruction sent successfully")]),
         Redis.publish (instructions_channel (Device.id device)) instruction
           redis)
  end.

(** *** Presence *)

Definition online_devices : string := "online_devices".
Definition devices_status : string := "devices:status".

(** [json.dumps({"id": device.id, "status": ...})] *)
Definition status_message (device_id : Z) (status : string) : Json :=
  JObj [("id", JInt device_id); ("status", JStr status)].

End DeviceRouter.

(** *** [get_current_device_instructions]: one device session

    The handler body runs first; the generator it returns is then driven by
    the response.  A generator is suspended either before its first
    statement, at [await pubsub.subscribe(...)] (which precedes the [try]),
    or inside the [try] (at [await queue.get()] or at [yield]).  The two
    tasks are created inside the [try] and, the event loop running callbacks
    in the order they were scheduled, have reached their first [await]
    before anything can be thrown into the generator there. *)

Module DeviceSession.
Import DeviceRouter.

Inductive Gen := Created | Subscribing | Streaming | Closed.

#[global] Instance Gen_eq_dec : EqDecision Gen.
Proof. solve_decision. Defined.

(** The steps of the cleanup, for counting how often each one runs. *)
Inductive Cleanup :=
| Unsubscribe | MarkOffline | PublishOffline | PersistLastSeen.

#[global] Instance Cleanup_eq_dec : EqDecision Cleanup.
Proof. solve_decision. Defined.

Record t := mk {
  device : Device.t;
  conn : nat;                    (* the connection behind [redis.pubsub()] *)
  gen : Gen;
  listener_task : Task;
  heartbeat_task : Task;
  queue : list Frame;            (* [asyncio.Queue()], head is the oldest *)
  sent : list Frame;             (* what the generator has yielded *)
  cleanup_log : list Cleanup;    (* cleanup steps executed, oldest first *)
  redis : Redis.t;
  session : Db.t;
}.

(** The handler body, lines 206-212 and 257: persist last-seen, publish the
    online event, add the device to the online set, build the response. *)
Definition get_current_device_instructions (device : Device.t) (now : Z)
    (conn : nat) (redis : Redis.t) (session : Db.t) : t :=
  let device := Device.set_last_seen now device in
  let session := Db.update_device device session in
  let status_message := status_message (Device.id device) "online" in
  let redis := Redis.publish devices_status status_message redis in
  let redis := Redis.sadd online_devices (pretty (Device.id device)) redis in
  mk device conn Created NotCreated NotCreated [] [] [] redis session.

(** [message_listener], the [except asyncio.CancelledError] branch. *)
Definition message_listener_cancelled (s : t) : t :=
  let redis := Redis.srem online_devices (pretty (Device.id (device s)))
                 (redis s) in
  let status_message := status_message (Device.id (device s)) "offline" in
  let redis := Redis.publish devices_status status_message redis in
  let redis := Redis.unsubscribe (conn s) redis in
  mk (device s) (conn s) (gen s) Finished (heartbeat_task s)
     (queue s) (sent s)
     (cleanup_log s ++ [MarkOffline; PublishOffline; Unsubscribe])
     redis (session s).

(** [event_generator], the [finally] block. *)
Definition event_generator_finally (now : Z) (s : t) : t :=
  let heartbeat_task := cancel (heartbeat_task s) in
  let listener_task := cancel (listener_task s) in
  let device := Device.set_last_seen now (device s) in
  let session := Db.update_device device (session s) in
  mk device (conn s) Closed listener_task heartbeat_task
     (queue s) (sent s) (cleanup_log s ++ [PersistLastSeen])
     (redis s) session.

Inductive Event :=
| Next                               (* the response asks for the next item *)
| Subscribed                         (* the SUBSCRIBE reply arrives *)
| Inbound (message_data : Json)      (* [pubsub.listen()] yields a message *)
| Tick                               (* [asyncio.sleep(10)] returns *)
| Throw (c : Cause) (now : Z)        (* raised at the suspension point *)
| ResumeListener                     (* the loop resumes [message_listener] *)
| ResumeHeartbeat.                   (* the loop resumes [heartbeat_sender] *)

Definition put (f : Frame) (s : t) : t :=
  mk (device s) (conn s) (gen s) (listener_task s) (heartbeat_task s)
     (queue s ++ [f]) (sent s) (cleanup_log s) (redis s) (session s).

Definition step (e : Event) (s : t) : t :=
  match e, gen s with
  | Next, Created =>
      (* [pubsub = redis.pubsub()]; suspended at [await pubsub.subscribe] *)
      mk (device s) (conn s) Subscribing (listener_task s) (heartbeat_task s)
         (queue s) (sent s) (cleanup_log s) (redis s) (session s)
  | Subscribed, Subscribing =>
      (* lines 217-246: subscribed, queue and tasks created *)
      mk (device s) (conn s) Streaming Waiting Waiting
         [] (sent s) (cleanup_log s)
         (Redis.subscribe (conn s)
            (instructions_channel (Device.id (device s))) (redis s))
         (session s)
  | Next, Streaming =>
      (* [item = await queue.get(); yield item] *)
      match queue s with
      | [] => s
      | item :: rest =>
          mk (device s) (conn s) Streaming (listener_task s)
             (heartbeat_task s) rest (sent s ++ [item]) (cleanup_log s)
             (redis s) (session s)
      end
  | Inbound message_data, _ =>
      match listener_task s with
      | Waiting => put {| event := "message"; data := Payload message_data |} s
      | _ => s
      end
  | Tick, _ =>
      match heartbeat_task s with
      | Waiting => put heartbeat_frame s
      | _ => s
      end
  | Throw _ now, Streaming => event_generator_finally now s
  | Throw _ _, (Created | Subscribing) =>
      (* nothing encloses the suspension point: the generator just ends *)
      mk (device s) (conn s) Closed (listener_task s) (heartbeat_task s)
         (queue s) (sent s) (cleanup_log s) (redis s) (session s)
  | ResumeListener, _ =>
      match listener_task s with
      | CancelRequested => message_listener_cancelled s
      | _ => s
      end
  | ResumeHeartbeat, _ =>
      match heartbeat_task s with
      | CancelRequested =>
          mk (device s) (conn s) (gen s) (listener_task s) Finished
             (queue s) (sent s) (cleanup_log s) (redis s) (session s)
      | _ => s
      end
  | _, _ => s
  end.

Definition run (trace : list Event) (s : t) : t :=
  foldl (λ s e, step e s) s trace.

(** How often a cleanup step has run. *)
Definition times (c : Cleanup) (s : t) : nat :=
  length (filter (λ c', c' = c) (cleanup_log s)).

(** The session has ended: the generator is closed and no cancelled task
    is still waiting to be resumed. *)
Definition terminated (s : t) : Prop :=
  gen s = Closed
  ∧ listener_task s ≠ CancelRequested
  ∧ heartbeat_task s ≠ CancelRequested.

(** Each of the four cleanup steps has run exactly once. *)
Definition cleanup_exactly_once (s : t) : Prop :=
  ∀ c, times c s = 1%nat.

(** What the cleanup leaves in Redis: the device is not in the online set
    and the last message published is its offline event. *)
Definition offline (s : t) : Prop :=
  (pretty (Device.id (device s))
     ∉ Redis.smembers online_devices (redis s))
  ∧ (last (Redis.published (redis s))
     = Some (devices_status,
             status_message (Device.id (device s)) "offline")).

(** Before the [try] is entered there is no task and nothing was cleaned
    up; inside it the listener waits. *)
Definition attached (s : DeviceSession.t) : Prop :=
  match gen s with
  | Created | Subscribing => listener_task s = NotCreated ∧ cleanup_log s = []
  | Streaming => listener_task s = Waiting ∧ cleanup_log s = []
  | Closed => True
  end.

(** The three stages of a session whose generator has entered the [try]. *)
Definition streamed (s : DeviceSession.t) : Prop :=
  (gen s = Streaming ∧ listener_task s = Waiting ∧ cleanup_log s = [])
  ∨ (gen s = Closed ∧ listener_task s = CancelRequested
     ∧ cleanup_log s = [PersistLastSeen])
  ∨ (gen s = Closed ∧ listener_task s = Finished
     ∧ cleanup_log s
       = [PersistLastSeen; MarkOffline; PublishOffline; Unsubscribe]
     ∧ offline s).

(** A session that ended before its generator entered the [try]. *)
Definition skipped (s : DeviceSession.t) : Prop :=
  gen s = Closed ∧ listener_task s = NotCreated ∧ cleanup_log s = [].

(** Several devices attach one after the other: the handler body runs for
    each, on the Redis state and the store the previous one left. *)
Definition attach_all (devices : list Device.t) (now : Z)
    (redis : Redis.t) (session : Db.t) : Redis.t * Db.t :=
  foldl (λ st device,
           let s := get_current_device_instructions device now 0%nat
                      st.1 st.2 in
           (DeviceSession.redis s, DeviceSession.session s))
    (redis, session) devices.

(** The entries the online set lists for one device. *)
Definition online_entries (device_id : Z) (redis : Redis.t) : list string :=
  filter (λ member, member = pretty device_id)
    (elements (Redis.smembers online_devices redis)).

End DeviceSession.

(** *** [get_all_devices_status]: one observer of the status stream

    Here the generator subscribes before the [try], creates its two tasks
    inside it, then awaits [redis.smembers], yields the initial frame and
    only afterwards enters the loop over the queue. *)

Module StatusStream.
Import DeviceRouter.

Inductive Gen := Created | Subscribing | Snapshotting | Streaming | Closed.

Record t := mk {
  conn : nat;
  gen : Gen;
  listener_task : Task;
  heartbeat_task : Task;
  queue : list Frame;
  sent : list Frame;
  redis : Redis.t;
}.

Definition get_all_devices_status (conn : nat) (redis : Redis.t) : t :=
  mk conn Created NotCreated NotCreated [] [] redis.

(** [f"event: message\ndata: {list(init_devices)}\n\n"] *)
Definition init_response (redis : Redis.t) : Frame :=
  let init_devices := Redis.smembers online_devices redis in
  {| event := "message"; data := Members init_devices |}.

Inductive Event :=
| Next                               (* the response asks for the next item *)
| Subscribed                         (* the SUBSCRIBE reply arrives *)
| SmembersReply                      (* the SMEMBERS reply arrives *)
| Inbound (message_data : Json)      (* [pubsub.listen()] yields a message *)
| Tick                               (* [asyncio.sleep(10)] returns *)
| Throw (c : Cause)                  (* raised at the suspension point *)
| ResumeListener
| ResumeHeartbeat
| Presence (online : bool) (member : string).
    (* a device session elsewhere runs SADD or SREM on the online set *)

Definition put (f : Frame) (s : t) : t :=
  mk (conn s) (gen s) (listener_task s) (heartbeat_task s)
     (queue s ++ [f]) (sent s) (redis s).

Definition step (e : Event) (s : t) : t :=
  match e, gen s with
  | Next, Created =>
      mk (conn s) Subscribing (listener_task s) (heartbeat_task s)
         (queue s) (sent s) (redis s)
  | Subscribed, Subscribing =>
      (* lines 273-297: subscribed, queue and tasks created, SMEMBERS sent *)
      mk (conn s) Snapshotting Waiting Waiting [] (sent s)
         (Redis.subscribe (conn s) devices_status (redis s))
  | SmembersReply, Snapshotting =>
      (* lines 297-299: [yield init_response] *)
      mk (conn s) Streaming (listener_task s) (heartbeat_task s)
         (queue s) (sent s ++ [init_response (redis s)]) (redis s)
  | Next, Streaming =>
      match queue s with
      | [] => s
      | item :: rest =>
          mk (conn s) Streaming (listener_task s) (heartbeat_task s)
             rest (sent s ++ [item]) (redis s)
      end
  | Inbound message_data, _ =>
      match listener_task s with
      | Waiting => put {| event := "update"; data := Payload message_data |} s
      | _ => s
      end
  | Tick, _ =>
      match heartbeat_task s with
      | Waiting => put heartbeat_frame s
      | _ => s
      end
  | Throw _, (Snapshotting | Streaming) =>
      (* the [finally] block *)
      mk (conn s) Closed (cancel (listener_task s))
         (cancel (heartbeat_task s)) (queue s) (sent s) (redis s)
  | Throw _, (Created | Subscribing) =>
      mk (conn s) Closed (listener_task s) (heartbeat_task s)
         (queue s) (sent s) (redis s)
  | ResumeListener, _ =>
      match listener_task s with
      | CancelRequested =>
          (* [except asyncio.CancelledError: await pubsub.unsubscribe()] *)
          mk (conn s) (gen s) Finished (heartbeat_task s) (queue s) (sent s)
             (Redis.unsubscribe (conn s) (redis s))
      | _ => s
      end
  | ResumeHeartbeat, _ =>
      match heartbeat_task s with
      | CancelRequested =>
          mk (conn s) (gen s) (listener_task s) Finished (queue s) (sent s)
             (redis s)
      | _ => s
      end
  | Presence online member, _ =>
      mk (conn s) (gen s) (listener_task s) (heartbeat_task s) (queue s)
         (sent s)
         (if online then Redis.sadd online_devices member (redis s)
          else Redis.srem online_devices member (redis s))
  | _, _ => s
  end.

Definition run (trace : list Event) (s : t) : t :=
  foldl (λ s e, step e s) s trace.

(** A frame that came off the queue: a presence update or a heartbeat. *)
Definition from_queue (f : Frame) : Prop :=
  (∃ j, f = {| event := "update"; data := Payload j |}) ∨ f = heartbeat_frame.

(** A presence-transition frame. *)
Definition is_update (f : Frame) : Prop := event f = "update".

(** Only presence updates and heartbeats are queued; nothing is sent
    before the snapshot, and the loop is entered with the snapshot sent. *)
Definition well_formed (s : StatusStream.t) : Prop :=
  Forall from_queue (queue s)
  ∧ match gen s with
    | Created | Subscribing | Snapshotting => sent s = []
    | Streaming => sent s ≠ []
    | Closed => True
    end.

End StatusStream.

(** ** [routers/code.py] *)

Module CodeRouter.

Definition activation_code_counter : string := "activation_code_counter".

(** [random.randint(a, b)] returns an integer [v] with [a <= v <= b], both
    end points included. *)
Definition randint (a b v : Z) : Prop := a ≤ v ≤ b.

(** Lines 28-31.  [seed_value] is what [random.randint] returns if it is
    called. *)
Definition first_incr (seed_value : Z) (redis : Redis.t) : Z * Redis.t :=
  let redis :=
    if bool_decide (Redis.exists_ activation_code_counter redis = 0)
    then Redis.set activation_code_counter seed_value redis
    else redis in
  Redis.incr activation_code_counter redis.

(** [get_unique_activation_code]; [reseed_value] is the second draw of
    [random.randint], used on the overflow branch only. *)
Definition get_unique_activation_code (seed_value reseed_value : Z)
    (redis : Redis.t) : Z * Redis.t :=
  let '(unique_code, redis) := first_incr seed_value redis in
  if bool_decide (unique_code >= 999_999_999) then
    let redis := Redis.set activation_code_counter reseed_value redis in
    Redis.incr activation_code_counter redis
  else (unique_code, redis).

(** Whether an issuance takes the overflow branch. *)
Definition resets (seed_value : Z) (redis : Redis.t) : bool :=
  bool_decide ((first_incr seed_value redis).1 >= 999_999_999).

(** A run of issuances: [draws k] are the two values [random.randint]
    holds ready for issuance number [k] (counted from 0). *)
Definition redis_before (draws : N → Z * Z) (redis0 : Redis.t) (n : N)
    : Redis.t :=
  N.peano_rect (λ _, Redis.t) redis0
    (λ k redis,
       (get_unique_activation_code (draws k).1 (draws k).2 redis).2) n.

Definition code_at (draws : N → Z * Z) (redis0 : Redis.t) (n : N) : Z :=
  (get_unique_activation_code (draws n).1 (draws n).2
     (redis_before draws redis0 n)).1.

Definition resets_at (draws : N → Z * Z) (redis0 : Redis.t) (n : N) : bool :=
  resets (draws n).1 (redis_before draws redis0 n).

(** The value INCR gives the counter in issuance [n], before any reset. *)
Definition incremented_at (draws : N → Z * Z) (redis0 : Redis.t) (n : N) : Z :=
  (first_incr (draws n).1 (redis_before draws redis0 n)).1.

(** The counter as Redis holds it. *)
Definition counter (redis : Redis.t) : option Z :=
  Redis.kv redis !! activation_code_counter.

Definition draws_in_range (draws : N → Z * Z) : Prop :=
  ∀ k, randint 100_000_000 900_000_000 (draws k).1
       ∧ randint 100_000_000 900_000_000 (draws k).2.

(** The issuance algorithm in the words of the specification: seeds lie in
    the half-open interval, and the counter is re-seeded when the
    incremented value has gone past 999_999_999. *)
Definition spec_seed (v : Z) : Prop := 100_000_000 ≤ v < 900_000_000.

Definition spec_get_unique_activation_code (seed_value reseed_value : Z)
    (redis : Redis.t) : Z * Redis.t :=
  let '(unique_code, redis) := first_incr seed_value redis in
  if bool_decide (unique_code > 999_999_999) then
    let redis := Redis.set activation_code_counter reseed_value redis in
    Redis.incr activation_code_counter redis
  else (unique_code, redis).

Definition nine_digits (code : Z) : Prop := 100_000_000 ≤ code ≤ 999_999_999.

(** *** [get_device_status_by_code] *)

(** The handler body, lines 70-76 and 138: the subscriber count is read,
    and the response around the generator is returned; the generator has
    not run yet. *)
Definition get_device_status_by_code (code : string) (redis : Redis.t)
    : Result string :=
  let channel_subscriber_number := Redis.pubsub_numsub code redis in
  if bool_decide (channel_subscriber_number ≠ 0) then
    Raise (HTTPException HTTP_400_BAD_REQUEST
             "Code is not available pelas request another one")
  else Ok code.

(** The server as far as the code-status streams go: the Redis state, the
    responses whose generator has not started, and the generators that
    have subscribed (each by request number, with its code). *)
Record Server := {
  redis : Redis.t;
  responses : gmap nat string;
  streams : gmap nat string;
  next_request : nat;
}.

Definition boot (redis : Redis.t) : Server :=
  {| redis := redis; responses := ∅; streams := ∅; next_request := 0 |}.

Inductive Op :=
| Request (code : string)   (* the handler runs for a new request *)
| Start (request : nat)     (* its generator runs up to the subscription *)
| Finish (request : nat).   (* its generator ends and unsubscribes *)

Definition step (op : Op) (s : Server) : Server :=
  match op with
  | Request code =>
      match get_device_status_by_code code (redis s) with
      | Raise _ =>
          {| redis := redis s; responses := responses s;
             streams := streams s; next_request := S (next_request s) |}
      | Ok code =>
          {| redis := redis s;
             responses := <[next_request s := code]> (responses s);
             streams := streams s; next_request := S (next_request s) |}
      end
  | Start request =>
      match responses s !! request with
      | Some code =>
          (* [pubsub = redis.pubsub(); await pubsub.subscribe(code)] *)
          {| redis := Redis.subscribe request code (redis s);
             responses := delete request (responses s);
             streams := <[request := code]> (streams s);
             next_request := next_request s |}
      | None => s
      end
  | Finish request =>
      match streams s !! request with
      | Some code =>
          (* [await pubsub.unsubscribe(code)] *)
          {| redis := Redis.unsubscribe_from request code (redis s);
             responses := responses s;
             streams := delete request (streams s);
             next_request := next_request s |}
      | None => s
      end
  end.

Definition run (ops : list Op) (s : Server) : Server :=
  foldl (λ s op, step op s) s ops.

(** Requests served one after the other: a request's generator subscribes
    before the next handler runs. *)
Inductive SerialOp :=
| Open (code : string)
| Close (request : nat).

Definition serial_step (op : SerialOp) (s : Server) : Server :=
  match op with
  | Open code => step (Start (next_request s)) (step (Request code) s)
  | Close request => step (Finish request) s
  end.

Definition run_serial (ops : list SerialOp) (s : Server) : Server :=
  foldl (λ s op, serial_step op s) s ops.

(** No channel has more than one subscriber. *)
Definition at_most_one_subscriber (redis : Redis.t) : Prop :=
  ∀ code, Redis.pubsub_numsub code redis ≤ 1.

(** Between two serial steps no response is waiting to start and no
    channel has more than one subscriber. *)
Definition serial_invariant (s : Server) : Prop :=
  (∀ request, responses s !! request = None)
  ∧ at_most_one_subscriber (redis s).

End CodeRouter.

(** ** [routers/setup.py]: [create_setup] *)

Record ImageBase := { ib_url : string; ib_duration : Z }.

Module PlaylistInput.
Record t := mk {
  name : string;
  start_time : string;
  end_time : string;
  monday : bool; tuesday : bool; wednesday : bool; thursday : bool;
  friday : bool; saturday : bool; sunday : bool;
  images : list ImageBase;
  videos : list string;
}.
End PlaylistInput.

Record SetupInput := {
  si_name : string;
  si_playlists : list PlaylistInput.t;
  si_devices : list Z;
}.

Record DeviceSetupOutput := { dso_id : Z; dso_data : string }.

Record PlaylistOutput := {
  po_playlist : Playlist.t;
  po_images : list Image.t;
  po_videos : list Video.t;
}.

Record SetupOutput := {
  so_name : string;
  so_id : Z;
  so_devices : list DeviceSetupOutput;
  so_data : list PlaylistOutput;
}.

Module SetupRouter.
Import DeviceRouter.

(** [for x in l: s = body(x, s)], leaving at the first exception. *)
Fixpoint for_each {A S : Type} (body : A → S → Result S) (l : list A) (s : S)
    : Result S :=
  match l with
  | [] => Ok s
  | x :: l' => s' ← body x s; for_each body l' s'
  end.

(** [json.dumps({"instruction": "update_setup"})] *)
Definition update_setup_payload : Json :=
  JObj [("instruction", JStr "update_setup")].

(** [DevicePublicOutput.to_setup_model] *)
Definition to_setup_model (device : Device.t) : DeviceSetupOutput :=
  {| dso_id := Device.id device;
     dso_data := Device.name device +:+ " - " +:+ Device.location device |}.

Definition days : list (string * (PlaylistInput.t → bool)) :=
  [("monday", PlaylistInput.monday); ("tuesday", PlaylistInput.tuesday);
   ("wednesday", PlaylistInput.wednesday);
   ("thursday", PlaylistInput.thursday); ("friday", PlaylistInput.friday);
   ("saturday", PlaylistInput.saturday); ("sunday", PlaylistInput.sunday)].

(** [list.sort(key=...)] is stable: an element goes behind every element
    whose key is not greater than its own. *)
Fixpoint insert_by_key (x : Z * PlaylistInput.t)
    (l : list (Z * PlaylistInput.t)) : list (Z * PlaylistInput.t) :=
  match l with
  | [] => [x]
  | y :: l' =>
      if bool_decide (x.1 < y.1) then x :: l else y :: insert_by_key x l'
  end.

Definition sort_by_key (l : list (Z * PlaylistInput.t))
    : list PlaylistInput.t :=
  (foldl (λ acc x, insert_by_key x acc) [] l).*2.

(** [datetime.strptime(s, "%H:%M")] on a text of the validated shape
    [HH:MM] (five characters): minutes since midnight. *)
Definition digit (a : Ascii.ascii) : option Z :=
  let n := Z.of_nat (Ascii.nat_of_ascii a) in
  if bool_decide (48 ≤ n ≤ 57) then Some (n - 48) else None.

Definition strptime_hm (s : string) : option Z :=
  match s with
  | String h1 (String h2 (String sep (String m1 (String m2 EmptyString)))) =>
      h1 ← digit h1; h2 ← digit h2; m1 ← digit m1; m2 ← digit m2;
      let hours := 10 * h1 + h2 in
      let minutes := 10 * m1 + m2 in
      if bool_decide (sep = ":"%char ∧ hours ≤ 23 ∧ minutes ≤ 59)
      then Some (60 * hours + minutes) else None
  | _ => None
  end.

Section WithClock.
(** [datetime.strptime(s, "%H:%M")], as minutes since midnight; [None]
    when it raises [ValueError]. *)
Variable strptime : string → option Z.

Definition parse (s : string) : Result Z :=
  match strptime s with
  | Some t => Ok t
  | None => Raise ValueError
  end.

(** Lines 110-117: each playlist of the day against the next one. *)
Fixpoint check_overlap (day : string) (day_playlists : list PlaylistInput.t)
    : Result () :=
  match day_playlists with
  | current :: (next :: _) as rest =>
      current_end ← parse (PlaylistInput.end_time current);
      next_start ← parse (PlaylistInput.start_time next);
      if bool_decide (current_end > next_start) then
        Raise (HTTPException HTTP_400_BAD_REQUEST
                 ("Playlists '" +:+ PlaylistInput.name current
                  +:+ "' and '" +:+ PlaylistInput.name next
                  +:+ "' overlap on " +:+ day))
      else check_overlap day rest
  | _ => Ok ()
  end.

(** Lines 101-117, the body of [for day in days]. *)
Definition check_day (playlists : list PlaylistInput.t)
    (day : string * (PlaylistInput.t → bool)) (_ : ()) : Result () :=
  let day_playlists := List.filter day.2 playlists in
  keys ← mapM (λ p, parse (PlaylistInput.start_time p)) day_playlists;
  check_overlap day.1 (sort_by_key (zip keys day_playlists)).

(** Lines 125-164, the body of [for playlist_data in data.playlists]. *)
Definition add_playlist (setup_id : Z) (playlist_data : PlaylistInput.t)
    (session : Db.t) : Result Db.t :=
  if bool_decide (length (PlaylistInput.images playlist_data) = 0%nat
                  ∧ length (PlaylistInput.videos playlist_data) = 0%nat)
  then
    Raise (HTTPException HTTP_400_BAD_REQUEST
             ("Playlist " +:+ PlaylistInput.name playlist_data
              +:+ " must have at least one image or video"))
  else
    start_time ← parse (PlaylistInput.start_time playlist_data);
    end_time ← parse (PlaylistInput.end_time playlist_data);
    if bool_decide (start_time >= end_time) then
      Raise (HTTPException HTTP_400_BAD_REQUEST
               ("Playlist " +:+ PlaylistInput.name playlist_data
                +:+ " start_time must be before end_time"))
    else
      let '(new_playlist, session) :=
        Db.add_playlist
          (λ id, Playlist.mk id
                   (PlaylistInput.name playlist_data)
                   (PlaylistInput.start_time playlist_data)
                   (PlaylistInput.end_time playlist_data)
                   (PlaylistInput.monday playlist_data)
                   (PlaylistInput.tuesday playlist_data)
                   (PlaylistInput.wednesday playlist_data)
                   (PlaylistInput.thursday playlist_data)
                   (PlaylistInput.friday playlist_data)
                   (PlaylistInput.saturday playlist_data)
                   (PlaylistInput.sunday playlist_data)
                   setup_id)
          session in
      let session :=
        foldl (λ session image,
                 Db.add_image (ib_url image) (ib_duration image)
                   (Playlist.id new_playlist) session)
          session (PlaylistInput.images playlist_data) in
      let session :=
        foldl (λ session video_url,
                 Db.add_video video_url (Playlist.id new_playlist) session)
          session (PlaylistInput.videos playlist_data) in
      Ok session.

(** Lines 167-175, the body of [for device_id in data.devices].  The
    state is the session and the local variable [device], unbound
    ([None]) before the first iteration. *)
Definition link_device (setup_id : Z) (device_id : Z)
    (st : Db.t * option Device.t) : Result (Db.t * option Device.t) :=
  match Db.device_by_id device_id st.1 with
  | None =>
      Raise (HTTPException HTTP_404_NOT_FOUND
               ("Device with id " +:+ pretty device_id +:+ " not found"))
  | Some device =>
      let device := Device.set_setup_id (Some setup_id) device in
      Ok (Db.update_device device st.1, Some device)
  end.

(** Lines 92-177: everything between [try:] and [session.commit()]. *)
Definition create_setup_rows (data : SetupInput) (session : Db.t)
    : Result (Setup.t * option Device.t * Db.t) :=
  _ ← for_each (check_day (si_playlists data)) days ();
  let '(new_setup, session) := Db.add_setup (si_name data) session in
  session ← for_each (add_playlist (Setup.id new_setup))
              (si_playlists data) session;
  '(session, device) ← for_each (link_device (Setup.id new_setup))
                         (si_devices data) (session, None);
  Ok (new_setup, device, session).

(** Lines 180-182: [for device_id in data.devices].  The channel is
    built from the local variable [device], whatever [device_id] is. *)
Fixpoint notify (device : option Device.t) (devices : list Z)
    (redis : Redis.t) : Result () * Redis.t :=
  match devices with
  | [] => (Ok (), redis)
  | device_id :: devices' =>
      match device with
      | None => (Raise NameError, redis)
      | Some d =>
          let instruction := update_setup_payload in
          notify device devices'
            (Redis.publish (instructions_channel (Device.id d))
               instruction redis)
      end
  end.

(** Lines 184-193. *)
Definition setup_output (new_setup : Setup.t) (session : Db.t)
    : SetupOutput :=
  {| so_name := Setup.name new_setup;
     so_id := Setup.id new_setup;
     so_devices :=
       to_setup_model <$>
         List.filter
           (λ d, bool_decide (Device.setup_id d = Some (Setup.id new_setup)))
           (Db.devices session);
     so_data :=
       (λ p, {| po_playlist := p;
                po_images :=
                  List.filter
                    (λ i, bool_decide (Image.playlist_id i = Playlist.id p))
                    (Db.images session);
                po_videos :=
                  List.filter
                    (λ v, bool_decide (Video.playlist_id v = Playlist.id p))
                    (Db.videos session) |}) <$>
         List.filter
           (λ p, bool_decide (Playlist.setup_id p = Setup.id new_setup))
           (Db.playlists session) |}.

Definition create_setup (data : SetupInput) (redis : Redis.t)
    (session : Db.t) : Result SetupOutput * Redis.t * Db.t :=
  match Db.setup_by_name (si_name data) session with
  | Some _ =>
      (Raise (HTTPException HTTP_409_CONFLICT
                ("Name " +:+ si_name data +:+ " already in use.")),
       redis, session)
  | None =>
      let playlist_names := PlaylistInput.name <$> si_playlists data in
      if bool_decide (length playlist_names
                      ≠ size (list_to_set playlist_names : gset string))
      then
        (Raise (HTTPException HTTP_400_BAD_REQUEST
                  "Playlist name must be unqiue within a setip"),
         redis, session)
      else
        match create_setup_rows data session with
        | Raise e => (Raise e, redis, session)      (* [session.rollback()] *)
        | Ok (new_setup, device, session') =>
            match notify device (si_devices data) redis with
            | (Raise e, redis') => (Raise e, redis', session')
            | (Ok _, redis') =>
                (Ok (setup_output new_setup session'), redis', session')
            end
        end
  end.

End WithClock.

End SetupRouter.

(** ** Outcomes other than a value or an [HTTPException] *)

Module Py.

(** What a handler leaves behind: the value it returns, an exception of
    [Http.Exception], an [AttributeError] for the named attribute, the
    [IntegrityError] of a statement the store refuses, or the
    [ConnectionError] of a Redis command sent over a lost connection. *)
Inductive Outcome (A : Type) :=
| Returns (a : A)
| Raises (e : Http.Exception)
| AttributeError (attribute : string)
| IntegrityError
| ConnectionError.
Global Arguments Returns {A} a.
Global Arguments Raises {A} e.
Global Arguments AttributeError {A} attribute.
Global Arguments IntegrityError {A}.
Global Arguments ConnectionError {A}.

Definition bind {A B} (x : Outcome A) (k : A -> Outcome B) : Outcome B :=
  match x with
  | Returns a => k a
  | Raises e => Raises e
  | AttributeError attribute => AttributeError attribute
  | IntegrityError => IntegrityError
  | ConnectionError => ConnectionError
  end.

(** A computation that can only raise the exceptions of [Http.Exception]. *)
Definition of_result {A} (x : Http.Result A) : Outcome A :=
  match x with
  | Http.Ok a => Returns a
  | Http.Raise e => Raises e
  end.

End Py.

#[global] Instance outcome_bind : MBind Py.Outcome :=
  λ A B k x, Py.bind x k.
#[global] Instance outcome_ret : MRet Py.Outcome := λ A a, Py.Returns a.

(** [for x in l: s = body(x, s)], leaving at the first exception. *)
Fixpoint for_each_outcome {A S : Type} (body : A → S → Py.Outcome S)
    (l : list A) (s : S) : Py.Outcome S :=
  match l with
  | [] => Py.Returns s
  | x :: l' => s' ← body x s; for_each_outcome body l' s'
  end.

(** ** The relational store: deletion, and what the schema guarantees *)

Module Store.

(** [session.exec(select(Setup).filter_by(id=i)).first()] *)
Definition setup_by_id (i : Z) (db : Db.t) : option Setup.t :=
  List.find (λ s, bool_decide (Setup.id s = i)) (Db.setups db).

(** [session.delete(device); session.commit()]: the row with that primary
    key leaves the table; no other table refers to devices. *)
Definition delete_device (device : Device.t) (db : Db.t) : Db.t :=
  Db.mk (filter (λ d, Device.id d ≠ Device.id device) (Db.devices db))
     (Db.next_device_id db)
     (Db.setups db) (Db.next_setup_id db)
     (Db.playlists db) (Db.next_playlist_id db)
     (Db.images db) (Db.next_image_id db)
     (Db.videos db) (Db.next_video_id db).

(** [session.delete(playlist)]: [Playlist.images] and [Playlist.videos]
    cascade [all, delete-orphan], so its images and videos go with it. *)
Definition delete_playlist (playlist : Playlist.t) (db : Db.t) : Db.t :=
  Db.mk (Db.devices db) (Db.next_device_id db)
     (Db.setups db) (Db.next_setup_id db)
     (filter (λ p, Playlist.id p ≠ Playlist.id playlist) (Db.playlists db))
     (Db.next_playlist_id db)
     (filter (λ i, Image.playlist_id i ≠ Playlist.id playlist) (Db.images db))
     (Db.next_image_id db)
     (filter (λ v, Video.playlist_id v ≠ Playlist.id playlist) (Db.videos db))
     (Db.next_video_id db).

(** [session.delete(setup); session.commit()].  [Setup.data] cascades
    [all, delete-orphan]: the playlists of the setup are deleted, each with
    its images and videos.  [Setup.devices] has no cascade: the devices
    stay, their [setup_id] set to NULL. *)
Definition delete_setup (setup : Setup.t) (db : Db.t) : Db.t :=
  let deleted_playlists :=
    Playlist.id <$>
      filter (λ p, Playlist.setup_id p = Setup.id setup) (Db.playlists db) in
  Db.mk
     ((λ d, if bool_decide (Device.setup_id d = Some (Setup.id setup))
            then Device.set_setup_id None d else d) <$> Db.devices db)
     (Db.next_device_id db)
     (filter (λ s, Setup.id s ≠ Setup.id setup) (Db.setups db))
     (Db.next_setup_id db)
     (filter (λ p, Playlist.setup_id p ≠ Setup.id setup) (Db.playlists db))
     (Db.next_playlist_id db)
     (filter (λ i, Image.playlist_id i ∉ deleted_playlists) (Db.images db))
     (Db.next_image_id db)
     (filter (λ v, Video.playlist_id v ∉ deleted_playlists) (Db.videos db))
     (Db.next_video_id db).

(** [setup.name = name] on a row of the table. *)
Definition rename_setup (name : string) (setup : Setup.t) (db : Db.t) : Db.t :=
  Db.mk (Db.devices db) (Db.next_device_id db)
     ((λ s, if bool_decide (Setup.id s = Setup.id setup)
            then Setup.mk (Setup.id s) name else s) <$> Db.setups db)
     (Db.next_setup_id db)
     (Db.playlists db) (Db.next_playlist_id db)
     (Db.images db) (Db.next_image_id db)
     (Db.videos db) (Db.next_video_id db).

(** [session.exec(select(Playlist).filter_by(id=i, setup_id=s)).first()] *)
Definition playlist_of_setup (i setup_id : Z) (db : Db.t)
    : option Playlist.t :=
  List.find (λ p, bool_decide (Playlist.id p = i
                               ∧ Playlist.setup_id p = setup_id))
    (Db.playlists db).

(** [session.exec(select(Image).filter_by(id=i, playlist_id=p)).first()] *)
Definition image_of_playlist (i playlist_id : Z) (db : Db.t)
    : option Image.t :=
  List.find (λ x, bool_decide (Image.id x = i
                               ∧ Image.playlist_id x = playlist_id))
    (Db.images db).

(** [session.exec(select(Video).filter_by(id=i, playlist_id=p)).first()] *)
Definition video_of_playlist (i playlist_id : Z) (db : Db.t)
    : option Video.t :=
  List.find (λ x, bool_decide (Video.id x = i
                               ∧ Video.playlist_id x = playlist_id))
    (Db.videos db).

(** [session.exec(select(Device).filter_by(id=i, setup_id=s)).first()] *)
Definition device_of_setup (i setup_id : Z) (db : Db.t) : option Device.t :=
  List.find (λ d, bool_decide (Device.id d = i
                               ∧ Device.setup_id d = Some setup_id))
    (Db.devices db).

(** [session.delete(image)] *)
Definition delete_image (image : Image.t) (db : Db.t) : Db.t :=
  Db.mk (Db.devices db) (Db.next_device_id db)
     (Db.setups db) (Db.next_setup_id db)
     (Db.playlists db) (Db.next_playlist_id db)
     (filter (λ x, Image.id x ≠ Image.id image) (Db.images db))
     (Db.next_image_id db)
     (Db.videos db) (Db.next_video_id db).

(** [session.delete(video)] *)
Definition delete_video (video : Video.t) (db : Db.t) : Db.t :=
  Db.mk (Db.devices db) (Db.next_device_id db)
     (Db.setups db) (Db.next_setup_id db)
     (Db.playlists db) (Db.next_playlist_id db)
     (Db.images db) (Db.next_image_id db)
     (filter (λ x, Video.id x ≠ Video.id video) (Db.videos db))
     (Db.next_video_id db).

(** The device table as the schema constrains it: [id] is the primary
    key, assigned below the next key; [name] and [api_key] are declared
    [unique=True]. *)
Definition devices_consistent (db : Db.t) : Prop :=
  NoDup (Device.id <$> Db.devices db)
  ∧ NoDup (Device.name <$> Db.devices db)
  ∧ NoDup (Device.api_key <$> Db.devices db)
  ∧ Forall (λ d, Device.id d < Db.next_device_id db) (Db.devices db).

(** The setup table likewise: primary key [id], unique [name]. *)
Definition setups_consistent (db : Db.t) : Prop :=
  NoDup (Setup.id <$> Db.setups db)
  ∧ NoDup (Setup.name <$> Db.setups db)
  ∧ Forall (λ s, Setup.id s < Db.next_setup_id db) (Db.setups db).

End Store.

(** ** [dependencies.py] and the remaining handlers of [routers/device.py] *)

(** [data.model_dump(exclude_unset=True)]: a field of the request body is
    either absent from the dictionary or present, with a value or with
    [None]. *)
Inductive Field (A : Type) :=
| Unset
| Given (v : option A).
Global Arguments Unset {A}.
Global Arguments Given {A} v.

(** [models/device.py], class [DeviceUpdate]. *)
Record DeviceUpdate := {
  du_name : Field string;
  du_location : Field string;
  du_setup_id : Field Z;
}.

Module DeviceAdmin.
Import DeviceRouter.

Definition HTTP_401_UNAUTHORIZED : Z := 401.

(** [dependencies.get_device_from_api_key], behind [DeviceKeyDep]. *)
Definition get_device_from_api_key (api_key : string) (session : Db.t)
    : Result Device.t :=
  match Db.device_by_api_key api_key session with
  | None => Raise (HTTPException HTTP_401_UNAUTHORIZED "Api key not valid")
  | Some device => Ok device
  end.

(** [get_device_info_by_api_key]: the device the dependency resolved. *)
Definition get_device_info_by_api_key (api_key : string) (session : Db.t)
    : Result Device.t :=
  device ← get_device_from_api_key api_key session;
  Ok device.

(** [get_all_devices_info] *)
Definition get_all_devices_info (session : Db.t) : list Device.t :=
  Db.devices session.

(** [get_device_info] *)
Definition get_device_info (device_id : Z) (session : Db.t)
    : Result Device.t :=
  match Db.device_by_id device_id session with
  | None =>
      Raise (HTTPException HTTP_404_NOT_FOUND
               ("Device with id " +:+ pretty device_id +:+ " not found"))
  | Some device => Ok device
  end.

(** [delete_device] *)
Definition delete_device (device_id : Z) (session : Db.t)
    : Result Json * Db.t :=
  match Db.device_by_id device_id session with
  | None =>
      (Raise (HTTPException HTTP_404_NOT_FOUND
                ("Device " +:+ pretty device_id +:+ " not found.")), session)
  | Some device =>
      (Ok (JObj [("detail", JStr ("Device " +:+ pretty device_id
                                  +:+ " deleted successfully."))]),
       Store.delete_device device session)
  end.

(** [device.sqlmodel_update(update_data)] on one attribute: a key of the
    dictionary is assigned, an absent one leaves the attribute alone. *)
Definition sqlmodel_update {A} (field : Field A) (current : option A)
    : option A :=
  match field with
  | Unset => current
  | Given v => v
  end.

(** [session.add(device); session.commit()] for the updated object.  The
    columns [name] and [location] are NOT NULL and [setup_id] is a foreign
    key into the setup table: the store refuses anything else. *)
Definition commit_device (device : Device.t) (name location : option string)
    (setup_id : option Z) (session : Db.t) : option (Device.t * Db.t) :=
  match name, location with
  | Some name, Some location =>
      let device :=
        Device.mk (Device.id device) name location setup_id
          (Device.last_seen device) (Device.api_key device) in
      match setup_id with
      | Some i =>
          match Store.setup_by_id i session with
          | Some _ => Some (device, Db.update_device device session)
          | None => None
          end
      | None => Some (device, Db.update_device device session)
      end
  | _, _ => None
  end.

(** [update_device_info] *)
Definition update_device_info (device_id : Z) (data : DeviceUpdate)
    (session : Db.t) : Py.Outcome Device.t * Db.t :=
  match Db.device_by_id device_id session with
  | None =>
      (Py.Raises (HTTPException HTTP_404_NOT_FOUND
                    ("Device " +:+ pretty device_id +:+ " not found.")),
       session)
  | Some device =>
      let device_name_exist :=
        match du_name data with
        | Given (Some name) =>
            match Db.device_by_name name session with
            | Some _ => Some name
            | None => None
            end
        | Given None | Unset => None   (* no row has a NULL name *)
        end in
      match device_name_exist with
      | Some name =>
          (Py.Raises (HTTPException HTTP_409_CONFLICT
                        ("Device name " +:+ name +:+ " already in use.")),
           session)
      | None =>
          match commit_device device
                  (sqlmodel_update (du_name data) (Some (Device.name device)))
                  (sqlmodel_update (du_location data)
                     (Some (Device.location device)))
                  (sqlmodel_update (du_setup_id data) (Device.setup_id device))
                  session with
          | Some (device, session') => (Py.Returns device, session')
          | None => (Py.IntegrityError, session)
          end
      end
  end.

End DeviceAdmin.

(** ** The remaining handlers of [routers/setup.py] *)

(** [models/setup.py], classes [PlaylistUpdate] and [SetupUpdate]. *)
Record PlaylistUpdate := {
  pu_id : Z;
  pu_name : string;
  pu_start_time : string;
  pu_end_time : string;
  pu_monday : bool; pu_tuesday : bool; pu_wednesday : bool;
  pu_thursday : bool; pu_friday : bool; pu_saturday : bool; pu_sunday : bool;
  pu_images_to_add : list ImageBase;
  pu_images_to_delete : list Z;
  pu_videos_to_add : list string;
  pu_videos_to_delete : list Z;
}.

Record SetupUpdate := {
  su_name : option string;
  su_playlists_to_add : list PlaylistInput.t;
  su_playlists_to_update : list PlaylistUpdate;
  su_playlists_to_delete : list Z;
  su_devices_to_add : list Z;
  su_devices_to_remove : list Z;
}.

Module SetupAdmin.
Import DeviceRouter.

(** [setup.devices]: the device rows whose [setup_id] is the setup's. *)
Definition devices (setup : Setup.t) (session : Db.t) : list Device.t :=
  List.filter (λ d, bool_decide (Device.setup_id d = Some (Setup.id setup)))
    (Db.devices session).

(** [get_setup_info] *)
Definition get_setup_info (setup_id : Z) (session : Db.t)
    : Result SetupOutput :=
  match Store.setup_by_id setup_id session with
  | None =>
      Raise (HTTPException HTTP_404_NOT_FOUND
               ("Setup " +:+ pretty setup_id +:+ " not dound"))
  | Some setup => Ok (SetupRouter.setup_output setup session)
  end.

(** [get_setups_info] *)
Definition get_setups_info (session : Db.t) : list SetupOutput :=
  (λ setup, SetupRouter.setup_output setup session) <$> Db.setups session.

(** [delete_setup]: the linked devices are told first, each on its own
    channel, then the setup is deleted. *)
Definition delete_setup (setup_id : Z) (redis : Redis.t) (session : Db.t)
    : Result Json * Redis.t * Db.t :=
  match Store.setup_by_id setup_id session with
  | None =>
      (Raise (HTTPException HTTP_404_NOT_FOUND
                ("Setup " +:+ pretty setup_id +:+ " not dound")),
       redis, session)
  | Some setup =>
      let redis :=
        foldl (λ redis linked_device,
                 let instruction := SetupRouter.update_setup_payload in
                 Redis.publish
                   (instructions_channel (Device.id linked_device))
                   instruction redis)
          redis (devices setup session) in
      (Ok (JObj [("detail", JStr ("Setup " +:+ pretty setup_id
                                  +:+ " deleted successfully."))]),
       redis, Store.delete_setup setup session)
  end.

(** *** [update_setup]

    The handler works inside one transaction.  What it changes is seen by
    its later queries; what it has assigned to the setup's name is sent to
    the store with the next flush, which every query, every
    [session.flush()] and the commit begin with. *)

(** The objects the fields of a [SetupUpdate] hold. *)
Inductive Attribute :=
| OptionalName (v : option string)
| PlaylistInputs (v : list PlaylistInput.t)
| PlaylistUpdates (v : list PlaylistUpdate)
| Identifiers (v : list Z).

(** The fields of the request object, by name.  The class declares these
    six and ignores any other key of the request body. *)
Definition attributes (data : SetupUpdate) : gmap string Attribute :=
  list_to_map
    [("name", OptionalName (su_name data));
     ("playlists_to_add", PlaylistInputs (su_playlists_to_add data));
     ("playlists_to_update", PlaylistUpdates (su_playlists_to_update data));
     ("playlists_to_delete", Identifiers (su_playlists_to_delete data));
     ("devices_to_add", Identifiers (su_devices_to_add data));
     ("devices_to_remove", Identifiers (su_devices_to_remove data))].

(** [data.<attribute>] *)
Definition getattr (data : SetupUpdate) (attribute : string)
    : Py.Outcome Attribute :=
  match attributes data !! attribute with
  | Some value => Py.Returns value
  | None => Py.AttributeError attribute
  end.

(** The transaction: the store as the handler's queries see it, and the
    name assigned to the setup that no flush has sent yet. *)
Record Transaction := {
  tx_session : Db.t;
  tx_name : option string;
}.

(** A flush.  A pending name that differs from the stored one is sent as
    an UPDATE, which the store refuses when another setup carries the name
    ([name] is declared [unique=True]). *)
Definition flush (setup : Setup.t) (tx : Transaction)
    : Py.Outcome Transaction :=
  match tx_name tx with
  | None => Py.Returns tx
  | Some name =>
      if bool_decide (name = Setup.name setup) then
        Py.Returns {| tx_session := tx_session tx; tx_name := None |}
      else
        match List.find
                (λ s, bool_decide (Setup.name s = name
                                   ∧ Setup.id s ≠ Setup.id setup))
                (Db.setups (tx_session tx)) with
        | Some _ => Py.IntegrityError
        | None =>
            Py.Returns
              {| tx_session := Store.rename_setup name setup (tx_session tx);
                 tx_name := None |}
        end
  end.

(** Lines 253-258, the body of [for playlist_id in data.playlists_to_delete]. *)
Definition delete_listed_playlist (setup : Setup.t) (playlist_id : Z)
    (tx : Transaction) : Py.Outcome Transaction :=
  tx ← flush setup tx;
  match Store.playlist_of_setup playlist_id (Setup.id setup)
          (tx_session tx) with
  | Some playlist =>
      Py.Returns
        {| tx_session := Store.delete_playlist playlist (tx_session tx);
           tx_name := tx_name tx |}
  | None => Py.Returns tx
  end.

(** Lines 332-365, the body of [for playlist_update in
    data.playlists_to_update]. *)
Definition update_playlist (setup : Setup.t) (playlist_update : PlaylistUpdate)
    (tx : Transaction) : Py.Outcome Transaction :=
  tx ← flush setup tx;
  match Store.playlist_of_setup (pu_id playlist_update) (Setup.id setup)
          (tx_session tx) with
  | Some playlist =>
      let session := tx_session tx in
      let session :=
        foldl (λ session image_id,
                 match Store.image_of_playlist image_id (Playlist.id playlist)
                         session with
                 | Some image => Store.delete_image image session
                 | None => session
                 end)
          session (pu_images_to_delete playlist_update) in
      let session :=
        foldl (λ session image,
                 Db.add_image (ib_url image) (ib_duration image)
                   (Playlist.id playlist) session)
          session (pu_images_to_add playlist_update) in
      let session :=
        foldl (λ session video_id,
                 match Store.video_of_playlist video_id (Playlist.id playlist)
                         session with
                 | Some video => Store.delete_video video session
                 | None => session
                 end)
          session (pu_videos_to_delete playlist_update) in
      let session :=
        foldl (λ session video_url,
                 Db.add_video video_url (Playlist.id playlist) session)
          session (pu_videos_to_add playlist_update) in
      Py.Returns {| tx_session := session; tx_name := tx_name tx |}
  | None => Py.Returns tx
  end.

(** Lines 368-372, the body of [for device_id in data.devices_to_add]. *)
Definition add_device (setup : Setup.t) (device_id : Z) (tx : Transaction)
    : Py.Outcome Transaction :=
  tx ← flush setup tx;
  match Db.device_by_id device_id (tx_session tx) with
  | Some device =>
      let device := Device.set_setup_id (Some (Setup.id setup)) device in
      Py.Returns
        {| tx_session := Db.update_device device (tx_session tx);
           tx_name := tx_name tx |}
  | None => Py.Returns tx
  end.

(** Lines 375-381, the body of [for device_id in data.devices_to_remove]. *)
Definition remove_device (setup : Setup.t) (device_id : Z) (tx : Transaction)
    : Py.Outcome Transaction :=
  tx ← flush setup tx;
  match Store.device_of_setup device_id (Setup.id setup) (tx_session tx) with
  | Some device =>
      let device := Device.set_setup_id None device in
      Py.Returns
        {| tx_session := Db.update_device device (tx_session tx);
           tx_name := tx_name tx |}
  | None => Py.Returns tx
  end.

Section WithClock.
(** [datetime.strptime(s, "%H:%M")], as minutes since midnight; [None]
    when it raises [ValueError]. *)
Variable strptime : string → option Z.

(** Lines 270-286, the body of [for day in days].  Line 273 reads
    [data.playlists]; what follows is the check of [create_setup]. *)
Definition check_day (data : SetupUpdate)
    (day : string * (PlaylistInput.t → bool)) (_ : ()) : Py.Outcome () :=
  value ← getattr data "playlists";
  match value with
  | PlaylistInputs playlists =>
      Py.of_result (SetupRouter.check_day strptime playlists day ())
  | PlaylistUpdates _ | Identifiers _ | OptionalName _ =>
      Py.AttributeError day.1
  end.

(** Lines 289-329, the body of [for playlist_data in
    data.playlists_to_add]: the checks and rows of [create_setup]; the
    [session.flush()] of line 317 follows the checks. *)
Definition add_playlist (setup : Setup.t) (playlist_data : PlaylistInput.t)
    (tx : Transaction) : Py.Outcome Transaction :=
  session ← Py.of_result
              (SetupRouter.add_playlist strptime (Setup.id setup)
                 playlist_data (tx_session tx));
  flush setup {| tx_session := session; tx_name := tx_name tx |}.

(** Lines 249-384: everything between the lookup of the setup and the end
    of [session.commit()]. *)
Definition update_setup_rows (setup : Setup.t) (data : SetupUpdate)
    (session : Db.t) : Py.Outcome Db.t :=
  let name :=
    match su_name data with
    | Some name => if bool_decide (name ≠ "") then Some name else None
    | None => None
    end in
  let tx := {| tx_session := session; tx_name := name |} in
  tx ← for_each_outcome (delete_listed_playlist setup)
         (su_playlists_to_delete data) tx;
  _ ← for_each_outcome (check_day data) SetupRouter.days ();
  tx ← for_each_outcome (add_playlist setup) (su_playlists_to_add data) tx;
  tx ← for_each_outcome (update_playlist setup)
         (su_playlists_to_update data) tx;
  tx ← for_each_outcome (add_device setup) (su_devices_to_add data) tx;
  tx ← for_each_outcome (remove_device setup) (su_devices_to_remove data) tx;
  tx ← flush setup tx;
  Py.Returns (tx_session tx).

(** [update_setup].  Every exception is caught, the transaction rolled
    back, and the exception raised again. *)
Definition update_setup (setup_id : Z) (data : SetupUpdate) (redis : Redis.t)
    (session : Db.t) : Py.Outcome SetupOutput * Redis.t * Db.t :=
  match Store.setup_by_id setup_id session with
  | None =>
      (Py.Raises (HTTPException HTTP_404_NOT_FOUND
                    ("Setup " +:+ pretty setup_id +:+ " not dound")),
       redis, session)
  | Some setup =>
      match update_setup_rows setup data session with
      | Py.Returns session' =>
          let setup :=
            match su_name data with
            | Some name =>
                if bool_decide (name ≠ "") then Setup.mk (Setup.id setup) name
                else setup
            | None => setup
            end in
          let redis :=
            foldl (λ redis device,
                     let instruction := SetupRouter.update_setup_payload in
                     Redis.publish
                       (instructions_channel (Device.id device))
                       instruction redis)
              redis (devices setup session') in
          (Py.Returns (SetupRouter.setup_output setup session'),
           redis, session')
      | Py.Raises e => (Py.Raises e, redis, session)
      | Py.AttributeError attribute =>
          (Py.AttributeError attribute, redis, session)
      | Py.IntegrityError => (Py.IntegrityError, redis, session)
      | Py.ConnectionError => (Py.ConnectionError, redis, session)
      end
  end.

(** *** [create_setup] over a Redis connection that can be lost

    [await redis.publish(...)] raises [ConnectionError] when the server
    cannot be reached.  A connection is the number of commands it still
    carries out, [None] for one that is never lost. *)

(** Lines 180-182 of [create_setup]: the channel name is built from the
    local variable [device] first, then the command is sent. *)
Fixpoint notify (connection : option nat) (device : option Device.t)
    (devices : list Z) (redis : Redis.t) : Py.Outcome () * Redis.t :=
  match devices with
  | [] => (Py.Returns (), redis)
  | device_id :: devices' =>
      match device, connection with
      | None, _ => (Py.Raises NameError, redis)
      | Some d, Some O => (Py.ConnectionError, redis)
      | Some d, _ =>
          let instruction := SetupRouter.update_setup_payload in
          notify (Nat.pred <$> connection) device devices'
            (Redis.publish (instructions_channel (Device.id d))
               instruction redis)
      end
  end.

(** [create_setup], lines 74-199.  The notification loop runs after
    [session.commit()]: the [session.rollback()] of the handlers of lines
    194-199 then finds nothing to undo. *)
Definition create_setup (connection : option nat) (data : SetupInput)
    (redis : Redis.t) (session : Db.t)
    : Py.Outcome SetupOutput * Redis.t * Db.t :=
  match Db.setup_by_name (si_name data) session with
  | Some _ =>
      (Py.Raises (HTTPException HTTP_409_CONFLICT
                    ("Name " +:+ si_name data +:+ " already in use.")),
       redis, session)
  | None =>
      let playlist_names := PlaylistInput.name <$> si_playlists data in
      if bool_decide (length playlist_names
                      ≠ size (list_to_set playlist_names : gset string))
      then
        (Py.Raises (HTTPException HTTP_400_BAD_REQUEST
                      "Playlist name must be unqiue within a setip"),
         redis, session)
      else
        match SetupRouter.create_setup_rows strptime data session with
        | Raise e => (Py.Raises e, redis, session)   (* [session.rollback()] *)
        | Ok (new_setup, device, session') =>
            let notified := notify connection device (si_devices data) redis in
            (_ ← notified.1;
             Py.Returns (SetupRouter.setup_output new_setup session'),
             notified.2, session')
        end
  end.

End WithClock.

End SetupAdmin.

(** ** [routers/code.py]: the generator of [get_device_status_by_code]

    Frames are the texts the generator yields.  The generator is suspended
    before its first statement, at [await pubsub.subscribe(code)] (before
    the [try]), at [await queue.get()], or at [yield item]; when it is
    resumed after a [yield] it tests the item it has just sent. *)

Module CodeStream.

Definition nl : string := String "010"%char EmptyString.

(** [f"event: message\ndata: {message['data']}\n\n"] *)
Definition message_frame (message_data : string) : string :=
  "event: message" +:+ nl +:+ "data: " +:+ message_data +:+ nl +:+ nl.

(** ["event: heartbeat\ndata: heartbeat\n\n"] *)
Definition heartbeat_frame : string :=
  "event: heartbeat" +:+ nl +:+ "data: heartbeat" +:+ nl +:+ nl.

Definition TIMEOUT : string := "TIMEOUT".

(** [needle in haystack] on [str] *)
Fixpoint contains (needle haystack : string) : bool :=
  if String.prefix needle haystack then true
  else match haystack with
       | EmptyString => false
       | String _ rest => contains needle rest
       end.

Inductive Gen :=
| Created | Subscribing | Streaming | Yielded (item : string) | Closed.

Record t := mk {
  code : string;
  conn : nat;                    (* the connection behind [redis.pubsub()] *)
  gen : Gen;
  listener_task : Task;
  heartbeat_task : Task;
  timeout_task : Task;
  queue : list string;           (* [asyncio.Queue()], head is the oldest *)
  sent : list string;            (* what the generator has yielded *)
  pubsub_cleaned_up : bool;
  redis : Redis.t;
}.

(** The generator as the handler hands it to the response, line 138. *)
Definition event_generator (code : string) (conn : nat) (redis : Redis.t)
    : t :=
  mk code conn Created NotCreated NotCreated NotCreated [] [] false redis.

(** [await pubsub.aclose()]: the connection is given up, and with it
    every subscription it still holds. *)
Definition aclose (conn : nat) (redis : Redis.t) : Redis.t :=
  Redis.unsubscribe conn redis.

(** The [finally] block, lines 130-136. *)
Definition event_generator_finally (s : t) : t :=
  let listener_task := cancel (listener_task s) in
  let heartbeat_task := cancel (heartbeat_task s) in
  let timeout_task := cancel (timeout_task s) in
  let redis :=
    if pubsub_cleaned_up s then redis s
    else aclose (conn s) (Redis.unsubscribe_from (conn s) (code s) (redis s))
  in
  mk (code s) (conn s) Closed listener_task heartbeat_task timeout_task
     (queue s) (sent s) (pubsub_cleaned_up s) redis.

(** The top of the [while True] loop, lines 120-125: with nothing queued
    the generator waits at [queue.get()]; ["TIMEOUT"] leaves the loop
    unsent; anything else is yielded. *)
Definition queue_get (s : t) : t :=
  match queue s with
  | [] =>
      mk (code s) (conn s) Streaming (listener_task s) (heartbeat_task s)
         (timeout_task s) [] (sent s) (pubsub_cleaned_up s) (redis s)
  | item :: rest =>
      if bool_decide (item = TIMEOUT) then
        event_generator_finally
          (mk (code s) (conn s) (gen s) (listener_task s) (heartbeat_task s)
              (timeout_task s) rest (sent s) (pubsub_cleaned_up s) (redis s))
      else
        mk (code s) (conn s) (Yielded item) (listener_task s)
           (heartbeat_task s) (timeout_task s) rest (sent s ++ [item])
           (pubsub_cleaned_up s) (redis s)
  end.

Inductive Event :=
| Next                               (* the generator is resumed *)
| Subscribed                         (* the SUBSCRIBE reply arrives *)
| Inbound (message_data : string)    (* [pubsub.listen()] yields a message *)
| Tick                               (* [asyncio.sleep(10)] returns *)
| TimedOut                            (* [asyncio.sleep(630)] returns *)
| Throw (c : Cause)                  (* raised at the suspension point *)
| ResumeListener                     (* the loop resumes [message_listener] *)
| ResumeHeartbeat                    (* the loop resumes [heartbeat_sender] *)
| ResumeTimeout.                     (* the loop resumes [timeout_trigger] *)

Definition put (item : string) (s : t) : t :=
  mk (code s) (conn s) (gen s) (listener_task s) (heartbeat_task s)
     (timeout_task s) (queue s ++ [item]) (sent s) (pubsub_cleaned_up s)
     (redis s).

Definition step (e : Event) (s : t) : t :=
  match e, gen s with
  | Next, Created =>
      mk (code s) (conn s) Subscribing (listener_task s) (heartbeat_task s)
         (timeout_task s) (queue s) (sent s) (pubsub_cleaned_up s) (redis s)
  | Subscribed, Subscribing =>
      (* lines 81-120: subscribed, queue and tasks created, waiting *)
      mk (code s) (conn s) Streaming Waiting Waiting Waiting [] (sent s)
         false (Redis.subscribe (conn s) (code s) (redis s))
  | Next, Streaming => queue_get s
  | Next, Yielded item =>
      (* lines 127-128 *)
      if contains "heartbeat" item then queue_get s
      else event_generator_finally s
  | Inbound message_data, _ =>
      match listener_task s with
      | Waiting =>
          (* lines 89-91: the frame is queued and the listener returns *)
          let s := put (message_frame message_data) s in
          mk (code s) (conn s) (gen s) Finished (heartbeat_task s)
             (timeout_task s) (queue s) (sent s) (pubsub_cleaned_up s)
             (redis s)
      | _ => s
      end
  | Tick, _ =>
      match heartbeat_task s with
      | Waiting => put heartbeat_frame s
      | _ => s
      end
  | TimedOut, _ =>
      match timeout_task s with
      | Waiting =>
          let s := put TIMEOUT s in
          mk (code s) (conn s) (gen s) (listener_task s) (heartbeat_task s)
             Finished (queue s) (sent s) (pubsub_cleaned_up s) (redis s)
      | _ => s
      end
  | Throw _, (Streaming | Yielded _) => event_generator_finally s
  | Throw _, (Created | Subscribing) =>
      (* nothing encloses the suspension point: the generator just ends *)
      mk (code s) (conn s) Closed (listener_task s) (heartbeat_task s)
         (timeout_task s) (queue s) (sent s) (pubsub_cleaned_up s) (redis s)
  | ResumeListener, _ =>
      match listener_task s with
      | CancelRequested =>
          (* lines 92-94 *)
          mk (code s) (conn s) (gen s) Finished (heartbeat_task s)
             (timeout_task s) (queue s) (sent s) true
             (Redis.unsubscribe (conn s) (redis s))
      | _ => s
      end
  | ResumeHeartbeat, _ =>
      match heartbeat_task s with
      | CancelRequested =>
          mk (code s) (conn s) (gen s) (listener_task s) Finished
             (timeout_task s) (queue s) (sent s) (pubsub_cleaned_up s)
             (redis s)
      | _ => s
      end
  | ResumeTimeout, _ =>
      match timeout_task s with
      | CancelRequested =>
          mk (code s) (conn s) (gen s) (listener_task s) (heartbeat_task s)
             Finished (queue s) (sent s) (pubsub_cleaned_up s) (redis s)
      | _ => s
      end
  | _, _ => s
  end.

Definition run (trace : list Event) (s : t) : t :=
  foldl (λ s e, step e s) s trace.

End CodeStream.

(** ** [get_unique_activation_code] between its awaits

    The handler awaits every Redis command.  While one request waits for a
    reply the event loop runs other requests, so the commands of two
    requests can alternate.  Here every command is a step of its own. *)

Module Issuance.
Import CodeRouter.

(** Where a request stands. *)
Inductive Pc :=
| Start                        (* before [await redis.exists(...)], line 28 *)
| Seeding                      (* before [await redis.set(...)], line 30 *)
| Incrementing                 (* before [await redis.incr(...)], line 31 *)
| Reseeding                    (* before [await redis.set(...)], line 34 *)
| Reincrementing               (* before [await redis.incr(...)], line 37 *)
| Returned (unique_code : Z).  (* line 39 *)

(** A request, with the two values [random.randint] holds ready for it. *)
Record Request := {
  pc : Pc;
  seed_value : Z;
  reseed_value : Z;
}.

Definition request (seed_value reseed_value : Z) : Request :=
  {| pc := Start; seed_value := seed_value; reseed_value := reseed_value |}.

Definition at_pc (pc : Pc) (r : Request) : Request :=
  {| pc := pc; seed_value := seed_value r; reseed_value := reseed_value r |}.

(** One Redis command of one request. *)
Definition step (r : Request) (redis : Redis.t) : Request * Redis.t :=
  match pc r with
  | Start =>
      if bool_decide (Redis.exists_ activation_code_counter redis = 0)
      then (at_pc Seeding r, redis)
      else (at_pc Incrementing r, redis)
  | Seeding =>
      (at_pc Incrementing r,
       Redis.set activation_code_counter (seed_value r) redis)
  | Incrementing =>
      let '(unique_code, redis) := Redis.incr activation_code_counter redis in
      if bool_decide (unique_code >= 999_999_999)
      then (at_pc Reseeding r, redis)
      else (at_pc (Returned unique_code) r, redis)
  | Reseeding =>
      (at_pc Reincrementing r,
       Redis.set activation_code_counter (reseed_value r) redis)
  | Reincrementing =>
      let '(unique_code, redis) := Redis.incr activation_code_counter redis in
      (at_pc (Returned unique_code) r, redis)
  | Returned _ => (r, redis)
  end.

(** A request served without interruption: its at most five commands. *)
Definition serve (r : Request) (redis : Redis.t) : Request * Redis.t :=
  let '(r, redis) := step r redis in
  let '(r, redis) := step r redis in
  let '(r, redis) := step r redis in
  let '(r, redis) := step r redis in
  step r redis.

(** The requests in flight, by number, and Redis. *)
Record Server := {
  requests : list Request;
  redis : Redis.t;
}.

(** The event loop lets request number [i] run its next command. *)
Definition resume (i : nat) (s : Server) : Server :=
  match requests s !! i with
  | Some r =>
      let '(r, redis) := step r (redis s) in
      {| requests := <[i := r]> (requests s); redis := redis |}
  | None => s
  end.

Definition run (schedule : list nat) (s : Server) : Server :=
  foldl (λ s i, resume i s) s schedule.



End Issuance.

(** ** Vocabulary for the properties of [create_setup] *)

Module SetupChecks.

Section WithClock.
Variable strptime : string → option Z.

(** A playlist has at least one image or video, and its start time is
    before its end time. *)
Definition accepted (playlist_data : PlaylistInput.t) : Prop :=
  (PlaylistInput.images playlist_data ≠ []
   ∨ PlaylistInput.videos playlist_data ≠ [])
  ∧ ∃ start_time end_time,
      strptime (PlaylistInput.start_time playlist_data) = Some start_time
      ∧ strptime (PlaylistInput.end_time playlist_data) = Some end_time
      ∧ start_time < end_time.

(** [p] has ended when [q] starts. *)
Definition before (p q : PlaylistInput.t) : Prop :=
  ∃ p_end q_start,
    strptime (PlaylistInput.end_time p) = Some p_end
    ∧ strptime (PlaylistInput.start_time q) = Some q_start
    ∧ p_end ≤ q_start.

End WithClock.

(** Two states of the store with the same device and setup tables. *)
Definition same_devices_and_setups (session session' : Db.t) : Prop :=
  Db.devices session' = Db.devices session
  ∧ Db.next_device_id session' = Db.next_device_id session
  ∧ Db.setups session' = Db.setups session
  ∧ Db.next_setup_id session' = Db.next_setup_id session.

End SetupChecks.

(** ** Vocabulary for the properties of the code stream *)

Module CodeStreamFacts.
Import CodeStream.

(** A frame the listener has built from a message. *)
Definition is_message (f : string) : Prop :=
  ∃ message_data, f = message_frame message_data.

(** The same, told by the first line of the frame. *)
Definition message_line (f : string) : bool :=
  String.prefix "event: message" f.

Definition messages (l : list string) : nat :=
  length (List.filter message_line l).

Definition has_heartbeat (f : string) : Prop := contains "heartbeat" f = true.

(** What holds of every state the generator reaches.  Before the [try]
    there are no tasks and nothing is queued or sent.  Only heartbeats and
    message frames are sent; the queue may also hold ["TIMEOUT"].  The
    listener queues at most one message, and none unless it has returned.
    Every frame sent before the last one contains ["heartbeat"], and when
    the loop is waiting at [queue.get()] the last one does too. *)
Definition well_formed (s : t) : Prop :=
  (gen s = Created ∨ gen s = Subscribing →
   listener_task s = NotCreated ∧ heartbeat_task s = NotCreated
   ∧ timeout_task s = NotCreated ∧ queue s = [] ∧ sent s = [])
  ∧ Forall (λ f, f = heartbeat_frame ∨ is_message f) (sent s)
  ∧ Forall (λ f, f = heartbeat_frame ∨ f = TIMEOUT ∨ is_message f) (queue s)
  ∧ (messages (sent s ++ queue s) ≤ 1)%nat
  ∧ (listener_task s ≠ Finished → messages (sent s ++ queue s) = 0%nat)
  ∧ match gen s with
    | Yielded item =>
        ∃ init, sent s = init ++ [item] ∧ Forall has_heartbeat init
    | Closed =>
        ∃ init tail,
          sent s = init ++ tail ∧ Forall has_heartbeat init
          ∧ (length tail ≤ 1)%nat
    | _ => Forall has_heartbeat (sent s)
    end.

(** The subscription of the generator's connection, [subscribers] being
    the other connections subscribed to the code: it is held from the
    SUBSCRIBE reply until the [finally] block has run. *)
Definition subscription (subscribers : gset nat) (s : t) : Prop :=
  match gen s with
  | Created | Subscribing =>
      listener_task s = NotCreated
      ∧ Redis.subscribers (code s) (redis s) = subscribers
  | Streaming | Yielded _ =>
      listener_task s ≠ CancelRequested
      ∧ pubsub_cleaned_up s = false
      ∧ Redis.subscribers (code s) (redis s) = {[conn s]} ∪ subscribers
  | Closed => Redis.subscribers (code s) (redis s) = subscribers
  end.

End CodeStreamFacts.

(** ** Vocabulary for the properties of a device session *)

Module DeviceSessionFacts.
Import DeviceRouter DeviceSession.

(** The frame an event puts on the queue of a streaming session. *)
Definition enqueued (e : Event) : list Frame :=
  match e with
  | Inbound message_data =>
      [{| event := "message"; data := Payload message_data |}]
  | Tick => [heartbeat_frame]
  | _ => []
  end.

Definition is_throw (e : Event) : bool :=
  match e with
  | Throw _ _ => true
  | _ => false
  end.

(** The subscription of the session's connection to the instruction
    channel of its device, [subscribers] being the other connections
    subscribed to it: it is held from the SUBSCRIBE reply until the
    cancelled listener has been resumed. *)
Definition subscription (subscribers : gset nat) (s : t) : Prop :=
  (gen s = Created ∨ gen s = Subscribing → listener_task s = NotCreated)
  ∧ (gen s = Streaming → listener_task s = Waiting)
  ∧ (gen s = Closed → listener_task s ≠ Waiting)
  ∧ Redis.subscribers (instructions_channel (Device.id (device s))) (redis s)
    = match listener_task s with
      | Waiting | CancelRequested => {[conn s]} ∪ subscribers
      | NotCreated | Finished => subscribers
      end.

(** The last-seen time the store holds for the device of the session. *)
Definition stored_last_seen (s : t) : option Z :=
  Device.last_seen <$> Db.device_by_id (Device.id (device s)) (session s).

End DeviceSessionFacts.

(** * Properties *)

(** ** Queries on the store *)

Lemma find_is_Some {A} (f : A → bool) (l : list A) (x : A) :
  x ∈ l → f x = true → is_Some (List.find f l).
Proof.
  induction 1 as [x l|x y l _ IH]; intros Hx; simpl.
  - rewrite Hx. eauto.
  - destruct (f y); eauto.
Qed.

Lemma find_Some_elem {A} (f : A → bool) (l : list A) (x : A) :
  List.find f l = Some x → x ∈ l ∧ f x = true.
Proof.
  intros H. apply find_some in H as [Hin Hf].
  split; [by apply list_elem_of_In|done].
Qed.

Lemma find_None_elem {A} (f : A → bool) (l : list A) :
  (∀ x, x ∈ l → f x = false) → List.find f l = None.
Proof.
  induction l as [|y l IH]; intros H; simpl; [done|].
  rewrite (H y) by left. apply IH. intros x Hx. apply H. by right.
Qed.

Lemma device_by_id_id i db d :
  Db.device_by_id i db = Some d → d ∈ Db.devices db ∧ Device.id d = i.
Proof.
  intros H. apply find_Some_elem in H as [Hin Hf].
  by apply bool_decide_eq_true in Hf.
Qed.

(** ** Activation of an awaiting client *)

Section create_device.
Import DeviceRouter.

Lemma device_by_name_taken n session :
  name_taken n session → is_Some (Db.device_by_name n session).
Proof.
  intros (d & Hd & Hn). apply (find_is_Some _ _ d); [done|].
  by apply bool_decide_eq_true.
Qed.

Lemma device_by_name_free n session :
  ¬ name_taken n session → Db.device_by_name n session = None.
Proof.
  intros Hfree. apply find_None_elem. intros d Hd.
  apply bool_decide_eq_false. intros Hn. apply Hfree. by exists d.
Qed.

(** The loop leaves with the first token that no device row carries. *)
Lemma generate_api_key_loop_first_free rejected api_key rest session :
  Forall (λ k, api_key_taken k session) rejected →
  ¬ api_key_taken api_key session →
  generate_api_key_loop (rejected ++ api_key :: rest) session = Some api_key.
Proof.
  intros Hrej Hfree. induction Hrej as [|k rejected (d & Hd & Hk) _ IH]; simpl.
  - unfold Db.device_by_api_key. rewrite find_None_elem; [done|].
    intros d Hd. apply bool_decide_eq_false. intros Hk.
    apply Hfree. by exists d.
  - destruct (find_is_Some (λ d, bool_decide (Device.api_key d = k))
                (Db.devices session) d) as [d' Hd']; [done| |].
    + by apply bool_decide_eq_true.
    + unfold Db.device_by_api_key. by rewrite Hd'.
Qed.

End create_device.

(** C1.  A registration request against a code whose channel has no
    subscriber when the request is processed fails with 404, [No Client
    awaiting with the following pin: <code>], and leaves both the store and
    Redis as they were: no device row is created and nothing is published,
    whatever the name and whatever tokens the key generator holds. *)
Theorem create_device_no_client_awaiting
    (data : DeviceInput) (now : Z) (tokens : list string)
    (redis : Redis.t) (session : Db.t) :
  Redis.pubsub_numsub (DeviceRouter.code_channel (di_code data)) redis = 0 →
  DeviceRouter.create_device data now tokens redis session
  = Some (Raise (HTTPException 404
                   ("No Client awaiting with the following pin: "
                    +:+ pretty (di_code data))),
          redis, session).
Proof.
  intros Hnone. unfold DeviceRouter.create_device.
  rewrite bool_decide_eq_true_2 by done. reflexivity.
Qed.

Lemma create_device_no_client_awaiting_witness :
  DeviceRouter.create_device
    {| di_name := "Lobby-1"; di_location := "hall"; di_setup_id := None;
       di_code := 123456789 |} 10 [] Redis.empty Db.empty
  = Some (Raise (HTTPException 404
                   "No Client awaiting with the following pin: 123456789"),
          Redis.empty, Db.empty).
Proof.
  apply (create_device_no_client_awaiting
           {| di_name := "Lobby-1"; di_location := "hall"; di_setup_id := None;
              di_code := 123456789 |} 10 [] Redis.empty Db.empty).
  vm_compute. reflexivity.
Defined.

(** C2.  A registration request against a code with at least one subscriber:
    if a device row already carries the requested name, it fails with 409 and
    changes nothing; otherwise, when the key generator returns tokens that
    device rows already carry and then one that none carries, the handler
    returns the new device, exactly one row is appended to the device table,
    with the requested name and that token as API key, and exactly one
    message, [{"name": <name>, "api_key": <token>}], is appended to what has
    been published, on the channel named by the decimal text of the code,
    the channel whose subscribers the request counted. *)
Theorem create_device_registers
    (data : DeviceInput) (now : Z) (tokens : list string)
    (redis : Redis.t) (session : Db.t) :
  Redis.pubsub_numsub (pretty (di_code data)) redis ≠ 0 →
  (DeviceRouter.name_taken (di_name data) session →
     DeviceRouter.create_device data now tokens redis session
     = Some (Raise (HTTPException 409
                      ("Device name " +:+ di_name data +:+ " already exsist.")),
             redis, session))
  ∧ (¬ DeviceRouter.name_taken (di_name data) session →
     ∀ (rejected : list string) (api_key : string) (rest : list string),
       tokens = rejected ++ api_key :: rest →
       Forall (λ k, DeviceRouter.api_key_taken k session) rejected →
       ¬ DeviceRouter.api_key_taken api_key session →
       ∃ new_device redis' session',
         DeviceRouter.create_device data now tokens redis session
         = Some (Ok new_device, redis', session')
         ∧ Device.name new_device = di_name data
         ∧ Device.api_key new_device = api_key
         ∧ Db.devices session' = Db.devices session ++ [new_device]
         ∧ Redis.published redis'
           = Redis.published redis
             ++ [(pretty (di_code data),
                  JObj [("name", JStr (di_name data));
                        ("api_key", JStr api_key)])]
         ∧ Redis.channels redis' = Redis.channels redis).
Proof.
  intros Hsub. unfold DeviceRouter.create_device, DeviceRouter.code_channel.
  rewrite bool_decide_eq_false_2 by done. split.
  - intros Htaken. apply device_by_name_taken in Htaken as [d ->]. reflexivity.
  - intros Hfree rejected api_key rest -> Hrej Hkey.
    rewrite device_by_name_free by done.
    rewrite generate_api_key_loop_first_free by done. simpl.
    eexists _, _, _. split; [reflexivity|]. simpl. done.
Qed.

Lemma create_device_registers_witness :
  let data := {| di_name := "Lobby-1"; di_location := "hall";
                 di_setup_id := None; di_code := 123456789 |} in
  let redis := Redis.subscribe 7 "123456789" Redis.empty in
  let session := (Db.add_device "Hall" "west" 5 "k1" Db.empty).2 in
  ∃ new_device redis' session',
    DeviceRouter.create_device data 10 ["k1"; "k2"] redis session
    = Some (Ok new_device, redis', session')
    ∧ Device.name new_device = "Lobby-1"
    ∧ Device.api_key new_device = "k2"
    ∧ Db.devices session' = Db.devices session ++ [new_device]
    ∧ Redis.published redis'
      = [("123456789", JObj [("name", JStr "Lobby-1"); ("api_key", JStr "k2")])]
    ∧ Redis.channels redis' = Redis.channels redis.
Proof.
  intros data redis session.
  assert (Hsub : Redis.pubsub_numsub (pretty (di_code data)) redis ≠ 0)
    by (vm_compute; discriminate).
  destruct (create_device_registers data 10 ["k1"; "k2"] redis session Hsub)
    as [_ Hnew].
  apply (Hnew) with (rejected := ["k1"]) (rest := []).
  - intros (d & Hd & Hn). apply list_elem_of_singleton in Hd. by subst d.
  - reflexivity.
  - constructor; [|constructor]. eexists. split; [by left|reflexivity].
  - intros (d & Hd & Hn). apply list_elem_of_singleton in Hd. by subst d.
Defined.

(** ** Snapshot instruction *)

Lemma device_by_id_exists i session :
  DeviceRouter.device_exists i session →
  ∃ d, Db.device_by_id i session = Some d ∧ Device.id d = i.
Proof.
  intros (d & Hd & Hi).
  destruct (find_is_Some (λ d, bool_decide (Device.id d = i))
              (Db.devices session) d) as [d' Hd']; [done| |].
  - by apply bool_decide_eq_true.
  - exists d'. split; [done|]. by apply device_by_id_id in Hd' as [_ ?].
Qed.

Lemma device_by_id_missing i session :
  ¬ DeviceRouter.device_exists i session → Db.device_by_id i session = None.
Proof.
  intros Hmiss. apply find_None_elem. intros d Hd.
  apply bool_decide_eq_false. intros Hi. apply Hmiss. by exists d.
Qed.



(** ** The presence registry *)

Lemma sadd_member key member redis :
  member ∈ Redis.smembers key redis →
  Redis.sets (Redis.sadd key member redis) = Redis.sets redis.
Proof.
  unfold Redis.sadd, Redis.smembers. intros Hin. simpl.
  destruct (Redis.sets redis !! key) as [s|] eqn:Hkey; simpl in *.
  - apply insert_id. rewrite Hkey. f_equal.
    symmetry. apply subseteq_union_1_L. by apply singleton_subseteq_l.
  - by apply elem_of_empty in Hin.
Qed.

Lemma srem_not_member key member redis :
  member ∉ Redis.smembers key redis →
  Redis.sets (Redis.srem key member redis) = Redis.sets redis.
Proof.
  unfold Redis.smembers. intros Hout. simpl.
  apply map_eq. intros k. rewrite lookup_alter.
  case_decide as Hk; [subst k|done].
  destruct (Redis.sets redis !! key) as [s|] eqn:Hkey; simpl in *; [|done].
  f_equal. apply difference_disjoint_L. by apply disjoint_singleton_r.
Qed.

Lemma smembers_sadd key member redis :
  Redis.smembers key (Redis.sadd key member redis)
  = {[member]} ∪ Redis.smembers key redis.
Proof. unfold Redis.smembers at 1. simpl. by rewrite lookup_insert_eq. Qed.

Lemma filter_eq_not_elem {A} `{EqDecision A} (x : A) (l : list A) :
  x ∉ l → filter (λ y, y = x) l = [].
Proof.
  induction l as [|y l IH]; intros Hx; [done|].
  rewrite filter_cons. case_decide as Hy.
  - subst y. exfalso. apply Hx. by left.
  - apply IH. intros Hin. apply Hx. by right.
Qed.

Lemma filter_eq_NoDup {A} `{EqDecision A} (x : A) (l : list A) :
  NoDup l →
  (length (filter (λ y, y = x) l) ≤ 1)%nat
  ∧ (x ∈ l → length (filter (λ y, y = x) l) = 1%nat).
Proof.
  induction 1 as [|y l Hy _ [IHle IHin]]; [split; [simpl; lia|by inversion 1]|].
  rewrite filter_cons. case_decide as Hyx.
  - subst y.
    rewrite filter_eq_not_elem by done. split; done.
  - split; [done|]. intros Hin. apply IHin.
    apply elem_of_cons in Hin as [->|]; done.
Qed.

Lemma attach_all_online devices now redis session d :
  d ∈ devices →
  pretty (Device.id d)
  ∈ Redis.smembers DeviceRouter.online_devices
      (DeviceSession.attach_all devices now redis session).1.
Proof.
  unfold DeviceSession.attach_all.
  revert redis session.
  induction devices as [|d' devices IH] using rev_ind; intros redis session Hd;
    [by apply elem_of_nil in Hd|].
  rewrite foldl_snoc. simpl. rewrite smembers_sadd.
  apply elem_of_app in Hd as [Hd|Hd].
  - apply elem_of_union_r.
    specialize (IH redis session Hd). simpl in IH.
    unfold Redis.smembers in *. simpl. done.
  - apply list_elem_of_singleton in Hd as ->. simpl.
    apply elem_of_union_l. by apply elem_of_singleton.
Qed.

(** C6.  On the online set, the handler that marks a device online changes
    nothing when the device is already a member, and the listener's
    cancellation branch, which marks it offline, changes nothing when the
    device is not a member.  However many devices attach one after the
    other, the set lists at most one entry for any device id, and exactly
    one for each device that attached. *)
Theorem presence_registry_idempotent :
  (∀ device now conn redis session,
     pretty (Device.id device)
       ∈ Redis.smembers DeviceRouter.online_devices redis →
     Redis.sets (DeviceSession.redis
                   (DeviceSession.get_current_device_instructions
                      device now conn redis session))
     = Redis.sets redis)
  ∧ (∀ s,
       pretty (Device.id (DeviceSession.device s))
         ∉ Redis.smembers DeviceRouter.online_devices (DeviceSession.redis s) →
       Redis.sets (DeviceSession.redis (DeviceSession.message_listener_cancelled s))
       = Redis.sets (DeviceSession.redis s))
  ∧ (∀ devices now redis session device_id,
       let redis' := (DeviceSession.attach_all devices now redis session).1 in
       (length (DeviceSession.online_entries device_id redis') ≤ 1)%nat
       ∧ (device_id ∈ Device.id <$> devices →
          length (DeviceSession.online_entries device_id redis') = 1%nat)).
Proof.
  split; [|split].
  - intros device now conn redis session Hin. simpl.
    rewrite <- (sadd_member DeviceRouter.online_devices
                  (pretty (Device.id device)) redis Hin) at 2.
    reflexivity.
  - intros s Hout. simpl.
    rewrite <- (srem_not_member DeviceRouter.online_devices
                  (pretty (Device.id (DeviceSession.device s)))
                  (DeviceSession.redis s) Hout) at 2.
    reflexivity.
  - intros devices now redis session device_id redis'.
    unfold DeviceSession.online_entries.
    destruct (filter_eq_NoDup (pretty device_id)
                (elements (Redis.smembers DeviceRouter.online_devices redis')))
      as [Hle Hone]; [apply NoDup_elements|].
    split; [done|]. intros Hin. apply Hone.
    apply list_elem_of_fmap in Hin as (d & -> & Hd).
    apply elem_of_elements. by apply attach_all_online.
Qed.

Lemma presence_registry_idempotent_witness :
  let device := Device.mk 4 "Lobby-1" "hall" None 0 "k4" in
  let session := Db.empty in
  let s := DeviceSession.get_current_device_instructions device 10 1
             Redis.empty session in
  Redis.sets (DeviceSession.redis
                (DeviceSession.get_current_device_instructions device 20 2
                   (DeviceSession.redis s) session))
  = Redis.sets (DeviceSession.redis s)
  ∧ length (DeviceSession.online_entries 4
              (DeviceSession.attach_all [device; device] 10 Redis.empty
                 session).1) = 1%nat.
Proof.
  intros device session s.
  destruct presence_registry_idempotent as (Hon & _ & Hone).
  split.
  - apply Hon. apply (bool_decide_unpack _). vm_compute. exact I.
  - apply Hone. apply (bool_decide_unpack _). vm_compute. exact I.
Defined.

(** ** Cleanup of a device session *)

Section device_session.
Import DeviceSession.

Lemma run_app trace1 trace2 (s : DeviceSession.t) :
  run (trace1 ++ trace2) s = run trace2 (run trace1 s).
Proof. apply foldl_app. Qed.

Lemma attached_initial device now conn redis session :
  attached (get_current_device_instructions device now conn redis session).
Proof. by split. Qed.

Ltac session_cbn :=
  cbn [gen listener_task heartbeat_task cleanup_log queue] in *.

Ltac session_step :=
  unfold step, event_generator_finally, message_listener_cancelled, put,
    cancel in *;
  session_cbn;
  repeat (match goal with
          | |- context [match ?x with _ => _ end] => is_var x; destruct x
          | H : context [match ?x with _ => _ end] |- _ =>
              is_var x; destruct x
          end; session_cbn).

Lemma step_attached e s :
  attached s → gen (step e s) ≠ Closed → attached (step e s).
Proof.
  unfold attached.
  destruct s as [d c g l h q snt lg r db]. session_cbn.
  destruct e, g; intros H Hopen; destruct_and?; subst;
    session_step; done.
Qed.

Lemma smembers_srem key member redis :
  Redis.smembers key (Redis.srem key member redis)
  = Redis.smembers key redis ∖ {[member]}.
Proof.
  unfold Redis.smembers, Redis.srem. cbn [Redis.sets].
  rewrite lookup_alter, decide_True by done.
  destruct (Redis.sets redis !! key); simpl; [done|].
  symmetry. apply empty_difference_L.
Qed.

Lemma message_listener_cancelled_offline s :
  offline (message_listener_cancelled s).
Proof.
  unfold offline, message_listener_cancelled. cbn [device redis]. split.
  - unfold Redis.smembers at 1. cbn [Redis.unsubscribe Redis.publish Redis.sets].
    fold (Redis.smembers DeviceRouter.online_devices
            (Redis.srem DeviceRouter.online_devices
               (pretty (Device.id (device s))) (redis s))).
    rewrite smembers_srem, elem_of_difference, elem_of_singleton. tauto.
  - cbn [Redis.unsubscribe Redis.publish Redis.published].
    apply last_snoc.
Qed.

Lemma step_streamed e s : streamed s → streamed (step e s).
Proof.
  unfold streamed.
  intros [(Hg & Hl & Hlog)|[(Hg & Hl & Hlog)|(Hg & Hl & Hlog & Hoff)]].
  - destruct s as [d c g l h q snt lg r db]. session_cbn. subst.
    destruct e; session_step; auto 10.
  - destruct e as [| |m| |c now| |].
    6: { right; right. unfold step. rewrite Hl.
         split; [done|]. split; [done|]. split.
         - unfold message_listener_cancelled. session_cbn. by rewrite Hlog.
         - apply message_listener_cancelled_offline. }
    all: destruct s as [d c' g l h q snt lg r db]; session_cbn; subst;
      session_step; auto 10.
  - right; right.
    destruct s as [d c g l h q snt lg r db]. unfold offline in *.
    cbn [gen listener_task heartbeat_task cleanup_log queue device redis] in *.
    subst. destruct e; session_step; auto.
Qed.

Lemma run_streamed trace s : streamed s → streamed (run trace s).
Proof.
  revert s. induction trace as [|e trace IH]; intros s Hs; [done|].
  simpl. apply IH. by apply step_streamed.
Qed.

Lemma step_skipped e s : skipped s → skipped (step e s).
Proof.
  unfold skipped.
  destruct s as [d c g l h q snt lg r db]. session_cbn.
  intros (-> & -> & ->). destruct e; session_step; auto.
Qed.

Lemma run_skipped trace s : skipped s → skipped (run trace s).
Proof.
  revert s. induction trace as [|e trace IH]; intros s Hs; [done|].
  simpl. apply IH. by apply step_skipped.
Qed.

Lemma step_closes e s :
  attached s → gen s ≠ Closed → gen (step e s) = Closed →
  streamed (step e s) ∨ skipped (step e s).
Proof.
  unfold attached, streamed, skipped.
  destruct s as [d c g l h q snt lg r db]. session_cbn.
  destruct e, g; intros H Hopen Hclosed; destruct_and?; subst;
    session_step; try done; auto 10.
Qed.

(** Every state a session reaches is before the [try], past it, or
    ended without having entered it. *)
Lemma run_reachable trace s :
  attached s → gen s ≠ Closed →
  (attached (run trace s) ∧ gen (run trace s) ≠ Closed)
  ∨ streamed (run trace s) ∨ skipped (run trace s).
Proof.
  revert s. induction trace as [|e trace IH]; intros s Hs Hopen;
    [left; done|].
  simpl. destruct (decide (gen (step e s) = Closed)) as [Hclosed|Hstill].
  - right. destruct (step_closes e s Hs Hopen Hclosed) as [H|H].
    + left. by apply run_streamed.
    + right. by apply run_skipped.
  - apply IH; [by apply step_attached|done].
Qed.

Lemma streamed_of_attached s :
  attached s → gen s = Streaming → streamed s.
Proof. unfold attached, streamed. intros H Hg. rewrite Hg in H. auto. Qed.

(** A streaming session into which something is thrown ends as soon as its
    two cancelled tasks have been resumed. *)
Lemma streaming_terminates c now s :
  gen s = Streaming → listener_task s = Waiting →
  terminated (run [Throw c now; ResumeHeartbeat; ResumeListener] s).
Proof.
  unfold terminated, run.
  destruct s as [d cn g l h q snt lg r db]. session_cbn. intros -> ->.
  cbn [foldl]. destruct h; session_step; done.
Qed.

End device_session.

Lemma times_cleanup_log (s : DeviceSession.t) :
  DeviceSession.cleanup_log s
  = [DeviceSession.PersistLastSeen; DeviceSession.MarkOffline;
     DeviceSession.PublishOffline; DeviceSession.Unsubscribe] →
  DeviceSession.cleanup_exactly_once s.
Proof.
  intros Hlog c. unfold DeviceSession.times. rewrite Hlog.
  destruct c; reflexivity.
Qed.

Lemma times_at_most_once (s : DeviceSession.t) (c : DeviceSession.Cleanup) :
  DeviceSession.streamed s ∨ DeviceSession.cleanup_log s = [] →
  (DeviceSession.times c s ≤ 1)%nat.
Proof.
  unfold DeviceSession.times, DeviceSession.streamed.
  intros [[(_ & _ & ->)|[(_ & _ & ->)|(_ & _ & -> & _)]]| ->];
    destruct c; vm_compute; lia.
Qed.

(** C7.  The code at the failing input.  The handler has put the device
    into the online set before the generator runs, and the generator awaits
    the SUBSCRIBE reply before it enters its [try], where its cleanup lives.
    A session that ends there, by client disconnect, or before the response
    has asked the generator for anything, by cancellation, has terminated
    with every cleanup step run zero times: the subscription is not
    released by the listener, the device stays in the online set, no
    offline event is published and the last-seen time is not persisted. *)
Lemma device_session_cleanup_skipped :
  let device := Device.mk 4 "Lobby-1" "hall" None 0 "k4" in
  let session := (Db.add_device "Lobby-1" "hall" 0 "k4" Db.empty).2 in
  let s0 := DeviceSession.get_current_device_instructions device 10 1
              Redis.empty session in
  let s := DeviceSession.run
             [DeviceSession.Next;
              DeviceSession.Throw ClientDisconnect 20;
              DeviceSession.ResumeListener; DeviceSession.ResumeHeartbeat] s0 in
  let s' := DeviceSession.run
              [DeviceSession.Throw Cancellation 20;
               DeviceSession.ResumeListener; DeviceSession.ResumeHeartbeat] s0 in
  (DeviceSession.terminated s
   ∧ (∀ c, DeviceSession.times c s = 0%nat)
   ∧ DeviceSession.online_entries 4 (DeviceSession.redis s) = ["4"]
   ∧ ¬ DeviceSession.cleanup_exactly_once s)
  ∧ (DeviceSession.terminated s'
     ∧ (∀ c, DeviceSession.times c s' = 0%nat)
     ∧ DeviceSession.online_entries 4 (DeviceSession.redis s') = ["4"]
     ∧ ¬ DeviceSession.cleanup_exactly_once s').
Proof.
  intros device session s0 s s'. split.
  - split; [|split; [|split]].
    + vm_compute. split; [reflexivity|split; discriminate].
    + intros c. destruct c; vm_compute; reflexivity.
    + vm_compute. reflexivity.
    + intros Honce. specialize (Honce DeviceSession.MarkOffline).
      vm_compute in Honce. discriminate.
  - split; [|split; [|split]].
    + vm_compute. split; [reflexivity|split; discriminate].
    + intros c. destruct c; vm_compute; reflexivity.
    + vm_compute. reflexivity.
    + intros Honce. specialize (Honce DeviceSession.MarkOffline).
      vm_compute in Honce. discriminate.
Qed.

(** X23.  No cleanup step ever runs twice.  When the generator of a
    device session has entered its [try] block (it streams) and the session
    then ends, by client disconnect or by cancellation, thrown once or
    several times, with the cancelled tasks resumed, each cleanup step has
    run exactly once: last-seen persisted by the [finally] block, then,
    by the listener's cancellation branch, the device removed from the
    online set, the offline event published and the subscription
    released.  A streaming session does end that way: one throw, and the
    two tasks resumed. *)
Theorem device_session_cleanup_once
    (device : Device.t) (now : Z) (conn : nat) (redis : Redis.t)
    (session : Db.t) :
  let s0 := DeviceSession.get_current_device_instructions device now conn
              redis session in
  (∀ trace c, (DeviceSession.times c (DeviceSession.run trace s0) ≤ 1)%nat)
  ∧ (∀ trace1 trace2,
       DeviceSession.gen (DeviceSession.run trace1 s0) = DeviceSession.Streaming →
       DeviceSession.terminated (DeviceSession.run (trace1 ++ trace2) s0) →
       DeviceSession.cleanup_log (DeviceSession.run (trace1 ++ trace2) s0)
       = [DeviceSession.PersistLastSeen; DeviceSession.MarkOffline;
          DeviceSession.PublishOffline; DeviceSession.Unsubscribe]
       ∧ DeviceSession.cleanup_exactly_once
           (DeviceSession.run (trace1 ++ trace2) s0)
       ∧ DeviceSession.offline (DeviceSession.run (trace1 ++ trace2) s0))
  ∧ (∀ trace1 c now',
       DeviceSession.gen (DeviceSession.run trace1 s0) = DeviceSession.Streaming →
       DeviceSession.terminated
         (DeviceSession.run
            (trace1 ++ [DeviceSession.Throw c now';
                        DeviceSession.ResumeHeartbeat;
                        DeviceSession.ResumeListener]) s0)).
Proof.
  intros s0.
  assert (Hs0 : DeviceSession.attached s0) by apply attached_initial.
  assert (Hopen : DeviceSession.gen s0 ≠ DeviceSession.Closed) by done.
  assert (Hstreamed : ∀ trace1,
    DeviceSession.gen (DeviceSession.run trace1 s0) = DeviceSession.Streaming →
    DeviceSession.streamed (DeviceSession.run trace1 s0)).
  { intros trace1 Hstreaming.
    destruct (run_reachable trace1 s0 Hs0 Hopen) as [[Hatt _]|[Hstr|Hskip]].
    - by apply streamed_of_attached.
    - done.
    - destruct Hskip as (Hg & _). congruence. }
  split; [|split].
  - intros trace c. apply times_at_most_once.
    destruct (run_reachable trace s0 Hs0 Hopen) as [[Hatt Hg]|[Hstr|Hskip]].
    + right. unfold DeviceSession.attached in Hatt.
      destruct (DeviceSession.gen (DeviceSession.run trace s0));
        [by destruct Hatt..|done].
    + by left.
    + right. by destruct Hskip as (_ & _ & ?).
  - intros trace1 trace2 Hstreaming (Hclosed & Hlistener & _).
    pose proof (Hstreamed trace1 Hstreaming) as Hstr.
    apply (run_streamed trace2) in Hstr. rewrite <- run_app in Hstr.
    destruct Hstr as [(Hg & _)|[(_ & Hl & _)|(_ & _ & Hlog & Hoff)]];
      [congruence|congruence|].
    split; [done|]. split; [by apply times_cleanup_log|done].
  - intros trace1 c now' Hstreaming. rewrite run_app.
    apply streaming_terminates; [done|].
    destruct (Hstreamed trace1 Hstreaming)
      as [(_ & Hl & _)|[(Hg & _)|(Hg & _)]]; [done|congruence..].
Qed.

Lemma device_session_cleanup_once_witness :
  let device := Device.mk 4 "Lobby-1" "hall" None 0 "k4" in
  let session := (Db.add_device "Lobby-1" "hall" 0 "k4" Db.empty).2 in
  let s0 := DeviceSession.get_current_device_instructions device 10 1
              Redis.empty session in
  let trace1 := [DeviceSession.Next; DeviceSession.Subscribed;
                 DeviceSession.Tick] in
  let trace2 := [DeviceSession.Throw ClientDisconnect 20;
                 DeviceSession.Throw Cancellation 21;
                 DeviceSession.ResumeHeartbeat;
                 DeviceSession.ResumeListener] in
  DeviceSession.cleanup_exactly_once (DeviceSession.run (trace1 ++ trace2) s0).
Proof.
  intros device session s0 trace1 trace2.
  destruct (device_session_cleanup_once device 10 1 Redis.empty session)
    as (_ & Honce & _).
  apply (Honce trace1 trace2).
  - vm_compute. reflexivity.
  - vm_compute. split; [reflexivity|split; discriminate].
Defined.

(** ** The status stream *)

Section status_stream.
Import StatusStream.

Ltac status_cbn :=
  cbn [gen listener_task heartbeat_task queue sent redis] in *.

Ltac status_step :=
  unfold step, put, cancel in *;
  status_cbn;
  repeat (match goal with
          | |- context [match ?x with _ => _ end] => is_var x; destruct x
          | H : context [match ?x with _ => _ end] |- _ =>
              is_var x; destruct x
          end; status_cbn).

Lemma from_queue_update j :
  from_queue {| event := "update"; data := Payload j |}.
Proof. left. by exists j. Qed.

Lemma from_queue_heartbeat : from_queue heartbeat_frame.
Proof. by right. Qed.

Lemma step_well_formed e s : well_formed s → well_formed (step e s).
Proof.
  unfold well_formed.
  destruct s as [c g l h q snt r]. status_cbn. intros [Hq Hg].
  destruct e, g; status_step; subst;
    repeat match goal with
           | H : Forall _ (_ :: _) |- _ => apply Forall_cons in H as [? ?]
           end;
    split; try done;
    try (apply Forall_app; split; [done|]; apply Forall_singleton);
    auto using from_queue_update, from_queue_heartbeat.
  all: by destruct snt.
Qed.

(** What one step does to the frames sent so far. *)
Lemma step_sent e s :
  well_formed s →
  sent (step e s) = sent s
  ∨ (e = SmembersReply ∧ sent s = []
     ∧ sent (step e s) = [init_response (redis s)])
  ∨ (∃ item, from_queue item ∧ sent s ≠ []
     ∧ sent (step e s) = sent s ++ [item]).
Proof.
  unfold well_formed.
  destruct s as [c g l h q snt r]. status_cbn. intros [Hq Hg].
  destruct e, g; status_step; subst; auto.
  right; right. apply Forall_cons in Hq as [? ?]. eauto.
Qed.

Lemma run_snoc trace e (s : StatusStream.t) :
  run (trace ++ [e]) s = step e (run trace s).
Proof. unfold run. by rewrite foldl_snoc. Qed.

Lemma run_well_formed trace s : well_formed s → well_formed (run trace s).
Proof.
  intros Hs. induction trace as [|e trace IH] using rev_ind; [done|].
  rewrite run_snoc. by apply step_well_formed.
Qed.

End status_stream.

(** C9.  Whatever happens to an observer's stream, the frames it has sent
    are either none, or start with the snapshot frame, a [message] frame
    whose data are the members of the Redis set [online_devices] as Redis
    had it when the SMEMBERS reply was produced, and go on with frames taken
    from the queue only (presence updates and heartbeats): the snapshot is
    sent once, and before every update.  The
    snapshot is sent: once the subscription is made the generator waits for
    the SMEMBERS reply, and with the reply it yields the snapshot as its
    first frame, whatever has been queued meanwhile. *)
Theorem status_stream_snapshot_first (conn : nat) (redis0 : Redis.t) :
  let s0 := StatusStream.get_all_devices_status conn redis0 in
  (∀ trace,
     StatusStream.sent (StatusStream.run trace s0) = []
     ∨ ∃ before after rest,
         trace = before ++ StatusStream.SmembersReply :: after
         ∧ StatusStream.sent (StatusStream.run trace s0)
           = {| event := "message";
                data := Members
                          (Redis.smembers "online_devices"
                             (StatusStream.redis
                                (StatusStream.run before s0))) |} :: rest
         ∧ Forall StatusStream.from_queue rest
         ∧ ¬ StatusStream.is_update
               {| event := "message";
                  data := Members
                            (Redis.smembers "online_devices"
                               (StatusStream.redis
                                  (StatusStream.run before s0))) |})
  ∧ (∀ before,
       StatusStream.gen (StatusStream.run before s0) = StatusStream.Snapshotting →
       StatusStream.sent
         (StatusStream.run (before ++ [StatusStream.SmembersReply]) s0)
       = [{| event := "message";
             data := Members
                       (Redis.smembers "online_devices"
                          (StatusStream.redis
                             (StatusStream.run before s0))) |}])
  ∧ StatusStream.gen
      (StatusStream.run [StatusStream.Next; StatusStream.Subscribed] s0)
    = StatusStream.Snapshotting.
Proof.
  intros s0.
  assert (Hs0 : StatusStream.well_formed s0) by (split; [constructor|done]).
  split; [|split; [|reflexivity]].
  - intros trace.
    induction trace as [|e trace IH] using rev_ind; [by left|].
    rewrite run_snoc.
    pose proof (run_well_formed trace s0 Hs0) as Hwf.
    destruct (step_sent e _ Hwf)
      as [Hsame|[(-> & Hnil & Hinit)|(item & Hitem & Hne & Hput)]].
    + rewrite Hsame.
      destruct IH as [IH|(before & after & rest & Htrace & IH)];
        [by left|right].
      exists before, (after ++ [e]), rest. split; [|done].
      by rewrite Htrace, <- app_assoc.
    + right. exists trace, [], []. rewrite Hinit.
      repeat split; [constructor|].
      unfold StatusStream.is_update. simpl. discriminate.
    + right.
      destruct IH
        as [IH|(before & after & rest & Htrace & Hsent & Hrest & Hupd)];
        [done|].
      exists before, (after ++ [e]), (rest ++ [item]). rewrite Hput, Hsent.
      repeat split; [by rewrite Htrace, <- app_assoc|..|done].
      apply Forall_app. split; [done|by apply Forall_singleton].
  - intros before Hgen. rewrite run_snoc.
    destruct (run_well_formed before s0 Hs0) as [_ Hsent].
    rewrite Hgen in Hsent. unfold StatusStream.step. rewrite Hgen.
    cbn [StatusStream.sent]. by rewrite Hsent.
Qed.

Lemma status_stream_snapshot_first_witness :
  let s0 := StatusStream.get_all_devices_status 1
              (Redis.sadd DeviceRouter.online_devices "4" Redis.empty) in
  let before := [StatusStream.Next; StatusStream.Subscribed;
                 StatusStream.Inbound (DeviceRouter.status_message 7 "online");
                 StatusStream.Presence true "7"] in
  StatusStream.sent
    (StatusStream.run (before ++ [StatusStream.SmembersReply]) s0)
  = [{| event := "message"; data := Members {["7"; "4"]} |}].
Proof.
  intros s0 before.
  destruct (status_stream_snapshot_first 1
              (Redis.sadd DeviceRouter.online_devices "4" Redis.empty))
    as (_ & Hfirst & _).
  etrans; [apply (Hfirst before); vm_compute; reflexivity|].
  vm_compute. reflexivity.
Defined.

Example status_stream_late_observer :
  let s := StatusStream.run
             [StatusStream.Next; StatusStream.Subscribed;
              StatusStream.Inbound (DeviceRouter.status_message 7 "online");
              StatusStream.Presence true "7"; StatusStream.SmembersReply;
              StatusStream.Next; StatusStream.Next]
             (StatusStream.get_all_devices_status 1
                (Redis.sadd DeviceRouter.online_devices "4" Redis.empty)) in
  StatusStream.sent s
  = [{| event := "message"; data := Members {["7"; "4"]} |};
     {| event := "update";
        data := Payload (DeviceRouter.status_message 7 "online") |}].
Proof. vm_compute. reflexivity. Qed.

(** ** Activation codes *)

Section activation_code.
Import CodeRouter.

Lemma counter_set v redis :
  counter (Redis.set activation_code_counter v redis) = Some v.
Proof. unfold counter, Redis.set. cbn [Redis.kv]. apply lookup_insert_eq. Qed.

Lemma incr_counter redis :
  Redis.incr activation_code_counter redis
  = (default 0 (counter redis) + 1,
     Redis.set activation_code_counter (default 0 (counter redis) + 1) redis).
Proof. reflexivity. Qed.

(** The first increment starts from the seed when there is no counter. *)
Lemma first_incr_value seed_value redis :
  (first_incr seed_value redis).1 = default seed_value (counter redis) + 1
  ∧ counter (first_incr seed_value redis).2
    = Some (default seed_value (counter redis) + 1).
Proof.
  unfold first_incr, Redis.exists_. fold (counter redis).
  destruct (counter redis) as [c|] eqn:Hc.
  - rewrite bool_decide_eq_false_2 by done.
    rewrite incr_counter, Hc. cbn [fst snd default from_option id].
    split; [done|apply counter_set].
  - rewrite bool_decide_eq_true_2 by done.
    rewrite incr_counter, counter_set. cbn [fst snd default from_option id].
    split; [done|apply counter_set].
Qed.

(** The two ways an issuance can go. *)
Lemma get_unique_activation_code_cases seed_value reseed_value redis :
  let c0 := default seed_value (counter redis) in
  let result := get_unique_activation_code seed_value reseed_value redis in
  (c0 + 1 < 999_999_999 →
     result.1 = c0 + 1 ∧ counter result.2 = Some (c0 + 1))
  ∧ (999_999_999 ≤ c0 + 1 →
     result.1 = reseed_value + 1
     ∧ counter result.2 = Some (reseed_value + 1)).
Proof.
  intros c0 result. subst result. unfold get_unique_activation_code.
  destruct (first_incr_value seed_value redis) as [Hv Hc].
  destruct (first_incr seed_value redis) as [unique_code redis1].
  cbn [fst snd] in *. fold c0 in Hv, Hc. subst unique_code. split; intros Hlt.
  - rewrite bool_decide_eq_false_2 by lia. done.
  - rewrite bool_decide_eq_true_2 by lia.
    rewrite incr_counter, counter_set. cbn [fst snd default from_option id].
    split; [done|apply counter_set].
Qed.

Lemma code_is_counter seed_value reseed_value redis :
  counter (get_unique_activation_code seed_value reseed_value redis).2
  = Some (get_unique_activation_code seed_value reseed_value redis).1.
Proof.
  destruct (get_unique_activation_code_cases seed_value reseed_value redis)
    as [Hlow Hhigh].
  destruct (Z.lt_ge_cases (default seed_value (counter redis) + 1)
              999_999_999) as [H|H].
  - destruct (Hlow H) as [-> ->]. done.
  - destruct (Hhigh H) as [-> ->]. done.
Qed.

Lemma redis_before_succ draws redis0 n :
  redis_before draws redis0 (N.succ n)
  = (get_unique_activation_code (draws n).1 (draws n).2
       (redis_before draws redis0 n)).2.
Proof. unfold redis_before. by rewrite N.peano_rect_succ. Qed.

Lemma counter_before_succ draws redis0 n :
  counter (redis_before draws redis0 (N.succ n))
  = Some (code_at draws redis0 n).
Proof. rewrite redis_before_succ. apply code_is_counter. Qed.

Lemma incremented_at_succ draws redis0 n :
  incremented_at draws redis0 (N.succ n) = code_at draws redis0 n + 1.
Proof.
  unfold incremented_at.
  destruct (first_incr_value (draws (N.succ n)).1
              (redis_before draws redis0 (N.succ n))) as [-> _].
  by rewrite counter_before_succ.
Qed.

Lemma resets_at_incremented draws redis0 n :
  resets_at draws redis0 n
  = bool_decide (incremented_at draws redis0 n >= 999_999_999).
Proof. reflexivity. Qed.

(** Without a reset, an issuance returns the previous code plus one. *)
Lemma code_at_succ_no_reset draws redis0 n :
  resets_at draws redis0 (N.succ n) = false →
  code_at draws redis0 (N.succ n) = code_at draws redis0 n + 1.
Proof.
  rewrite resets_at_incremented, incremented_at_succ.
  intros Hno. apply bool_decide_eq_false in Hno.
  unfold code_at at 1.
  destruct (get_unique_activation_code_cases (draws (N.succ n)).1
              (draws (N.succ n)).2 (redis_before draws redis0 (N.succ n)))
    as [Hlow _].
  rewrite counter_before_succ in Hlow. cbn [default from_option id] in Hlow.
  destruct Hlow as [-> _]; [lia|done].
Qed.




End activation_code.

Lemma code_at_advance draws redis0 i d :
  CodeRouter.code_at draws redis0 i + Z.of_N d < 999_999_999 →
  CodeRouter.code_at draws redis0 (i + d)
  = CodeRouter.code_at draws redis0 i + Z.of_N d.
Proof.
  induction d as [|d IH] using N.peano_ind; intros Hlt.
  - rewrite N.add_0_r. simpl. lia.
  - rewrite N.add_succ_r, code_at_succ_no_reset, IH; [lia|lia|].
    rewrite resets_at_incremented, incremented_at_succ, IH by lia.
    apply bool_decide_eq_false. lia.
Qed.

Lemma code_at_succ_reset draws redis0 n :
  999_999_999 ≤ CodeRouter.code_at draws redis0 n + 1 →
  CodeRouter.code_at draws redis0 (N.succ n) = (draws (N.succ n)).2 + 1.
Proof.
  intros Hhigh. unfold CodeRouter.code_at at 1.
  destruct (get_unique_activation_code_cases (draws (N.succ n)).1
              (draws (N.succ n)).2
              (CodeRouter.redis_before draws redis0 (N.succ n)))
    as [_ Hreset].
  rewrite counter_before_succ in Hreset. cbn [default from_option id] in Hreset.
  by destruct (Hreset Hhigh) as [-> _].
Qed.




(** The distance of 99_999_998 is reached.  The seed drawn at a reset does
    not depend on the codes issued before: with the seed 900_000_000 drawn
    twice, the first code of a fresh counter comes back 99_999_998 issuances
    later, after the counter has run up to the threshold. *)
Example activation_code_reissued_after_wraparound :
  let draws := λ _ : N, (900_000_000, 900_000_000) in
  CodeRouter.code_at draws Redis.empty 0 = 900_000_001
  ∧ CodeRouter.code_at draws Redis.empty 99_999_997 = 999_999_998
  ∧ CodeRouter.code_at draws Redis.empty 99_999_998 = 900_000_001.
Proof.
  intros draws.
  assert (H0 : CodeRouter.code_at draws Redis.empty 0 = 900_000_001)
    by (vm_compute; reflexivity).
  assert (H1 : CodeRouter.code_at draws Redis.empty 99_999_997 = 999_999_998).
  { change 99_999_997%N with (0 + 99_999_997)%N.
    rewrite code_at_advance; rewrite H0; [reflexivity|lia]. }
  split; [exact H0|]. split; [exact H1|].
  change 99_999_998%N with (N.succ 99_999_997).
  rewrite code_at_succ_reset; [reflexivity|]. rewrite H1. lia.
Qed.

(** Served without interruption, a request does what the handler as one
    step does. *)
Lemma serve_get_unique_activation_code seed_value reseed_value redis :
  Issuance.serve (Issuance.request seed_value reseed_value) redis
  = (Issuance.at_pc
       (Issuance.Returned
          (CodeRouter.get_unique_activation_code seed_value reseed_value
             redis).1)
       (Issuance.request seed_value reseed_value),
     (CodeRouter.get_unique_activation_code seed_value reseed_value redis).2).
Proof.
  unfold Issuance.serve, CodeRouter.get_unique_activation_code,
    CodeRouter.first_incr.
  unfold Issuance.step at 1. cbn [Issuance.pc Issuance.request].
  case_bool_decide as Hexists.
  - unfold Issuance.step at 1. cbn [Issuance.pc Issuance.at_pc].
    unfold Issuance.step at 1. cbn [Issuance.pc Issuance.at_pc].
    destruct (Redis.incr CodeRouter.activation_code_counter _)
      as [unique_code redis1].
    case_bool_decide as Hreset.
    + unfold Issuance.step at 1. cbn [Issuance.pc Issuance.at_pc].
      unfold Issuance.step. cbn [Issuance.pc Issuance.at_pc
        Issuance.seed_value Issuance.reseed_value Issuance.request].
      by destruct (Redis.incr CodeRouter.activation_code_counter _).
    + unfold Issuance.step. cbn [Issuance.pc Issuance.at_pc]. done.
  - unfold Issuance.step at 1. cbn [Issuance.pc Issuance.at_pc].
    destruct (Redis.incr CodeRouter.activation_code_counter redis)
      as [unique_code redis1].
    case_bool_decide as Hreset.
    + unfold Issuance.step at 1. cbn [Issuance.pc Issuance.at_pc].
      unfold Issuance.step at 1. cbn [Issuance.pc Issuance.at_pc
        Issuance.seed_value Issuance.reseed_value Issuance.request].
      destruct (Redis.incr CodeRouter.activation_code_counter _)
        as [unique_code' redis2].
      unfold Issuance.step. cbn [Issuance.pc Issuance.at_pc]. done.
    + unfold Issuance.step. cbn [Issuance.pc Issuance.at_pc]. done.
Qed.


(** C4, the claim as it stands, fails on the interval and on the threshold:
    [random.randint] may return 900_000_000, which lies outside the
    half-open interval, and then a fresh counter yields a code that the
    algorithm as specified cannot yield; and a counter standing at
    999_999_998 is re-seeded although its incremented value, 999_999_999,
    has not gone past 999_999_999. *)
Lemma activation_code_seed_and_threshold :
  CodeRouter.randint 100_000_000 900_000_000 900_000_000
  ∧ ¬ CodeRouter.spec_seed 900_000_000
  ∧ (CodeRouter.get_unique_activation_code 900_000_000 900_000_000
       Redis.empty).1 = 900_000_001
  ∧ (∀ seed_value reseed_value,
       CodeRouter.spec_seed seed_value →
       (CodeRouter.spec_get_unique_activation_code seed_value reseed_value
          Redis.empty).1 ≠ 900_000_001)
  ∧ (let redis := Redis.set CodeRouter.activation_code_counter 999_999_998
                    Redis.empty in
     (CodeRouter.get_unique_activation_code 500_000_000 500_000_000 redis).1
     = 500_000_001
     ∧ (CodeRouter.spec_get_unique_activation_code 500_000_000 500_000_000
          redis).1 = 999_999_999).
Proof.
  split; [unfold CodeRouter.randint; lia|].
  split; [unfold CodeRouter.spec_seed; lia|].
  split; [vm_compute; reflexivity|].
  split; [|split; vm_compute; reflexivity].
  intros seed_value reseed_value Hseed.
  unfold CodeRouter.spec_get_unique_activation_code.
  destruct (first_incr_value seed_value Redis.empty) as [Hv _].
  destruct (CodeRouter.first_incr seed_value Redis.empty)
    as [unique_code redis1].
  cbn [fst] in Hv. change (CodeRouter.counter Redis.empty) with (@None Z) in Hv.
  cbn [default from_option] in Hv. subst unique_code.
  unfold CodeRouter.spec_seed in Hseed.
  rewrite bool_decide_eq_false_2 by lia. cbn [fst]. lia.
Qed.

(** C4, amended.  With both draws of [random.randint] in the closed
    interval from 100_000_000 to 900_000_000: the counter starts from the
    first draw when it does not exist; the call increments it and returns
    the incremented value while that is below 999_999_999; once the
    incremented value reaches 999_999_999, the counter is set to the second
    draw, incremented once more, and that value is returned.  The counter
    then holds the code returned.  When the counter did not exist or held a
    value from 100_000_001 to 999_999_998, the code returned lies in that
    range again, so every code of a run that starts without a counter has
    nine digits. *)
Theorem activation_code_issuance
    (seed_value reseed_value : Z) (redis : Redis.t) :
  CodeRouter.randint 100_000_000 900_000_000 seed_value →
  CodeRouter.randint 100_000_000 900_000_000 reseed_value →
  let start := default seed_value (CodeRouter.counter redis) in
  let result :=
    CodeRouter.get_unique_activation_code seed_value reseed_value redis in
  CodeRouter.counter result.2 = Some result.1
  ∧ (start + 1 < 999_999_999 → result.1 = start + 1)
  ∧ (999_999_999 ≤ start + 1 → result.1 = reseed_value + 1)
  ∧ ((∀ c, CodeRouter.counter redis = Some c →
           100_000_001 ≤ c ≤ 999_999_998) →
     100_000_001 ≤ result.1 ≤ 999_999_998
     ∧ CodeRouter.nine_digits result.1)
  ∧ (∀ draws n,
       CodeRouter.draws_in_range draws →
       CodeRouter.counter redis = None →
       CodeRouter.nine_digits (CodeRouter.code_at draws redis n)).
Proof.
  intros Hseed Hreseed start result. unfold CodeRouter.randint in *.
  destruct (get_unique_activation_code_cases seed_value reseed_value redis)
    as [Hlow Hhigh]. fold start result in Hlow, Hhigh.
  split; [apply code_is_counter|].
  split; [intros H; by destruct (Hlow H)|].
  split; [intros H; by destruct (Hhigh H)|].
  assert (Hrange : ∀ seed reseed r,
    100_000_000 ≤ seed ≤ 900_000_000 → 100_000_000 ≤ reseed ≤ 900_000_000 →
    (∀ c, CodeRouter.counter r = Some c → 100_000_001 ≤ c ≤ 999_999_998) →
    100_000_001
    ≤ (CodeRouter.get_unique_activation_code seed reseed r).1 ≤ 999_999_998).
  { intros seed reseed r Hs Hr Hinv.
    destruct (get_unique_activation_code_cases seed reseed r) as [Hl Hh].
    assert (100_000_000 ≤ default seed (CodeRouter.counter r) ≤ 999_999_998).
    { destruct (CodeRouter.counter r) as [c|]; cbn [default from_option id].
      - specialize (Hinv c eq_refl). lia.
      - lia. }
    destruct (Z.lt_ge_cases (default seed (CodeRouter.counter r) + 1)
                999_999_999) as [H'|H'].
    - destruct (Hl H') as [-> _]. lia.
    - destruct (Hh H') as [-> _]. lia. }
  split.
  - intros Hinv. pose proof (Hrange _ _ _ Hseed Hreseed Hinv) as H.
    split; [done|]. unfold CodeRouter.nine_digits. fold result in H. lia.
  - intros draws n Hdraws Hnone.
    assert (Hall : ∀ m,
      (∀ c, CodeRouter.counter (CodeRouter.redis_before draws redis m) = Some c
            → 100_000_001 ≤ c ≤ 999_999_998)).
    { induction m as [|m IH] using N.peano_ind.
      - intros c Hc. change (CodeRouter.redis_before draws redis 0) with redis in Hc.
        congruence.
      - intros c. rewrite counter_before_succ. intros [= <-].
        destruct (Hdraws m) as [Hd1 Hd2]. by apply Hrange. }
    unfold CodeRouter.nine_digits.
    destruct (Hdraws n) as [Hd1 Hd2].
    pose proof (Hrange (draws n).1 (draws n).2
                  (CodeRouter.redis_before draws redis n) Hd1 Hd2 (Hall n))
      as Hcode.
    unfold CodeRouter.code_at. lia.
Qed.

Lemma activation_code_issuance_witness :
  let result :=
    CodeRouter.get_unique_activation_code 900_000_000 100_000_000
      (Redis.set CodeRouter.activation_code_counter 999_999_998 Redis.empty) in
  CodeRouter.counter result.2 = Some result.1
  ∧ result.1 = 100_000_001
  ∧ CodeRouter.nine_digits result.1.
Proof.
  intros result.
  destruct (activation_code_issuance 900_000_000 100_000_000
              (Redis.set CodeRouter.activation_code_counter 999_999_998
                 Redis.empty))
    as (Hcounter & _ & Hreset & Hdigits & _).
  - unfold CodeRouter.randint. lia.
  - unfold CodeRouter.randint. lia.
  - split; [done|]. split.
    + apply Hreset. vm_compute. discriminate.
    + apply Hdigits. intros c Hc. vm_compute in Hc.
      injection Hc as <-. lia.
Defined.

(** ** The code-status stream *)

Section code_stream.
Import CodeRouter.

Lemma subscribers_subscribe conn channel channel' redis :
  Redis.subscribers channel' (Redis.subscribe conn channel redis)
  = if decide (channel = channel')
    then {[conn]} ∪ Redis.subscribers channel redis
    else Redis.subscribers channel' redis.
Proof.
  unfold Redis.subscribers at 1, Redis.subscribe. cbn [Redis.channels].
  rewrite lookup_insert. by case_decide.
Qed.

Lemma subscribers_unsubscribe_from conn channel channel' redis :
  Redis.subscribers channel' (Redis.unsubscribe_from conn channel redis)
  ⊆ Redis.subscribers channel' redis.
Proof.
  unfold Redis.subscribers, Redis.unsubscribe_from. cbn [Redis.channels].
  rewrite lookup_alter. case_decide as Hc; [subst channel'|done].
  destruct (Redis.channels redis !! channel) as [subs|]; simpl; [|done].
  apply subseteq_difference_l. done.
Qed.

Lemma numsub_zero channel redis :
  Redis.pubsub_numsub channel redis = 0 →
  Redis.subscribers channel redis = ∅.
Proof.
  unfold Redis.pubsub_numsub. intros H.
  apply leibniz_equiv, size_empty_iff. lia.
Qed.

Lemma rejected_unchanged code s :
  Redis.pubsub_numsub code (redis s) ≠ 0 →
  redis (step (Request code) s) = redis s
  ∧ responses (step (Request code) s) = responses s
  ∧ streams (step (Request code) s) = streams s.
Proof.
  intros Hbusy. unfold step, get_device_status_by_code.
  rewrite bool_decide_eq_true_2 by done. done.
Qed.

Lemma serial_step_invariant op s :
  serial_invariant s → serial_invariant (serial_step op s).
Proof.
  intros [Hresp Hone]. destruct op as [code|request]; unfold serial_step.
  - destruct (decide (Redis.pubsub_numsub code (redis s) = 0)) as [Hfree|Hbusy].
    + unfold step at 2, get_device_status_by_code.
      rewrite bool_decide_eq_false_2 by (intros H; done).
      unfold step. cbn [responses redis streams next_request].
      rewrite lookup_insert_eq. cbv iota. split; cbn [responses redis].
      * intros request. rewrite lookup_delete, lookup_insert.
        repeat case_decide; done.
      * intros code'. unfold Redis.pubsub_numsub.
        rewrite subscribers_subscribe. case_decide as Hc.
        -- rewrite numsub_zero by done.
           rewrite (right_id_L ∅ (∪)), size_singleton. lia.
        -- apply Hone.
    + destruct (rejected_unchanged code s Hbusy) as (Hr & Hp & _).
      unfold step at 1.
      assert (responses (step (Request code) s) !! next_request s = None)
        as -> by (rewrite Hp; apply Hresp).
      split; [intros request; rewrite Hp; apply Hresp|by rewrite Hr].
  - unfold step. destruct (streams s !! request) as [code|]; [|done].
    split; [done|]. cbn [redis]. intros code'. unfold Redis.pubsub_numsub.
    pose proof (subseteq_size _ _
                  (subscribers_unsubscribe_from request code code' (redis s))).
    specialize (Hone code'). unfold Redis.pubsub_numsub in Hone. lia.
Qed.

End code_stream.

(** C5, the claim as it stands, fails: the handler reads the subscriber
    count, but the subscription is made later, by the generator.  Two
    requests for one code whose handlers both run before either generator
    starts are both accepted, and the channel ends up with two
    subscribers. *)
Lemma code_stream_two_subscribers :
  let accepted := CodeRouter.run
                    [CodeRouter.Request "123456789";
                     CodeRouter.Request "123456789"]
                    (CodeRouter.boot Redis.empty) in
  let s := CodeRouter.run [CodeRouter.Start 0; CodeRouter.Start 1] accepted in
  CodeRouter.responses accepted !! 0%nat = Some "123456789"
  ∧ CodeRouter.responses accepted !! 1%nat = Some "123456789"
  ∧ Redis.pubsub_numsub "123456789" (CodeRouter.redis s) = 2
  ∧ ¬ CodeRouter.at_most_one_subscriber (CodeRouter.redis s).
Proof.
  intros accepted s.
  assert (H2 : Redis.pubsub_numsub "123456789" (CodeRouter.redis s) = 2)
    by (vm_compute; reflexivity).
  split; [vm_compute; reflexivity|]. split; [vm_compute; reflexivity|].
  split; [done|]. intros Hone. specialize (Hone "123456789"). lia.
Qed.

(** C5, amended.  A request to open the code-status stream for a code whose
    channel has a non-zero subscriber count when the handler reads it is
    rejected with 400 before any subscription is made: Redis is unchanged
    and no response, hence no generator, exists for it.  When requests are
    served one after the other, each generator subscribing before the next
    handler runs, no channel ever has more than one subscriber. *)
Theorem code_stream_single_subscriber :
  (∀ code s,
     Redis.pubsub_numsub code (CodeRouter.redis s) ≠ 0 →
     CodeRouter.get_device_status_by_code code (CodeRouter.redis s)
     = Raise (HTTPException 400
                "Code is not available pelas request another one")
     ∧ CodeRouter.redis (CodeRouter.step (CodeRouter.Request code) s)
       = CodeRouter.redis s
     ∧ CodeRouter.responses (CodeRouter.step (CodeRouter.Request code) s)
       = CodeRouter.responses s)
  ∧ (∀ ops redis0,
       CodeRouter.at_most_one_subscriber redis0 →
       CodeRouter.at_most_one_subscriber
         (CodeRouter.redis
            (CodeRouter.run_serial ops (CodeRouter.boot redis0)))).
Proof.
  split.
  - intros code s Hbusy. split.
    + unfold CodeRouter.get_device_status_by_code.
      by rewrite bool_decide_eq_true_2.
    + by destruct (rejected_unchanged code s Hbusy) as (? & ? & _).
  - intros ops redis0 Hone.
    assert (Hinv : CodeRouter.serial_invariant (CodeRouter.boot redis0)) by (by split).
    revert Hinv. generalize (CodeRouter.boot redis0).
    induction ops as [|op ops IH]; intros s Hinv; [by destruct Hinv|].
    simpl. apply IH. by apply serial_step_invariant.
Qed.

Lemma code_stream_single_subscriber_witness :
  let s := CodeRouter.run_serial
             [CodeRouter.Open "123456789"; CodeRouter.Open "123456789"]
             (CodeRouter.boot Redis.empty) in
  CodeRouter.get_device_status_by_code "123456789" (CodeRouter.redis s)
  = Raise (HTTPException 400 "Code is not available pelas request another one")
  ∧ CodeRouter.at_most_one_subscriber (CodeRouter.redis s).
Proof.
  intros s. destruct code_stream_single_subscriber as [Hreject Hserial].
  split.
  - apply Hreject. vm_compute. discriminate.
  - apply Hserial. intros code. vm_compute. discriminate.
Defined.

(** ** Notification after [create_setup] *)

Lemma string_app_length (s t : string) :
  String.length (s +:+ t) = (String.length s + String.length t)%nat.
Proof. induction s as [|a s IH]; simpl; [done|by rewrite IH]. Qed.

Lemma string_app_inj_r (t s1 s2 : string) : s1 +:+ t = s2 +:+ t → s1 = s2.
Proof.
  revert s2. induction s1 as [|a s1 IH]; intros [|b s2] H.
  - done.
  - apply (f_equal String.length) in H.
    rewrite !string_app_length in H. simpl in H. lia.
  - apply (f_equal String.length) in H.
    rewrite !string_app_length in H. simpl in H. lia.
  - simpl in H. injection H as -> H. f_equal. by apply IH.
Qed.

Lemma instructions_channel_inj (a b : Z) :
  DeviceRouter.instructions_channel a = DeviceRouter.instructions_channel b →
  a = b.
Proof.
  unfold DeviceRouter.instructions_channel. intros H.
  apply (inj (String.app "device:")) in H.
  apply string_app_inj_r in H. by apply (inj pretty) in H.
Qed.

Section create_setup.
Import SetupRouter.

(** After the linking loop the local variable [device] is the row of the
    last listed id; with no id listed it is as it was. *)
Lemma link_devices_last setup_id devices session0 device0 session1 device1 :
  for_each (link_device setup_id) devices (session0, device0)
  = Ok (session1, device1) →
  match last devices with
  | None => device1 = device0
  | Some last_id => ∃ d, device1 = Some d ∧ Device.id d = last_id
  end.
Proof.
  revert session0 device0.
  induction devices as [|device_id devices IH]; intros session0 device0 Hloop.
  - cbn [for_each] in Hloop. by injection Hloop as _ <-.
  - cbn [for_each] in Hloop.
    destruct (link_device setup_id device_id (session0, device0))
      as [[session0' device0']|e] eqn:Hstep;
      cbn [mbind result_bind Http.bind] in Hloop; [|discriminate].
    unfold link_device in Hstep. cbn [fst] in Hstep.
    destruct (Db.device_by_id device_id session0) as [d|] eqn:Hd;
      [|discriminate].
    injection Hstep as <- <-.
    apply IH in Hloop. rewrite last_cons.
    destruct (last devices) as [last_id|]; [done|].
    subst device1. eexists. split; [done|].
    apply device_by_id_id in Hd as [_ Hid]. done.
Qed.

(** The notification loop publishes one message per listed id, each on
    the channel of the one device it was handed. *)
Lemma notify_published d devices redis :
  ∃ redis',
    notify (Some d) devices redis = (Ok (), redis')
    ∧ Redis.published redis'
      = Redis.published redis
        ++ replicate (length devices)
             (DeviceRouter.instructions_channel (Device.id d),
              update_setup_payload).
Proof.
  revert redis. induction devices as [|device_id devices IH]; intros redis.
  - exists redis. split; [done|]. simpl. by rewrite app_nil_r.
  - cbn [notify].
    destruct (IH (Redis.publish
                    (DeviceRouter.instructions_channel (Device.id d))
                    update_setup_payload redis)) as (redis' & Hn & Hp).
    exists redis'. split; [done|]. rewrite Hp.
    cbn [Redis.publish Redis.published length replicate].
    by rewrite <- app_assoc.
Qed.

Lemma published_on_app channel redis redis' extra :
  Redis.published redis' = Redis.published redis ++ extra →
  Forall (λ p, p.1 ≠ channel) extra →
  Redis.published_on channel redis' = Redis.published_on channel redis.
Proof.
  intros Hp Hextra. unfold Redis.published_on. rewrite Hp, filter_app.
  assert (filter (λ p : string * Json, p.1 = channel) extra = []) as ->.
  { clear Hp. induction Hextra as [|p extra Hne _ IH]; [done|].
    rewrite filter_cons. by case_decide. }
  by rewrite app_nil_r.
Qed.

(** The rows are written by the linking loop last. *)
Lemma create_setup_rows_link strptime data session new_setup device session' :
  create_setup_rows strptime data session = Ok (new_setup, device, session') →
  ∃ session0,
    for_each (link_device (Setup.id new_setup)) (si_devices data)
      (session0, None)
    = Ok (session', device).
Proof.
  unfold create_setup_rows. intros Hrows.
  destruct (for_each (check_day strptime (si_playlists data)) days ())
    as [[]|e]; [|discriminate].
  cbn [mbind result_bind Http.bind] in Hrows.
  unfold Db.add_setup in Hrows.
  match type of Hrows with
  | context [for_each (add_playlist strptime ?i) ?l ?s] =>
      destruct (for_each (add_playlist strptime i) l s) as [session0|e]
  end; [|discriminate].
  cbn [mbind result_bind Http.bind] in Hrows.
  match type of Hrows with
  | context [for_each (link_device ?i) ?l ?s] =>
      destruct (for_each (link_device i) l s) as [[session1 device1]|e] eqn:Hl
  end; [|discriminate].
  cbn [mbind result_bind Http.bind] in Hrows.
  injection Hrows as <- <- <-. cbn [Setup.id]. by exists session0.
Qed.

End create_setup.

(** C10.  When a setup-creation request succeeds, one [update_setup]
    instruction has been published for every listed device id, and all of
    them on the instruction channel of the last listed id, the device the
    linking loop bound last; the instruction channel of any other device
    has received nothing.  With no device listed nothing is published. *)
Theorem create_setup_notifies_last_linked
    (strptime : string → option Z) (data : SetupInput)
    (redis : Redis.t) (session : Db.t)
    (output : SetupOutput) (redis' : Redis.t) (session' : Db.t) :
  SetupRouter.create_setup strptime data redis session
  = (Ok output, redis', session') →
  match last (si_devices data) with
  | None =>
      si_devices data = [] ∧ Redis.published redis' = Redis.published redis
  | Some last_id =>
      Redis.published redis'
      = Redis.published redis
        ++ replicate (length (si_devices data))
             (DeviceRouter.instructions_channel last_id,
              JObj [("instruction", JStr "update_setup")])
      ∧ ∀ device_id,
          device_id ≠ last_id →
          Redis.published_on (DeviceRouter.instructions_channel device_id)
            redis'
          = Redis.published_on (DeviceRouter.instructions_channel device_id)
              redis
  end.
Proof.
  unfold SetupRouter.create_setup. intros Hcreate.
  destruct (Db.setup_by_name (si_name data) session); [discriminate|].
  destruct (bool_decide _); [discriminate|].
  destruct (SetupRouter.create_setup_rows strptime data session)
    as [[[new_setup device] session1]|e] eqn:Hrows; [|discriminate].
  apply create_setup_rows_link in Hrows as (session0 & Hlink).
  apply link_devices_last in Hlink.
  destruct (last (si_devices data)) as [last_id|] eqn:Hlast.
  - destruct Hlink as (d & -> & <-).
    destruct (notify_published d (si_devices data) redis) as (r & Hn & Hp).
    rewrite Hn in Hcreate. injection Hcreate as _ <- _.
    split; [done|]. intros device_id Hne.
    apply (published_on_app _ _ _ _ Hp), Forall_replicate.
    simpl. intros Heq. apply Hne. symmetry. by apply instructions_channel_inj.
  - apply last_None in Hlast. rewrite Hlast in *. simpl in Hcreate.
    injection Hcreate as _ <- _. done.
Qed.

Lemma create_setup_notifies_last_linked_witness :
  let session :=
    (Db.add_device "Door" "east" 0 "k2"
       (Db.add_device "Hall" "west" 0 "k1" Db.empty).2).2 in
  let playlist :=
    PlaylistInput.mk "morning" "09:00" "12:00" true true true true true
      false false [{| ib_url := "https://s/a.png"; ib_duration := 5 |}] [] in
  let data := {| si_name := "Lobby"; si_playlists := [playlist];
                 si_devices := [1; 2] |} in
  let result :=
    SetupRouter.create_setup SetupRouter.strptime_hm data Redis.empty session in
  Http.is_ok result.1.1 = true
  ∧ Redis.published result.1.2
    = [("device:2:instructions", JObj [("instruction", JStr "update_setup")]);
       ("device:2:instructions", JObj [("instruction", JStr "update_setup")])]
  ∧ Redis.published_on (DeviceRouter.instructions_channel 1) result.1.2 = [].
Proof.
  intros session playlist data result.
  destruct result as [[[output|e] redis'] session'] eqn:Hresult;
    [|vm_compute in Hresult; discriminate].
  destruct (create_setup_notifies_last_linked SetupRouter.strptime_hm data
              Redis.empty session output redis' session' Hresult)
    as [Hpublished Hothers].
  split; [reflexivity|]. split; [exact Hpublished|].
  apply (Hothers 1). discriminate.
Defined.

(** ** Registration, lookup and deletion of devices *)

Section device_admin.
Import DeviceRouter DeviceAdmin.

Lemma device_by_api_key_None k session :
  Db.device_by_api_key k session = None → ¬ api_key_taken k session.
Proof.
  intros Hnone (d & Hd & Hk).
  destruct (find_is_Some (λ d, bool_decide (Device.api_key d = k))
              (Db.devices session) d) as [d' Hd']; [done| |].
  - by apply bool_decide_eq_true.
  - unfold Db.device_by_api_key in Hnone. congruence.
Qed.

Lemma device_by_name_None n session :
  Db.device_by_name n session = None → ¬ name_taken n session.
Proof.
  intros Hnone Htaken. apply device_by_name_taken in Htaken as [d Hd].
  congruence.
Qed.

(** The key the loop leaves with is carried by no row. *)
Lemma generate_api_key_loop_free tokens session api_key :
  generate_api_key_loop tokens session = Some api_key →
  ¬ api_key_taken api_key session.
Proof.
  induction tokens as [|k tokens IH]; simpl; [done|].
  destruct (Db.device_by_api_key k session) eqn:Hk; [done|].
  intros [= <-]. by apply device_by_api_key_None.
Qed.

(** What a successful registration leaves in the store. *)
Lemma create_device_row data now tokens redis session d redis' session' :
  create_device data now tokens redis session = Some (Ok d, redis', session') →
  ¬ name_taken (Device.name d) session
  ∧ ¬ api_key_taken (Device.api_key d) session
  ∧ Device.name d = di_name data
  ∧ Device.id d = Db.next_device_id session
  ∧ Db.devices session' = Db.devices session ++ [d]
  ∧ Db.next_device_id session' = Db.next_device_id session + 1.
Proof.
  unfold create_device. case_bool_decide; [done|].
  destruct (Db.device_by_name (di_name data) session) eqn:Hname; [done|].
  destruct (generate_api_key_loop tokens session) as [api_key|] eqn:Hkey;
    [|done].
  unfold Db.add_device. intros [= <- _ <-]. cbn.
  split_and!; try done.
  - by apply device_by_name_None.
  - by eapply generate_api_key_loop_free.
Qed.

Lemma find_app_None {A} (f : A → bool) (l : list A) (x : A) :
  (∀ y, y ∈ l → f y = false) → f x = true → List.find f (l ++ [x]) = Some x.
Proof.
  induction l as [|y l IH]; intros Hl Hx; simpl.
  - by rewrite Hx.
  - rewrite (Hl y) by left. apply IH; [|done].
    intros z Hz. apply Hl. by right.
Qed.

Lemma find_unique {A B} `{EqDecision B} (key : A → B) (l : list A) (x : A) :
  NoDup (key <$> l) → x ∈ l →
  List.find (λ y, bool_decide (key y = key x)) l = Some x.
Proof.
  induction l as [|y l IH]; intros Hnd Hx; [by apply elem_of_nil in Hx|].
  rewrite fmap_cons in Hnd. apply NoDup_cons in Hnd as [Hy Hnd].
  simpl. case_bool_decide as Hk.
  - apply elem_of_cons in Hx as [->|Hx]; [done|].
    exfalso. apply Hy. rewrite Hk. by apply list_elem_of_fmap_2.
  - apply elem_of_cons in Hx as [->|Hx]; [done|]. by apply IH.
Qed.

Lemma devices_consistent_lookup session d :
  Store.devices_consistent session → d ∈ Db.devices session →
  Db.device_by_id (Device.id d) session = Some d
  ∧ Db.device_by_api_key (Device.api_key d) session = Some d
  ∧ Db.device_by_name (Device.name d) session = Some d.
Proof.
  intros (Hid & Hname & Hkey & _) Hd. split_and!.
  - by apply (find_unique Device.id).
  - by apply (find_unique Device.api_key).
  - by apply (find_unique Device.name).
Qed.

End device_admin.

(** X1.  A successful [create_device] keeps the device table within the
    constraints of the schema: primary keys stay distinct and below the next
    key, and no two devices share a name or an API key. *)
Theorem create_device_keeps_devices_consistent
    (data : DeviceInput) (now : Z) (tokens : list string)
    (redis redis' : Redis.t) (session session' : Db.t) (d : Device.t) :
  Store.devices_consistent session →
  DeviceRouter.create_device data now tokens redis session
  = Some (Ok d, redis', session') →
  Store.devices_consistent session'.
Proof.
  intros (Hid & Hname & Hkey & Hnext) Hcreate.
  apply create_device_row in Hcreate
    as (Hfree & Hkfree & _ & Hd & Hrows & Hnext').
  unfold Store.devices_consistent. rewrite Hrows, Hnext', !fmap_app.
  cbn [fmap list_fmap]. split_and!.
  - apply NoDup_app. split_and!; [done| |apply NoDup_singleton].
    intros i Hi Hi'. apply list_elem_of_singleton in Hi'. subst i.
    apply list_elem_of_fmap in Hi as (d' & Heq & Hd').
    rewrite Forall_forall in Hnext. specialize (Hnext d' Hd'). lia.
  - apply NoDup_app. split_and!; [done| |apply NoDup_singleton].
    intros n Hn Hn'. apply list_elem_of_singleton in Hn'. subst n.
    apply list_elem_of_fmap in Hn as (d' & Heq & Hd').
    apply Hfree. by exists d'.
  - apply NoDup_app. split_and!; [done| |apply NoDup_singleton].
    intros k Hk Hk'. apply list_elem_of_singleton in Hk'. subst k.
    apply list_elem_of_fmap in Hk as (d' & Heq & Hd').
    apply Hkfree. by exists d'.
  - apply Forall_app. split.
    + eapply Forall_impl; [exact Hnext|]. intros d' Hd'. simpl in Hd'. lia.
    + apply Forall_singleton. lia.
Qed.

Lemma create_device_keeps_devices_consistent_witness :
  Store.devices_consistent
    (Db.mk [Device.mk 1 "lobby" "hall" None 0 "k1";
            Device.mk 2 "cafe" "floor 1" None 7 "k2"] 3 [] 1 [] 1 [] 1 [] 1).
Proof.
  apply (create_device_keeps_devices_consistent
           {| di_name := "cafe"; di_location := "floor 1";
              di_setup_id := None; di_code := 123456789 |}
           7 ["k1"; "k2"]
           (Redis.subscribe 0 "123456789" Redis.empty)
           (Redis.publish "123456789"
              (DeviceRouter.activation_payload
                 (Device.mk 2 "cafe" "floor 1" None 7 "k2"))
              (Redis.subscribe 0 "123456789" Redis.empty))
           (Db.mk [Device.mk 1 "lobby" "hall" None 0 "k1"] 2 [] 1 [] 1 [] 1
              [] 1)
           _ (Device.mk 2 "cafe" "floor 1" None 7 "k2")).
  - unfold Store.devices_consistent.
    apply (bool_decide_unpack _). vm_compute. exact I.
  - vm_compute. reflexivity.
Defined.

(** X2.  After a successful [create_device] on a consistent device table,
    the API key handed to the client authenticates as the new device, the
    new device is found under its id and is the last entry of the device
    list, and no further registration under the same name succeeds: it is
    refused with 404 when no client waits on the code it presents and with
    409 otherwise, and changes nothing. *)
Theorem create_device_then_lookup
    (data : DeviceInput) (now : Z) (tokens : list string)
    (redis redis' : Redis.t) (session session' : Db.t) (d : Device.t) :
  Store.devices_consistent session →
  DeviceRouter.create_device data now tokens redis session
  = Some (Ok d, redis', session') →
  DeviceAdmin.get_device_from_api_key (Device.api_key d) session' = Ok d
  ∧ DeviceAdmin.get_device_info_by_api_key (Device.api_key d) session' = Ok d
  ∧ DeviceAdmin.get_device_info (Device.id d) session' = Ok d
  ∧ DeviceAdmin.get_all_devices_info session'
    = DeviceAdmin.get_all_devices_info session ++ [d]
  ∧ ∀ (data2 : DeviceInput) (now2 : Z) (tokens2 : list string)
      (redis2 : Redis.t),
      di_name data2 = di_name data →
      DeviceRouter.create_device data2 now2 tokens2 redis2 session'
      = Some (Raise
                (if bool_decide
                      (Redis.pubsub_numsub (pretty (di_code data2)) redis2 = 0)
                 then HTTPException HTTP_404_NOT_FOUND
                        ("No Client awaiting with the following pin: "
                         +:+ pretty (di_code data2))
                 else HTTPException HTTP_409_CONFLICT
                        ("Device name " +:+ di_name data
                         +:+ " already exsist.")),
              redis2, session').
Proof.
  intros (_ & _ & _ & Hnext) Hcreate.
  apply create_device_row in Hcreate
    as (Hfree & Hkfree & Hname & Hid & Hrows & _).
  assert (Hkey : Db.device_by_api_key (Device.api_key d) session' = Some d).
  { unfold Db.device_by_api_key.
    rewrite Hrows, find_app_None; [done| |by apply bool_decide_eq_true].
    intros d' Hd'. apply bool_decide_eq_false. intros Hk.
    apply Hkfree. by exists d'. }
  split_and!.
  - unfold DeviceAdmin.get_device_from_api_key. by rewrite Hkey.
  - unfold DeviceAdmin.get_device_info_by_api_key,
      DeviceAdmin.get_device_from_api_key.
    by rewrite Hkey.
  - unfold DeviceAdmin.get_device_info, Db.device_by_id.
    rewrite Hrows, find_app_None; [done| |by apply bool_decide_eq_true].
    intros d' Hd'. apply bool_decide_eq_false.
    rewrite Forall_forall in Hnext. specialize (Hnext d' Hd'). lia.
  - exact Hrows.
  - intros data2 now2 tokens2 redis2 Hsame.
    unfold DeviceRouter.create_device, DeviceRouter.code_channel.
    case_bool_decide; [done|].
    unfold Db.device_by_name.
    rewrite Hrows, find_app_None; [by rewrite Hsame| |].
    + intros d' Hd'. apply bool_decide_eq_false. intros Hn.
      apply Hfree. exists d'. split; [done|]. congruence.
    + apply bool_decide_eq_true. congruence.
Qed.

Lemma create_device_then_lookup_witness :
  let d := Device.mk 2 "cafe" "floor 1" None 7 "k2" in
  let session' :=
    Db.mk [Device.mk 1 "lobby" "hall" None 0 "k1"; d] 3 [] 1 [] 1 [] 1 [] 1 in
  DeviceAdmin.get_device_from_api_key "k2" session' = Ok d
  ∧ DeviceAdmin.get_device_info 2 session' = Ok d
  ∧ DeviceRouter.create_device
      {| di_name := "cafe"; di_location := "roof"; di_setup_id := None;
         di_code := 555555555 |} 8 ["k3"] Redis.empty session'
    = Some (Raise (HTTPException HTTP_404_NOT_FOUND
                     "No Client awaiting with the following pin: 555555555"),
            Redis.empty, session').
Proof.
  intros d session'.
  destruct (create_device_then_lookup
              {| di_name := "cafe"; di_location := "floor 1";
                 di_setup_id := None; di_code := 123456789 |}
              7 ["k1"; "k2"]
              (Redis.subscribe 0 "123456789" Redis.empty)
              (Redis.publish "123456789" (DeviceRouter.activation_payload d)
                 (Redis.subscribe 0 "123456789" Redis.empty))
              (Db.mk [Device.mk 1 "lobby" "hall" None 0 "k1"] 2 [] 1 [] 1
                 [] 1 [] 1)
              session' d) as (Hkey & _ & Hid & _ & Hagain).
  - unfold Store.devices_consistent.
    apply (bool_decide_unpack _). vm_compute. exact I.
  - vm_compute. reflexivity.
  - split; [exact Hkey|]. split; [exact Hid|].
    apply (Hagain {| di_name := "cafe"; di_location := "roof";
                     di_setup_id := None; di_code := 555555555 |}
             8 ["k3"] Redis.empty).
    reflexivity.
Defined.

(** ** Deleting a device *)

Section delete_device.
Import DeviceRouter DeviceAdmin.

Lemma delete_device_rows device session d :
  d ∈ Db.devices (Store.delete_device device session)
  ↔ d ∈ Db.devices session ∧ Device.id d ≠ Device.id device.
Proof.
  unfold Store.delete_device. cbn [Db.devices].
  rewrite list_elem_of_filter. tauto.
Qed.

Lemma find_filter_other {A} (f : A → bool) (P : A → Prop)
    `{∀ x, Decision (P x)} (l : list A) :
  (∀ x, f x = true → P x) →
  List.find f (filter P l) = List.find f l.
Proof.
  intros Hf. induction l as [|y l IH]; [done|].
  rewrite filter_cons. case_decide as Hy; simpl.
  - by rewrite IH.
  - destruct (f y) eqn:Hfy; [|done]. exfalso. by apply Hy, Hf.
Qed.

Lemma NoDup_fmap_filter {A B} (g : A → B) (P : A → Prop)
    `{∀ x, Decision (P x)} (l : list A) :
  NoDup (g <$> l) → NoDup (g <$> filter P l).
Proof.
  intros Hnd. eapply sublist_NoDup; [exact Hnd|].
  apply fmap_sublist, sublist_filter.
Qed.

Lemma NoDup_fmap_elem_inj {A B} `{EqDecision B} (key : A → B) (l : list A)
    (x y : A) :
  NoDup (key <$> l) → x ∈ l → y ∈ l → key x = key y → x = y.
Proof.
  intros Hnd Hx Hy Hk.
  pose proof (find_unique key l x Hnd Hx) as Hfx.
  pose proof (find_unique key l y Hnd Hy) as Hfy.
  rewrite Hk in Hfx. congruence.
Qed.

Lemma delete_device_consistent device session :
  Store.devices_consistent session →
  Store.devices_consistent (Store.delete_device device session).
Proof.
  intros (Hid & Hname & Hkey & Hnext). unfold Store.devices_consistent.
  unfold Store.delete_device. cbn [Db.devices Db.next_device_id].
  split_and!; try by apply NoDup_fmap_filter.
  rewrite Forall_forall in Hnext. apply Forall_forall.
  intros d Hd. apply list_elem_of_filter in Hd as [_ Hd]. by apply Hnext.
Qed.

End delete_device.

(** X3.  [delete_device] answers 404 and leaves the store alone when no
    row has the id.  Otherwise it succeeds, the device table loses exactly
    the rows with that id and every other table is as before; afterwards
    [get_device_info] answers 404 for the id, and every other id is
    answered as before. *)
Theorem delete_device_cases (device_id : Z) (session : Db.t) :
  (¬ DeviceRouter.device_exists device_id session →
     DeviceAdmin.delete_device device_id session
     = (Raise (HTTPException HTTP_404_NOT_FOUND
                 ("Device " +:+ pretty device_id +:+ " not found.")),
        session))
  ∧ (DeviceRouter.device_exists device_id session →
     ∃ session',
       DeviceAdmin.delete_device device_id session
       = (Ok (JObj [("detail",
                     JStr ("Device " +:+ pretty device_id
                           +:+ " deleted successfully."))]), session')
       ∧ (∀ d, d ∈ Db.devices session'
               ↔ d ∈ Db.devices session ∧ Device.id d ≠ device_id)
       ∧ Db.setups session' = Db.setups session
       ∧ Db.playlists session' = Db.playlists session
       ∧ Db.images session' = Db.images session
       ∧ Db.videos session' = Db.videos session
       ∧ DeviceAdmin.get_device_info device_id session'
         = Raise (HTTPException HTTP_404_NOT_FOUND
                    ("Device with id " +:+ pretty device_id +:+ " not found"))
       ∧ ∀ i, i ≠ device_id →
              DeviceAdmin.get_device_info i session'
              = DeviceAdmin.get_device_info i session).
Proof.
  unfold DeviceAdmin.delete_device. split.
  - intros Hmissing. by rewrite device_by_id_missing.
  - intros Hexists.
    apply device_by_id_exists in Hexists as (device & Hdev & Hid).
    rewrite Hdev.
    eexists. split; [reflexivity|]. split_and!; try done.
    + intros d. rewrite delete_device_rows. by rewrite Hid.
    + unfold DeviceAdmin.get_device_info, Db.device_by_id.
      rewrite find_None_elem; [done|].
      intros d Hd. apply delete_device_rows in Hd as [_ Hd].
      apply bool_decide_eq_false. congruence.
    + intros i Hi. unfold DeviceAdmin.get_device_info, Db.device_by_id.
      unfold Store.delete_device. cbn [Db.devices].
      rewrite find_filter_other; [done|].
      intros d Hd. apply bool_decide_eq_true in Hd. congruence.
Qed.

Lemma delete_device_cases_witness :
  let session :=
    Db.mk [Device.mk 1 "lobby" "hall" None 0 "k1";
           Device.mk 2 "cafe" "floor 1" None 7 "k2"] 3 [] 1 [] 1 [] 1 [] 1 in
  DeviceAdmin.delete_device 5 session
  = (Raise (HTTPException HTTP_404_NOT_FOUND "Device 5 not found."), session)
  ∧ ∃ session',
      DeviceAdmin.delete_device 2 session
      = (Ok (JObj [("detail", JStr "Device 2 deleted successfully.")]),
         session')
      ∧ DeviceAdmin.get_device_info 2 session'
        = Raise (HTTPException HTTP_404_NOT_FOUND
                   "Device with id 2 not found").
Proof.
  intros session. split.
  - apply (delete_device_cases 5 session).
    intros (d & Hd & Hi). unfold session in Hd. cbn [Db.devices] in Hd.
    repeat (apply elem_of_cons in Hd as [->|Hd]; [discriminate|]).
    by apply elem_of_nil in Hd.
  - destruct (delete_device_cases 2 session) as [_ Hdel].
    destruct Hdel as (session' & Hres & _ & _ & _ & _ & _ & Hgone & _).
    + exists (Device.mk 2 "cafe" "floor 1" None 7 "k2").
      split; [|reflexivity]. apply elem_of_cons. right. apply elem_of_cons.
      by left.
    + exists session'. split; [exact Hres|exact Hgone].
Defined.

(** X4.  On a consistent device table, once [delete_device] has removed a
    device its API key is refused with 401, the key of every other device
    still authenticates as that device, and the table is still
    consistent. *)
Theorem delete_device_revokes_key
    (device_id : Z) (session : Db.t) (device : Device.t) :
  Store.devices_consistent session →
  device ∈ Db.devices session →
  Device.id device = device_id →
  let session' := (DeviceAdmin.delete_device device_id session).2 in
  DeviceAdmin.get_device_from_api_key (Device.api_key device) session'
  = Raise (HTTPException DeviceAdmin.HTTP_401_UNAUTHORIZED "Api key not valid")
  ∧ (∀ d, d ∈ Db.devices session → Device.id d ≠ device_id →
          DeviceAdmin.get_device_from_api_key (Device.api_key d) session'
          = Ok d)
  ∧ Store.devices_consistent session'.
Proof.
  intros Hcons Hdev Hid session'.
  destruct (devices_consistent_lookup _ _ Hcons Hdev) as (Hfind & _ & _).
  rewrite Hid in Hfind.
  assert (Hs : session' = Store.delete_device device session).
  { unfold session', DeviceAdmin.delete_device. by rewrite Hfind. }
  rewrite Hs. clear Hs session'.
  pose proof (delete_device_consistent device _ Hcons) as Hcons'.
  split_and!; [| |done].
  - unfold DeviceAdmin.get_device_from_api_key, Db.device_by_api_key.
    rewrite find_None_elem; [done|].
    intros d Hd. apply delete_device_rows in Hd as [Hd Hne].
    apply bool_decide_eq_false. intros Hk. apply Hne. f_equal.
    destruct Hcons as (_ & _ & Hkeys & _).
    by apply (NoDup_fmap_elem_inj Device.api_key (Db.devices session)).
  - intros d Hd Hne. unfold DeviceAdmin.get_device_from_api_key.
    destruct (devices_consistent_lookup _ d Hcons') as (_ & -> & _); [|done].
    apply delete_device_rows. split; [done|]. congruence.
Qed.

Lemma delete_device_revokes_key_witness :
  let session :=
    Db.mk [Device.mk 1 "lobby" "hall" None 0 "k1";
           Device.mk 2 "cafe" "floor 1" None 7 "k2"] 3 [] 1 [] 1 [] 1 [] 1 in
  DeviceAdmin.get_device_from_api_key "k2"
    (DeviceAdmin.delete_device 2 session).2
  = Raise (HTTPException DeviceAdmin.HTTP_401_UNAUTHORIZED "Api key not valid").
Proof.
  intros session.
  apply (delete_device_revokes_key 2 session
           (Device.mk 2 "cafe" "floor 1" None 7 "k2")).
  - unfold Store.devices_consistent.
    apply (bool_decide_unpack _). vm_compute. exact I.
  - apply elem_of_cons. right. apply elem_of_cons. by left.
  - reflexivity.
Defined.

(** ** Updating a device *)

Section update_device_info.
Import DeviceRouter DeviceAdmin.

Lemma fmap_id_on {A} (f : A → A) (l : list A) :
  (∀ x, x ∈ l → f x = x) → f <$> l = l.
Proof.
  induction l as [|y l IH]; intros Hf; [done|].
  rewrite fmap_cons, (Hf y) by left. f_equal. apply IH.
  intros x Hx. apply Hf. by right.
Qed.

(** On a table with distinct primary keys [Db.update_device] replaces one
    row in place. *)
Lemma update_device_split old d session :
  NoDup (Device.id <$> Db.devices session) →
  old ∈ Db.devices session →
  Device.id d = Device.id old →
  ∃ l1 l2,
    Db.devices session = l1 ++ old :: l2
    ∧ Db.devices (Db.update_device d session) = l1 ++ d :: l2.
Proof.
  intros Hnd Hold Hid. apply list_elem_of_split in Hold as (l1 & l2 & Hsplit).
  exists l1, l2. split; [done|].
  unfold Db.update_device. cbn [Db.devices].
  rewrite Hsplit in Hnd |- *.
  rewrite fmap_app, fmap_cons in Hnd.
  apply NoDup_app in Hnd as (_ & Hl1 & Hnd).
  apply NoDup_cons in Hnd as [Hl2 _].
  rewrite fmap_app, fmap_cons. f_equal; [|f_equal].
  - apply fmap_id_on.
    intros d' Hd'. rewrite bool_decide_eq_false_2; [done|].
    intros Heq. apply (Hl1 (Device.id d')); [by apply list_elem_of_fmap_2|].
    rewrite Heq, Hid. by left.
  - by rewrite bool_decide_eq_true_2.
  - apply fmap_id_on.
    intros d' Hd'. rewrite bool_decide_eq_false_2; [done|].
    intros Heq. apply Hl2. rewrite <- Hid, <- Heq.
    by apply list_elem_of_fmap_2.
Qed.

Lemma NoDup_replace_middle {A} (l1 l2 : list A) (x y : A) :
  NoDup (l1 ++ x :: l2) → (y = x ∨ y ∉ l1 ++ x :: l2) →
  NoDup (l1 ++ y :: l2).
Proof.
  intros Hnd [->|Hy]; [done|].
  apply NoDup_app in Hnd as (Hl1 & Hdis & Hnd).
  apply NoDup_cons in Hnd as [Hx Hl2].
  rewrite elem_of_app, elem_of_cons in Hy.
  apply NoDup_app. split_and!; [done| |].
  - intros z Hz Hz'. apply elem_of_cons in Hz' as [->|Hz'].
    + apply Hy. by left.
    + apply (Hdis z Hz). by right.
  - apply NoDup_cons. split; [|done]. intros Hy'. apply Hy. right. by right.
Qed.

Lemma find_replace_middle {A} (f : A → bool) (l1 l2 : list A) (x y : A) :
  f x = false → f y = false →
  List.find f (l1 ++ y :: l2) = List.find f (l1 ++ x :: l2).
Proof.
  intros Hx Hy. induction l1 as [|z l1 IH]; simpl.
  - by rewrite Hx, Hy.
  - by rewrite IH.
Qed.

(** The row a successful commit writes. *)
Lemma commit_device_row device name location setup_id session d session' :
  commit_device device name location setup_id session = Some (d, session') →
  ∃ n l,
    name = Some n ∧ location = Some l
    ∧ d = Device.mk (Device.id device) n l setup_id
            (Device.last_seen device) (Device.api_key device)
    ∧ session' = Db.update_device d session.
Proof.
  unfold commit_device. destruct name as [n|]; [|done].
  destruct location as [l|]; [|done]. intros Hc. exists n, l.
  destruct setup_id as [i|].
  - destruct (Store.setup_by_id i session); [|done]. by injection Hc as <- <-.
  - by injection Hc as <- <-.
Qed.

(** What [update_device_info] has established when it returns a row. *)
Lemma update_device_info_returns device_id data session d session' :
  update_device_info device_id data session = (Py.Returns d, session') →
  ∃ old,
    Db.device_by_id device_id session = Some old
    ∧ Device.id d = Device.id old
    ∧ Device.api_key d = Device.api_key old
    ∧ Device.last_seen d = Device.last_seen old
    ∧ (Device.name d = Device.name old
       ∨ ¬ name_taken (Device.name d) session)
    ∧ session' = Db.update_device d session.
Proof.
  unfold update_device_info.
  destruct (Db.device_by_id device_id session) as [old|] eqn:Hold; [|done].
  intros Hupd. exists old. split; [done|].
  destruct (du_name data) as [|[name|]] eqn:Hname.
  - destruct (commit_device _ _ _ _ _) as [[d0 s0]|] eqn:Hc; [|done].
    injection Hupd as <- <-.
    apply commit_device_row in Hc as (n & l & Hn & _ & -> & ->).
    cbn [sqlmodel_update] in Hn. injection Hn as <-.
    split_and!; try done. by left.
  - destruct (Db.device_by_name name session) eqn:Hfree; [done|].
    destruct (commit_device _ _ _ _ _) as [[d0 s0]|] eqn:Hc; [|done].
    injection Hupd as <- <-.
    apply commit_device_row in Hc as (n & l & Hn & _ & -> & ->).
    cbn [sqlmodel_update] in Hn. injection Hn as <-.
    split_and!; try done. right. by apply device_by_name_None.
  - destruct (commit_device _ _ _ _ _) as [[d0 s0]|] eqn:Hc; [|done].
    apply commit_device_row in Hc as (n & l & Hn & _).
    cbn [sqlmodel_update] in Hn. done.
Qed.

(** Anything but a returned row leaves the store as it was. *)
Lemma update_device_info_fails device_id data session outcome session' :
  update_device_info device_id data session = (outcome, session') →
  (∀ d, outcome ≠ Py.Returns d) → session' = session.
Proof.
  unfold update_device_info.
  destruct (Db.device_by_id device_id session) as [old|]; [|by intros [= <- <-]].
  destruct (match du_name data with
            | Given (Some name) => _ | _ => None end);
    [by intros [= <- <-]|].
  destruct (commit_device _ _ _ _ _) as [[d0 s0]|]; [|by intros [= <- <-]].
  intros [= <- <-] Hne. by destruct (Hne d0).
Qed.

End update_device_info.

(** X5.  [update_device_info] refuses with 409 any request that names a
    device name some row already carries, and the row being updated counts:
    a request that repeats the device's own current name is refused whatever
    else it asks for.  The store is left as it was. *)
Theorem update_device_info_name_in_use
    (device_id : Z) (data : DeviceUpdate) (session : Db.t)
    (device : Device.t) (name : string) :
  Db.device_by_id device_id session = Some device →
  du_name data = Given (Some name) →
  name = Device.name device ∨ DeviceRouter.name_taken name session →
  DeviceAdmin.update_device_info device_id data session
  = (Py.Raises (HTTPException HTTP_409_CONFLICT
                  ("Device name " +:+ name +:+ " already in use.")),
     session).
Proof.
  intros Hdev Hname Htaken. unfold DeviceAdmin.update_device_info.
  rewrite Hdev, Hname.
  assert (Hrow : DeviceRouter.name_taken name session).
  { destruct Htaken as [->|Htaken]; [|done].
    exists device. split; [|done]. by apply device_by_id_id in Hdev as [? _]. }
  apply device_by_name_taken in Hrow as [d ->]. done.
Qed.

Lemma update_device_info_name_in_use_witness :
  let session :=
    Db.mk [Device.mk 1 "lobby" "hall" None 0 "k1"] 2 [] 1 [] 1 [] 1 [] 1 in
  DeviceAdmin.update_device_info 1
    {| du_name := Given (Some "lobby"); du_location := Given (Some "roof");
       du_setup_id := Unset |} session
  = (Py.Raises (HTTPException HTTP_409_CONFLICT
                  "Device name lobby already in use."), session).
Proof.
  intros session.
  apply (update_device_info_name_in_use 1 _ session
           (Device.mk 1 "lobby" "hall" None 0 "k1") "lobby").
  - reflexivity.
  - reflexivity.
  - left. reflexivity.
Defined.

(** X6.  [update_device_info] keeps a consistent device table consistent.
    When it returns a row, that row has the requested id, the API key and
    the last-seen time the device had before, it is what [get_device_info]
    now answers for the id, its key still authenticates as it, and every
    other id is answered as before; when it raises, the store is
    unchanged. *)
Theorem update_device_info_keeps_consistent
    (device_id : Z) (data : DeviceUpdate) (session session' : Db.t)
    (outcome : Py.Outcome Device.t) :
  Store.devices_consistent session →
  DeviceAdmin.update_device_info device_id data session
  = (outcome, session') →
  Store.devices_consistent session'
  ∧ match outcome with
    | Py.Returns d =>
        Device.id d = device_id
        ∧ (∀ old, Db.device_by_id device_id session = Some old →
                  Device.api_key d = Device.api_key old
                  ∧ Device.last_seen d = Device.last_seen old)
        ∧ DeviceAdmin.get_device_info device_id session' = Ok d
        ∧ DeviceAdmin.get_device_from_api_key (Device.api_key d) session'
          = Ok d
        ∧ ∀ i, i ≠ device_id →
               DeviceAdmin.get_device_info i session'
               = DeviceAdmin.get_device_info i session
    | _ => session' = session
    end.
Proof.
  intros Hcons Hupd.
  destruct outcome as [d| | | |];
    try (apply update_device_info_fails in Hupd as ->; done).
  apply update_device_info_returns in Hupd
    as (old & Hold & Hid & Hkey & Hseen & Hname & ->).
  pose proof Hold as Hold'. apply device_by_id_id in Hold' as [Hin Hoid].
  destruct Hcons as (Hids & Hnames & Hkeys & Hnext).
  destruct (update_device_split old d session Hids Hin Hid)
    as (l1 & l2 & Hrows & Hrows').
  assert (Hcons' : Store.devices_consistent (Db.update_device d session)).
  { unfold Store.devices_consistent. rewrite Hrows'.
    cbn [Db.update_device Db.next_device_id].
    rewrite Hrows in Hids, Hnames, Hkeys, Hnext.
    rewrite !fmap_app, !fmap_cons in *.
    rewrite Hid, Hkey. split_and!; [done| |done|].
    - eapply NoDup_replace_middle; [exact Hnames|].
      destruct Hname as [Hname|Hname]; [by left|right].
      intros Hn. apply Hname.
      rewrite <- fmap_cons, <- fmap_app, <- Hrows in Hn.
      apply list_elem_of_fmap in Hn as (d' & Hd' & Hin').
      by exists d'.
    - apply Forall_app in Hnext as [Hn1 Hn2].
      apply Forall_cons in Hn2 as [Hn2 Hn3].
      apply Forall_app. split; [done|]. apply Forall_cons. split; [|done].
      lia. }
  assert (Hd : d ∈ Db.devices (Db.update_device d session)).
  { rewrite Hrows'. apply elem_of_app. right. by left. }
  destruct (devices_consistent_lookup _ d Hcons' Hd) as (Hfi & Hfk & _).
  split; [done|]. split_and!.
  - congruence.
  - intros old' Hold''. rewrite Hold in Hold''. by injection Hold'' as <-.
  - unfold DeviceAdmin.get_device_info. by rewrite <- Hoid, <- Hid, Hfi.
  - unfold DeviceAdmin.get_device_from_api_key. by rewrite Hfk.
  - intros i Hi. unfold DeviceAdmin.get_device_info, Db.device_by_id.
    rewrite Hrows', Hrows.
    rewrite (find_replace_middle _ l1 l2 old d); [done| |];
      apply bool_decide_eq_false; congruence.
Qed.

Lemma update_device_info_keeps_consistent_witness :
  let session :=
    Db.mk [Device.mk 1 "lobby" "hall" None 0 "k1";
           Device.mk 2 "cafe" "floor 1" None 7 "k2"] 3
      [Setup.mk 1 "week"] 2 [] 1 [] 1 [] 1 in
  let d := Device.mk 2 "bar" "floor 1" (Some 1) 7 "k2" in
  let session' :=
    Db.mk [Device.mk 1 "lobby" "hall" None 0 "k1"; d] 3
      [Setup.mk 1 "week"] 2 [] 1 [] 1 [] 1 in
  Store.devices_consistent session'
  ∧ DeviceAdmin.get_device_info 2 session' = Ok d
  ∧ DeviceAdmin.get_device_from_api_key "k2" session' = Ok d.
Proof.
  intros session d session'.
  destruct (update_device_info_keeps_consistent 2
              {| du_name := Given (Some "bar"); du_location := Unset;
                 du_setup_id := Given (Some 1) |}
              session session' (Py.Returns d))
    as (Hcons & _ & _ & Hinfo & Hkey & _).
  - unfold Store.devices_consistent.
    apply (bool_decide_unpack _). vm_compute. exact I.
  - vm_compute. reflexivity.
  - split; [exact Hcons|]. split; [exact Hinfo|exact Hkey].
Defined.


(** ** What a successful [create_setup] has checked and written *)

Section create_setup_facts.
Import SetupRouter SetupChecks.
Variable strptime : string → option Z.

Lemma for_each_cons_Ok {A S} (body : A → S → Result S) x l s s' :
  for_each body (x :: l) s = Ok s' →
  ∃ s1, body x s = Ok s1 ∧ for_each body l s1 = Ok s'.
Proof.
  cbn [for_each]. destruct (body x s) as [s1|e]; [|done].
  cbn [mbind result_bind Http.bind]. intros H. by exists s1.
Qed.

Lemma for_each_unit_Ok {A} (body : A → () → Result ()) l x :
  for_each body l () = Ok () → x ∈ l → body x () = Ok ().
Proof.
  induction l as [|y l IH]; intros Hloop Hx; [by apply elem_of_nil in Hx|].
  apply for_each_cons_Ok in Hloop as ([] & Hy & Hloop).
  apply elem_of_cons in Hx as [->|Hx]; [done|]. by apply IH.
Qed.

Lemma same_refl session : same_devices_and_setups session session.
Proof. by unfold same_devices_and_setups. Qed.

Lemma same_trans s1 s2 s3 :
  same_devices_and_setups s1 s2 → same_devices_and_setups s2 s3 →
  same_devices_and_setups s1 s3.
Proof.
  unfold same_devices_and_setups.
  intros (-> & -> & -> & ->) (-> & -> & -> & ->). done.
Qed.

Lemma foldl_same {A} (f : Db.t → A → Db.t) l session :
  (∀ s x, same_devices_and_setups s (f s x)) →
  same_devices_and_setups session (foldl f session l).
Proof.
  intros Hf. revert session.
  induction l as [|x l IH]; intros session; [apply same_refl|].
  cbn [foldl]. eapply same_trans; [apply Hf|apply IH].
Qed.

Lemma add_playlist_Ok setup_id playlist_data session session' :
  add_playlist strptime setup_id playlist_data session = Ok session' →
  accepted strptime playlist_data ∧ same_devices_and_setups session session'.
Proof.
  unfold add_playlist. case_bool_decide as Hmedia; [done|].
  unfold parse.
  destruct (strptime (PlaylistInput.start_time playlist_data))
    as [start_time|] eqn:Hs; [|done].
  cbn [mbind result_bind Http.bind].
  destruct (strptime (PlaylistInput.end_time playlist_data))
    as [end_time|] eqn:He; [|done].
  cbn [mbind result_bind Http.bind].
  case_bool_decide as Horder; [done|].
  unfold Db.add_playlist. intros [= <-].
  split.
  - split.
    + destruct (PlaylistInput.images playlist_data); [|by left].
      destruct (PlaylistInput.videos playlist_data); [|by right].
      by destruct Hmedia.
    + exists start_time, end_time. rewrite Hs, He. split_and!; [done..|lia].
  - eapply same_trans; [|apply foldl_same; by intros].
    eapply same_trans; [|apply foldl_same; by intros].
    done.
Qed.

Lemma add_playlists_Ok setup_id playlists session session' :
  for_each (add_playlist strptime setup_id) playlists session = Ok session' →
  Forall (accepted strptime) playlists
  ∧ same_devices_and_setups session session'.
Proof.
  revert session. induction playlists as [|p playlists IH]; intros session.
  - intros [= <-]. split; [done|apply same_refl].
  - intros Hloop. apply for_each_cons_Ok in Hloop as (s1 & Hp & Hloop).
    apply add_playlist_Ok in Hp as [Hacc Hsame].
    apply IH in Hloop as [Haccs Hsame'].
    split; [by constructor|by eapply same_trans].
Qed.

(** The linking loop: every listed id names a row; afterwards the rows
    with a listed id carry the setup id, the others are rows of before. *)
Lemma link_devices_Ok setup_id devices session0 device0 session1 device1 :
  for_each (link_device setup_id) devices (session0, device0)
  = Ok (session1, device1) →
  Forall (λ i, DeviceRouter.device_exists i session0) devices
  ∧ Device.id <$> Db.devices session1 = Device.id <$> Db.devices session0
  ∧ Db.next_device_id session1 = Db.next_device_id session0
  ∧ Db.setups session1 = Db.setups session0
  ∧ Db.next_setup_id session1 = Db.next_setup_id session0
  ∧ ∀ d, d ∈ Db.devices session1 →
         (Device.id d ∈ devices → Device.setup_id d = Some setup_id)
         ∧ (Device.id d ∉ devices → d ∈ Db.devices session0).
Proof.
  revert session0 device0.
  induction devices as [|i devices IH]; intros session0 device0 Hloop.
  - injection Hloop as <- <-. split_and!; try done.
    intros d Hd. split; [|done]. intros Hi. by apply elem_of_nil in Hi.
  - apply for_each_cons_Ok in Hloop as ([s d0] & Hstep & Hloop).
    unfold link_device in Hstep. cbn [fst] in Hstep.
    destruct (Db.device_by_id i session0) as [row|] eqn:Hrow; [|done].
    injection Hstep as <- <-.
    apply IH in Hloop as (Hex & Hids & Hnext & Hsetups & Hnexts & Hrows).
    clear IH. apply device_by_id_id in Hrow as [Hin Hid].
    assert (Hids0 :
      Device.id <$> Db.devices
        (Db.update_device (Device.set_setup_id (Some setup_id) row) session0)
      = Device.id <$> Db.devices session0).
    { unfold Db.update_device. cbn [Db.devices].
      rewrite <- list_fmap_compose. apply list_fmap_ext.
      intros _ d _. cbn. by case_bool_decide. }
    split_and!.
    + constructor; [by exists row|].
      eapply Forall_impl; [exact Hex|]. intros j (d & Hd & Hj).
      assert (Hj' : j ∈ Device.id <$> Db.devices session0).
      { rewrite <- Hids0, <- Hj. by apply list_elem_of_fmap_2. }
      apply list_elem_of_fmap in Hj' as (d' & -> & Hd'). by exists d'.
    + by rewrite Hids, Hids0.
    + by rewrite Hnext.
    + by rewrite Hsetups.
    + by rewrite Hnexts.
    + intros d Hd. destruct (Hrows d Hd) as [Hlisted Hother].
      assert (Hupd : d ∈ Db.devices
                (Db.update_device (Device.set_setup_id (Some setup_id) row)
                   session0) →
              Device.id d = i ∧ Device.setup_id d = Some setup_id
              ∨ Device.id d ≠ i ∧ d ∈ Db.devices session0).
      { unfold Db.update_device. cbn [Db.devices].
        intros Hd'. apply list_elem_of_fmap in Hd' as (d' & -> & Hd').
        case_bool_decide as Hc; cbn in Hc.
        - left. cbn. by split.
        - right. rewrite Hid in Hc. by split. }
      destruct (decide (Device.id d ∈ devices)) as [Hl|Hl].
      * split; [by intros _; apply Hlisted|].
        intros Hn. destruct Hn. by right.
      * specialize (Hother Hl). apply Hupd in Hother as [[Hi Hs]|[Hi Hs]].
        -- split; [done|]. intros Hn. destruct Hn. rewrite Hi. by left.
        -- split; [|done]. intros Hn.
           apply elem_of_cons in Hn as [Hn|Hn]; [done|]. by destruct Hl.
Qed.

(** What [create_setup_rows] has done when it returns. *)
Lemma create_setup_rows_Ok data session new_setup device session' :
  create_setup_rows strptime data session = Ok (new_setup, device, session') →
  for_each (check_day strptime (si_playlists data)) days () = Ok ()
  ∧ new_setup = Setup.mk (Db.next_setup_id session) (si_name data)
  ∧ ∃ session1,
      for_each (add_playlist strptime (Db.next_setup_id session))
        (si_playlists data) (Db.add_setup (si_name data) session).2
      = Ok session1
      ∧ for_each (link_device (Db.next_setup_id session)) (si_devices data)
          (session1, None)
        = Ok (session', device).
Proof.
  unfold create_setup_rows. intros Hrows.
  destruct (for_each (check_day strptime (si_playlists data)) days ())
    as [[]|e]; [|discriminate].
  cbn [mbind result_bind Http.bind] in Hrows.
  unfold Db.add_setup in Hrows |- *. cbn [Setup.id snd] in Hrows |- *.
  match type of Hrows with
  | context [for_each (add_playlist strptime ?i) ?l ?s] =>
      destruct (for_each (add_playlist strptime i) l s) as [session1|e]
  end; [|discriminate].
  cbn [mbind result_bind Http.bind] in Hrows.
  match type of Hrows with
  | context [for_each (link_device ?i) ?l ?s] =>
      destruct (for_each (link_device i) l s) as [[session2 device2]|e] eqn:Hl
  end; [|discriminate].
  cbn [mbind result_bind Http.bind] in Hrows.
  injection Hrows as <- <- <-. split_and!; try done. by exists session1.
Qed.

(** With the rows written the notification loop does not raise. *)
Lemma create_setup_rows_notify data session new_setup device session' redis :
  create_setup_rows strptime data session = Ok (new_setup, device, session') →
  ∃ redis', notify device (si_devices data) redis = (Ok (), redis').
Proof.
  intros Hrows.
  apply create_setup_rows_link in Hrows as (session0 & Hlink).
  apply link_devices_last in Hlink.
  destruct (si_devices data) as [|i devices] eqn:Hdev; [by exists redis|].
  rewrite <- Hdev in *.
  destruct (last (si_devices data)) as [last_id|] eqn:Hlast.
  - destruct Hlink as (d & -> & _).
    destruct (notify_published d (si_devices data) redis) as (redis' & Hn & _).
    by exists redis'.
  - apply last_None in Hlast. congruence.
Qed.

(** The two ways [create_setup] ends. *)
Lemma create_setup_Ok data redis session out redis' session' :
  create_setup strptime data redis session = (Ok out, redis', session') →
  Db.setup_by_name (si_name data) session = None
  ∧ length (PlaylistInput.name <$> si_playlists data)
    = size (list_to_set (PlaylistInput.name <$> si_playlists data)
              : gset string)
  ∧ ∃ new_setup device,
      create_setup_rows strptime data session
      = Ok (new_setup, device, session')
      ∧ out = setup_output new_setup session'.
Proof.
  unfold create_setup.
  destruct (Db.setup_by_name (si_name data) session); [done|].
  case_bool_decide as Hnames; [done|].
  destruct (create_setup_rows strptime data session)
    as [[[new_setup device] session1]|e] eqn:Hrows; [|done].
  destruct (notify device (si_devices data) redis) as [[[]|e] redis1];
    [|done].
  intros [= <- <- <-]. split; [done|]. split.
  - exact Hnames.
  - by exists new_setup, device.
Qed.

End create_setup_facts.

Section create_setup_checks.
Import SetupRouter SetupChecks.
Variable strptime : string → option Z.

Lemma size_list_to_set_le (l : list string) :
  (size (list_to_set l : gset string) ≤ length l)%nat.
Proof.
  induction l as [|x l IH]; [by rewrite list_to_set_nil, size_empty|].
  rewrite list_to_set_cons, size_union_alt, size_singleton. cbn [length].
  pose proof (subseteq_size (list_to_set l ∖ {[x]}) (list_to_set l : gset string))
    as Hle.
  assert ((list_to_set l ∖ {[x]} : gset string) ⊆ list_to_set l) as Hsub
    by apply subseteq_difference_l, reflexivity.
  specialize (Hle Hsub). lia.
Qed.

(** [len(names) == len(set(names))] says that no name occurs twice. *)
Lemma length_size_NoDup (l : list string) :
  length l = size (list_to_set l : gset string) → NoDup l.
Proof.
  induction l as [|x l IH]; [constructor|].
  rewrite list_to_set_cons. cbn [length]. intros Hlen.
  pose proof (size_list_to_set_le l) as Hle.
  destruct (decide (x ∈ l)) as [Hin|Hnotin].
  - assert (({[x]} ∪ list_to_set l : gset string) = list_to_set l) as Heq.
    { apply subseteq_union_1_L, singleton_subseteq_l.
      by apply elem_of_list_to_set. }
    rewrite Heq in Hlen. lia.
  - constructor; [done|]. apply IH.
    rewrite size_union in Hlen.
    + rewrite size_singleton in Hlen. lia.
    + apply disjoint_singleton_l. by rewrite elem_of_list_to_set.
Qed.

Lemma insert_by_key_perm x l : insert_by_key x l ≡ₚ x :: l.
Proof.
  induction l as [|y l IH]; [done|].
  cbn [insert_by_key]. case_bool_decide; [done|].
  rewrite IH. apply Permutation_swap.
Qed.

Lemma sort_by_key_perm l : sort_by_key l ≡ₚ l.*2.
Proof.
  unfold sort_by_key.
  assert (∀ acc, foldl (λ acc x, insert_by_key x acc) acc l ≡ₚ acc ++ l)
    as Hfold.
  { induction l as [|x l IH]; intros acc; cbn [foldl].
    - by rewrite app_nil_r.
    - rewrite IH, insert_by_key_perm. apply Permutation_middle. }
  by rewrite (Hfold []).
Qed.

Lemma mapM_length {A B} (f : A → Result B) (l : list A) (k : list B) :
  mapM f l = Ok k → length k = length l.
Proof.
  revert k. induction l as [|x l IH]; intros k; cbn [mapM].
  - by intros [= <-].
  - destruct (f x) as [y|e]; [|done]. cbn [mbind result_bind Http.bind].
    destruct (mapM f l) as [k'|e]; [|done].
    cbn [mbind result_bind Http.bind mret result_ret].
    intros [= <-]. cbn [length]. f_equal. by apply IH.
Qed.

(** The comparison of neighbours, together with every playlist starting
    before it ends, orders the whole list in time. *)
Lemma check_overlap_sorted day l :
  check_overlap strptime day l = Ok () →
  Forall (accepted strptime) l →
  StronglySorted (before strptime) l.
Proof.
  induction l as [|p l IH]; intros Hcheck Hacc; [constructor|].
  destruct l as [|q rest]; [by repeat constructor|].
  cbn [check_overlap] in Hcheck. unfold parse in Hcheck.
  destruct (strptime (PlaylistInput.end_time p)) as [p_end|] eqn:Hp;
    [|done].
  cbn [mbind result_bind Http.bind] in Hcheck.
  destruct (strptime (PlaylistInput.start_time q)) as [q_start|] eqn:Hq;
    [|done].
  cbn [mbind result_bind Http.bind] in Hcheck.
  case_bool_decide as Hgt; [done|].
  apply Forall_cons in Hacc as [_ Hacc].
  specialize (IH Hcheck Hacc).
  apply Forall_cons in Hacc as [(_ & q_start' & q_end & Hqs & Hqe & Hlt) _].
  rewrite Hq in Hqs. injection Hqs as <-.
  constructor; [done|].
  apply StronglySorted_inv in IH as [_ Hrest].
  constructor.
  - exists p_end, q_start. split_and!; [done..|lia].
  - eapply Forall_impl; [exact Hrest|].
    intros r (q_end' & r_start & Hqe' & Hr & Hle).
    rewrite Hqe in Hqe'. injection Hqe' as <-.
    exists p_end, r_start. split_and!; [done..|lia].
Qed.

Lemma StronglySorted_either {A} (R : A → A → Prop) (l : list A) (x y : A) :
  StronglySorted R l → x ∈ l → y ∈ l → x ≠ y → R x y ∨ R y x.
Proof.
  induction 1 as [|a l Hsorted IH Hall]; intros Hx Hy Hne;
    [by apply elem_of_nil in Hx|].
  rewrite Forall_forall in Hall.
  apply elem_of_cons in Hx as [->|Hx]; apply elem_of_cons in Hy as [->|Hy].
  - done.
  - left. by apply Hall.
  - right. by apply Hall.
  - by apply IH.
Qed.

Lemma check_day_Ok playlists day p q :
  check_day strptime playlists day () = Ok () →
  Forall (accepted strptime) playlists →
  p ∈ playlists → q ∈ playlists → p ≠ q →
  day.2 p = true → day.2 q = true →
  before strptime p q ∨ before strptime q p.
Proof.
  unfold check_day. intros Hcheck Hacc Hp Hq Hne Hdp Hdq.
  destruct (mapM (λ p, parse strptime (PlaylistInput.start_time p))
              (List.filter day.2 playlists)) as [keys|e] eqn:Hkeys; [|done].
  cbn [mbind result_bind Http.bind] in Hcheck.
  apply mapM_length in Hkeys.
  pose proof (sort_by_key_perm (zip keys (List.filter day.2 playlists)))
    as Hperm.
  rewrite snd_zip in Hperm by lia.
  assert (Hin : ∀ r, r ∈ playlists → day.2 r = true →
                r ∈ sort_by_key (zip keys (List.filter day.2 playlists))).
  { intros r Hr Hdr. rewrite Hperm. apply list_elem_of_In, filter_In.
    split; [by apply list_elem_of_In|done]. }
  apply check_overlap_sorted in Hcheck.
  - eapply StronglySorted_either; [exact Hcheck|by apply Hin..|done].
  - apply Forall_forall. intros r Hr. rewrite Hperm in Hr.
    apply list_elem_of_In, filter_In in Hr as [Hr _].
    rewrite Forall_forall in Hacc. by apply Hacc, list_elem_of_In.
Qed.

End create_setup_checks.

(** X8.  A [create_setup] that succeeds has checked its input: no setup
    carried the name, no two playlists of the request share a name, every
    playlist has at least one image or video and a start time before its
    end time, and every listed device id names a device row. *)
Theorem create_setup_validates
    (strptime : string → option Z) (data : SetupInput)
    (redis redis' : Redis.t) (session session' : Db.t) (out : SetupOutput) :
  SetupRouter.create_setup strptime data redis session
  = (Ok out, redis', session') →
  (∀ s, s ∈ Db.setups session → Setup.name s ≠ si_name data)
  ∧ NoDup (PlaylistInput.name <$> si_playlists data)
  ∧ Forall (SetupChecks.accepted strptime) (si_playlists data)
  ∧ Forall (λ i, DeviceRouter.device_exists i session) (si_devices data).
Proof.
  intros Hcreate.
  apply create_setup_Ok in Hcreate
    as (Hname & Hnames & new_setup & device & Hrows & _).
  apply create_setup_rows_Ok in Hrows
    as (_ & _ & session1 & Hplaylists & Hlink).
  apply add_playlists_Ok in Hplaylists as [Hacc (Hdevs & _)].
  apply link_devices_Ok in Hlink as (Hex & _).
  split_and!.
  - intros s Hs Heq.
    destruct (find_is_Some (λ s, bool_decide (Setup.name s = si_name data))
                (Db.setups session) s) as [s' Hs']; [done| |].
    + by apply bool_decide_eq_true.
    + unfold Db.setup_by_name in Hname. congruence.
  - by apply length_size_NoDup.
  - done.
  - eapply Forall_impl; [exact Hex|]. intros i (d & Hd & Hi).
    exists d. split; [|done]. rewrite Hdevs in Hd. exact Hd.
Qed.

(** X9.  A [create_setup] that succeeds has accepted a schedule without
    overlap: of any two different playlists of the request that run on the
    same day of the week, one has ended when the other starts. *)
Theorem create_setup_no_overlap
    (strptime : string → option Z) (data : SetupInput)
    (redis redis' : Redis.t) (session session' : Db.t) (out : SetupOutput)
    (day : string * (PlaylistInput.t → bool)) (p q : PlaylistInput.t) :
  SetupRouter.create_setup strptime data redis session
  = (Ok out, redis', session') →
  day ∈ SetupRouter.days →
  p ∈ si_playlists data → q ∈ si_playlists data → p ≠ q →
  day.2 p = true → day.2 q = true →
  SetupChecks.before strptime p q ∨ SetupChecks.before strptime q p.
Proof.
  intros Hcreate Hday Hp Hq Hne Hdp Hdq.
  apply create_setup_Ok in Hcreate
    as (_ & _ & new_setup & device & Hrows & _).
  apply create_setup_rows_Ok in Hrows
    as (Hdays & _ & session1 & Hplaylists & _).
  apply add_playlists_Ok in Hplaylists as [Hacc _].
  eapply check_day_Ok; try done.
  by apply (for_each_unit_Ok _ SetupRouter.days day).
Qed.

Lemma create_setup_validates_witness :
  let data :=
    {| si_name := "week";
       si_playlists :=
         [PlaylistInput.mk "morning" "08:00" "12:00"
            true true true true true false false
            [{| ib_url := "a.png"; ib_duration := 5 |}] [];
          PlaylistInput.mk "evening" "12:00" "20:30"
            true false false false false false true
            [] ["b.mp4"]];
       si_devices := [1] |} in
  NoDup (PlaylistInput.name <$> si_playlists data)
  ∧ Forall (SetupChecks.accepted SetupRouter.strptime_hm) (si_playlists data).
Proof.
  intros data.
  pose (session :=
    Db.mk [Device.mk 1 "lobby" "hall" None 0 "k1"] 2 [] 1 [] 1 [] 1 [] 1).
  pose (result :=
    SetupRouter.create_setup SetupRouter.strptime_hm data Redis.empty session).
  destruct (create_setup_validates SetupRouter.strptime_hm data Redis.empty
              result.1.2 session result.2
              (SetupRouter.setup_output (Setup.mk 1 "week") result.2))
    as (_ & Hnames & Hacc & _).
  - vm_compute. reflexivity.
  - split; [exact Hnames|exact Hacc].
Defined.

Lemma create_setup_no_overlap_witness :
  let morning :=
    PlaylistInput.mk "morning" "08:00" "12:00"
      true true true true true false false
      [{| ib_url := "a.png"; ib_duration := 5 |}] [] in
  let evening :=
    PlaylistInput.mk "evening" "12:00" "20:30"
      true false false false false false true [] ["b.mp4"] in
  SetupChecks.before SetupRouter.strptime_hm evening morning
  ∨ SetupChecks.before SetupRouter.strptime_hm morning evening.
Proof.
  intros morning evening.
  pose (data := {| si_name := "week"; si_playlists := [evening; morning];
                   si_devices := [1] |}).
  pose (session :=
    Db.mk [Device.mk 1 "lobby" "hall" None 0 "k1"] 2 [] 1 [] 1 [] 1 [] 1).
  pose (result :=
    SetupRouter.create_setup SetupRouter.strptime_hm data Redis.empty session).
  apply (create_setup_no_overlap SetupRouter.strptime_hm data Redis.empty
           result.1.2 session result.2
           (SetupRouter.setup_output (Setup.mk 1 "week") result.2)
           ("monday", PlaylistInput.monday) evening morning).
  - vm_compute. reflexivity.
  - apply elem_of_cons. by left.
  - apply elem_of_cons. by left.
  - apply elem_of_cons. right. apply elem_of_cons. by left.
  - discriminate.
  - reflexivity.
  - reflexivity.
Defined.

(** X10.  A [create_setup] that succeeds has linked the listed devices and
    no others: the device table holds the same ids as before, every row
    with a listed id carries the id of the new setup, every other row is a
    row of before, and the response lists every listed id among the devices
    of the setup. *)
Theorem create_setup_links_devices
    (strptime : string → option Z) (data : SetupInput)
    (redis redis' : Redis.t) (session session' : Db.t) (out : SetupOutput) :
  SetupRouter.create_setup strptime data redis session
  = (Ok out, redis', session') →
  Device.id <$> Db.devices session' = Device.id <$> Db.devices session
  ∧ (∀ d, d ∈ Db.devices session' →
          (Device.id d ∈ si_devices data →
           Device.setup_id d = Some (so_id out))
          ∧ (Device.id d ∉ si_devices data → d ∈ Db.devices session))
  ∧ ∀ i, i ∈ si_devices data → i ∈ dso_id <$> so_devices out.
Proof.
  intros Hcreate.
  apply create_setup_Ok in Hcreate
    as (_ & _ & new_setup & device & Hrows & ->).
  apply create_setup_rows_Ok in Hrows
    as (_ & -> & session1 & Hplaylists & Hlink).
  apply add_playlists_Ok in Hplaylists as [_ (Hdevs & _)].
  cbn [Db.add_setup snd Db.devices] in Hdevs.
  apply link_devices_Ok in Hlink as (Hex & Hids & _ & _ & _ & Hlinked).
  rewrite Hdevs in Hids.
  cbn [so_id SetupRouter.setup_output Setup.id so_devices].
  split_and!; [done| |].
  - intros d Hd. destruct (Hlinked d Hd) as [Hl Ho].
    split; [done|]. intros Hn. rewrite <- Hdevs. by apply Ho.
  - intros i Hi. rewrite Forall_forall in Hex.
    destruct (Hex i Hi) as (d0 & Hd0 & Hi0).
    assert (Hi' : i ∈ Device.id <$> Db.devices session').
    { rewrite Hids, <- Hdevs, <- Hi0. by apply list_elem_of_fmap_2. }
    apply list_elem_of_fmap in Hi' as (d & -> & Hd).
    destruct (Hlinked d Hd) as [Hl _]. specialize (Hl Hi).
    apply list_elem_of_fmap.
    exists (SetupRouter.to_setup_model d). split; [done|].
    apply list_elem_of_fmap_2, list_elem_of_In, filter_In.
    split; [by apply list_elem_of_In|]. by apply bool_decide_eq_true.
Qed.

Lemma create_setup_links_devices_witness :
  let session :=
    Db.mk [Device.mk 1 "lobby" "hall" None 0 "k1";
           Device.mk 2 "cafe" "floor 1" None 7 "k2"] 3 [] 1 [] 1 [] 1 [] 1 in
  let data :=
    {| si_name := "week";
       si_playlists :=
         [PlaylistInput.mk "morning" "08:00" "12:00"
            true true true true true false false
            [{| ib_url := "a.png"; ib_duration := 5 |}] []];
       si_devices := [2] |} in
  let result :=
    SetupRouter.create_setup SetupRouter.strptime_hm data Redis.empty session
  in
  Device.id <$> Db.devices result.2 = [1; 2].
Proof.
  intros session data result.
  destruct (create_setup_links_devices SetupRouter.strptime_hm data
              Redis.empty result.1.2 session result.2
              (SetupRouter.setup_output (Setup.mk 1 "week") result.2))
    as (Hids & _).
  - vm_compute. reflexivity.
  - exact Hids.
Defined.

Section create_setup_round_trip.
Import SetupRouter SetupChecks.

Lemma create_setup_setups strptime data session new_setup device session' :
  create_setup_rows strptime data session = Ok (new_setup, device, session') →
  Db.setups session' = Db.setups session ++ [new_setup]
  ∧ Db.next_setup_id session' = Db.next_setup_id session + 1
  ∧ new_setup = Setup.mk (Db.next_setup_id session) (si_name data).
Proof.
  intros Hrows.
  apply create_setup_rows_Ok in Hrows
    as (_ & -> & session1 & Hplaylists & Hlink).
  apply add_playlists_Ok in Hplaylists as [_ (_ & _ & Hsetups & Hnext)].
  cbn [Db.add_setup snd Db.setups Db.next_setup_id] in Hsetups, Hnext.
  apply link_devices_Ok in Hlink as (_ & _ & _ & Hsetups' & Hnext' & _).
  by rewrite Hsetups', Hnext', Hsetups, Hnext.
Qed.

End create_setup_round_trip.

(** X11.  After a successful [create_setup] on a consistent setup table,
    [get_setup_info] answers the id of the response with that same response,
    [get_setups_info] lists it last, the setup table is still consistent,
    and a further [create_setup] under the same name is refused with 409
    and changes nothing. *)
Theorem create_setup_then_get_setup_info
    (strptime : string → option Z) (data : SetupInput)
    (redis redis' : Redis.t) (session session' : Db.t) (out : SetupOutput) :
  Store.setups_consistent session →
  SetupRouter.create_setup strptime data redis session
  = (Ok out, redis', session') →
  so_name out = si_name data
  ∧ SetupAdmin.get_setup_info (so_id out) session' = Ok out
  ∧ SetupAdmin.get_setups_info session'
    = ((λ setup, SetupRouter.setup_output setup session')
         <$> Db.setups session) ++ [out]
  ∧ Store.setups_consistent session'
  ∧ ∀ (data2 : SetupInput) (redis2 : Redis.t),
      si_name data2 = si_name data →
      SetupRouter.create_setup strptime data2 redis2 session'
      = (Raise (HTTPException HTTP_409_CONFLICT
                  ("Name " +:+ si_name data +:+ " already in use.")),
         redis2, session').
Proof.
  intros (Hids & Hnames & Hnext) Hcreate.
  apply create_setup_Ok in Hcreate
    as (Hname & _ & new_setup & device & Hrows & ->).
  apply create_setup_setups in Hrows as (Hsetups & Hnext' & ->).
  assert (Hfree : ∀ s, s ∈ Db.setups session → Setup.name s ≠ si_name data).
  { intros s Hs Heq.
    destruct (find_is_Some (λ s, bool_decide (Setup.name s = si_name data))
                (Db.setups session) s) as [s' Hs']; [done| |].
    - by apply bool_decide_eq_true.
    - unfold Db.setup_by_name in Hname. congruence. }
  rewrite Forall_forall in Hnext.
  cbn [so_name so_id SetupRouter.setup_output Setup.id Setup.name].
  split_and!.
  - done.
  - unfold SetupAdmin.get_setup_info, Store.setup_by_id.
    rewrite Hsetups, find_app_None; [done| |by apply bool_decide_eq_true].
    intros s Hs. apply bool_decide_eq_false. specialize (Hnext s Hs). lia.
  - unfold SetupAdmin.get_setups_info. by rewrite Hsetups, fmap_app.
  - unfold Store.setups_consistent. rewrite Hsetups, Hnext', !fmap_app.
    cbn [fmap list_fmap Setup.id Setup.name]. split_and!.
    + apply NoDup_app. split_and!; [done| |apply NoDup_singleton].
      intros i Hi Hi'. apply list_elem_of_singleton in Hi'. subst i.
      apply list_elem_of_fmap in Hi as (s & Heq & Hs).
      specialize (Hnext s Hs). lia.
    + apply NoDup_app. split_and!; [done| |apply NoDup_singleton].
      intros n Hn Hn'. apply list_elem_of_singleton in Hn'. subst n.
      apply list_elem_of_fmap in Hn as (s & Heq & Hs).
      by apply (Hfree s Hs).
    + apply Forall_app. split.
      * apply Forall_forall. intros s Hs. specialize (Hnext s Hs). lia.
      * apply Forall_singleton. cbn. lia.
  - intros data2 redis2 Hsame. unfold SetupRouter.create_setup.
    unfold Db.setup_by_name.
    rewrite Hsetups, find_app_None; [by rewrite Hsame| |].
    + intros s Hs. apply bool_decide_eq_false. rewrite Hsame.
      by apply Hfree.
    + by apply bool_decide_eq_true.
Qed.

Lemma create_setup_then_get_setup_info_witness :
  let session :=
    Db.mk [Device.mk 1 "lobby" "hall" None 0 "k1"] 2
      [Setup.mk 1 "weekend"] 2 [] 1 [] 1 [] 1 in
  let data :=
    {| si_name := "week";
       si_playlists :=
         [PlaylistInput.mk "morning" "08:00" "12:00"
            true true true true true false false
            [{| ib_url := "a.png"; ib_duration := 5 |}] []];
       si_devices := [1] |} in
  let result :=
    SetupRouter.create_setup SetupRouter.strptime_hm data Redis.empty session
  in
  SetupAdmin.get_setup_info 2 result.2
  = Ok (SetupRouter.setup_output (Setup.mk 2 "week") result.2).
Proof.
  intros session data result.
  destruct (create_setup_then_get_setup_info SetupRouter.strptime_hm data
              Redis.empty result.1.2 session result.2
              (SetupRouter.setup_output (Setup.mk 2 "week") result.2))
    as (_ & Hinfo & _).
  - unfold Store.setups_consistent.
    apply (bool_decide_unpack _). vm_compute. exact I.
  - vm_compute. reflexivity.
  - exact Hinfo.
Defined.

(** ** The exceptions of [create_setup] *)

Section create_setup_raises.
Import SetupRouter.
Variable strptime : string → option Z.

Lemma for_each_Raise {A S} (body : A → S → Result S) l s e :
  for_each body l s = Raise e → ∃ x s0, x ∈ l ∧ body x s0 = Raise e.
Proof.
  revert s. induction l as [|x l IH]; intros s; [done|].
  cbn [for_each].
  destruct (body x s) as [s1|e1] eqn:Hx; cbn [mbind result_bind Http.bind].
  - intros H. apply IH in H as (y & s0 & Hy & H).
    exists y, s0. split; [by right|done].
  - intros [= <-]. exists x, s. split; [by left|done].
Qed.

Lemma parse_Raise s e : parse strptime s = Raise e → e = ValueError.
Proof. unfold parse. destruct (strptime s); [done|]. by intros [= <-]. Qed.

Lemma mapM_parse_Raise (l : list PlaylistInput.t) e :
  mapM (λ p, parse strptime (PlaylistInput.start_time p)) l = Raise e →
  e = ValueError.
Proof.
  induction l as [|p l IH]; [done|]. cbn [mapM].
  destruct (parse strptime (PlaylistInput.start_time p)) as [t|e1] eqn:Hp;
    cbn [mbind result_bind Http.bind].
  - destruct (mapM _ l) as [k|e2]; cbn [mbind result_bind Http.bind];
      [done|]. intros [= <-]. by apply IH.
  - intros [= <-]. by eapply parse_Raise.
Qed.

Lemma check_overlap_Raise day l e :
  check_overlap strptime day l = Raise e → e ≠ NameError.
Proof.
  induction l as [|current l IH]; [done|].
  destruct l as [|next l]; [done|].
  cbn [check_overlap].
  destruct (parse strptime (PlaylistInput.end_time current))
    as [current_end|e1] eqn:H1; cbn [mbind result_bind Http.bind];
    [|intros [= <-]; by rewrite (parse_Raise _ _ H1)].
  destruct (parse strptime (PlaylistInput.start_time next))
    as [next_start|e2] eqn:H2; cbn [mbind result_bind Http.bind];
    [|intros [= <-]; by rewrite (parse_Raise _ _ H2)].
  case_bool_decide; [by intros [= <-]|]. exact IH.
Qed.

Lemma check_day_Raise playlists day u e :
  check_day strptime playlists day u = Raise e → e ≠ NameError.
Proof.
  unfold check_day.
  destruct (mapM _ (List.filter day.2 playlists)) as [keys|e1] eqn:Hkeys;
    cbn [mbind result_bind Http.bind].
  - apply check_overlap_Raise.
  - intros [= <-]. by rewrite (mapM_parse_Raise _ _ Hkeys).
Qed.

Lemma add_playlist_Raise setup_id playlist_data session e :
  add_playlist strptime setup_id playlist_data session = Raise e →
  e ≠ NameError.
Proof.
  unfold add_playlist. case_bool_decide; [by intros [= <-]|].
  destruct (parse strptime (PlaylistInput.start_time playlist_data))
    as [start_time|e1] eqn:H1; cbn [mbind result_bind Http.bind];
    [|intros [= <-]; by rewrite (parse_Raise _ _ H1)].
  destruct (parse strptime (PlaylistInput.end_time playlist_data))
    as [end_time|e2] eqn:H2; cbn [mbind result_bind Http.bind];
    [|intros [= <-]; by rewrite (parse_Raise _ _ H2)].
  case_bool_decide; [by intros [= <-]|]. done.
Qed.

Lemma link_device_Raise setup_id device_id st e :
  link_device setup_id device_id st = Raise e → e ≠ NameError.
Proof.
  unfold link_device.
  destruct (Db.device_by_id device_id st.1); [done|]. by intros [= <-].
Qed.

(** The code before the commit raises [HTTPException] or [ValueError]. *)
Lemma create_setup_rows_Raise data session e :
  create_setup_rows strptime data session = Raise e → e ≠ NameError.
Proof.
  unfold create_setup_rows.
  destruct (for_each (check_day strptime (si_playlists data)) days ())
    as [[]|e1] eqn:Hdays; cbn [mbind result_bind Http.bind].
  2:{ intros [= <-]. apply for_each_Raise in Hdays as (day & u & _ & Hday).
      by eapply check_day_Raise. }
  unfold Db.add_setup.
  match goal with
  | |- context [for_each (add_playlist strptime ?i) ?l ?s] =>
      destruct (for_each (add_playlist strptime i) l s) as [session1|e1]
        eqn:Hadd
  end; cbn [mbind result_bind Http.bind].
  2:{ intros [= <-]. apply for_each_Raise in Hadd as (p & s0 & _ & Hp).
      by eapply add_playlist_Raise. }
  match goal with
  | |- context [for_each (link_device ?i) ?l ?s] =>
      destruct (for_each (link_device i) l s) as [[session2 device2]|e1]
        eqn:Hlink
  end; cbn [mbind result_bind Http.bind]; [done|].
  intros [= <-]. apply for_each_Raise in Hlink as (i & st & _ & Hi).
  by eapply link_device_Raise.
Qed.

(** Over a connection that is never lost the loop is [SetupRouter.notify]. *)
Lemma notify_reliable device devices redis :
  SetupAdmin.notify None device devices redis
  = (Py.of_result (notify device devices redis).1,
     (notify device devices redis).2).
Proof.
  revert redis. induction devices as [|device_id devices IH]; intros redis;
    [done|].
  cbn [SetupAdmin.notify notify]. destruct device as [d|]; [|done].
  cbn [fmap option_fmap option_map]. apply IH.
Qed.

(** With [device] bound, the loop sends one command per listed id until
    the connection is lost. *)
Lemma notify_bound connection d devices redis :
  let publish :=
    Redis.publish (DeviceRouter.instructions_channel (Device.id d))
      update_setup_payload in
  SetupAdmin.notify connection (Some d) devices redis
  = match connection with
    | Some served =>
        if bool_decide (served < length devices)%nat
        then (Py.ConnectionError, Nat.iter served publish redis)
        else (Py.Returns (), Nat.iter (length devices) publish redis)
    | None => (Py.Returns (), Nat.iter (length devices) publish redis)
    end.
Proof.
  intros publish. revert connection redis.
  induction devices as [|device_id devices IH]; intros connection redis.
  - destruct connection as [served|]; [|done].
    cbn [SetupAdmin.notify length]. by rewrite bool_decide_eq_false_2 by lia.
  - cbn [SetupAdmin.notify length].
    destruct connection as [[|served]|]; cbn [fmap option_fmap option_map].
    + by rewrite bool_decide_eq_true_2 by lia.
    + rewrite IH. fold publish. cbn [Nat.pred].
      rewrite !Nat.iter_succ_r.
      case_bool_decide; case_bool_decide; try lia; done.
    + rewrite IH. fold publish. by rewrite Nat.iter_succ_r.
Qed.

End create_setup_raises.

(** X7.  [create_setup] over a Redis connection that may be lost.  Over a
    connection that is never lost it is [SetupRouter.create_setup].  It is
    all or nothing for what is raised before the commit: an exception of
    the handler's own code, which is an [HTTPException] or the
    [ValueError] of [strptime] and never a [NameError], leaves Redis and
    the store as they were; [AttributeError] and [IntegrityError] do not
    occur.  The [ConnectionError] of [redis.publish] comes after the
    commit: the connection was lost within the notification loop, the new
    setup and its rows are stored, the notifications sent before the loss
    stay sent, and the rollback undoes nothing. *)
Theorem create_setup_exceptions
    (strptime : string → option Z) (connection : option nat)
    (data : SetupInput) (redis : Redis.t) (session : Db.t) :
  let result :=
    SetupAdmin.create_setup strptime connection data redis session in
  let reliable := SetupRouter.create_setup strptime data redis session in
  SetupAdmin.create_setup strptime None data redis session
  = (Py.of_result reliable.1.1, reliable.1.2, reliable.2)
  ∧ (∀ e, result.1.1 = Py.Raises e →
          e ≠ NameError ∧ result.1.2 = redis ∧ result.2 = session)
  ∧ (∀ attribute, result.1.1 ≠ Py.AttributeError attribute)
  ∧ result.1.1 ≠ Py.IntegrityError
  ∧ (result.1.1 = Py.ConnectionError →
     ∃ (served : nat) (new_setup : Setup.t) (device : Device.t),
       connection = Some served
       ∧ (served < length (si_devices data))%nat
       ∧ SetupRouter.create_setup_rows strptime data session
         = Ok (new_setup, Some device, result.2)
       ∧ Db.setups result.2 = Db.setups session ++ [new_setup]
       ∧ result.1.2
         = Nat.iter served
             (Redis.publish
                (DeviceRouter.instructions_channel (Device.id device))
                SetupRouter.update_setup_payload)
             redis).
Proof.
  intros result reliable. subst result reliable.
  unfold SetupAdmin.create_setup, SetupRouter.create_setup.
  destruct (Db.setup_by_name (si_name data) session) as [taken|].
  { cbn [fst snd Py.of_result]. split_and!; try done.
    by intros e [= <-]. }
  case_bool_decide as Hnames.
  { cbn [fst snd Py.of_result]. split_and!; try done.
    by intros e [= <-]. }
  destruct (SetupRouter.create_setup_rows strptime data session)
    as [[[new_setup device] session']|e0] eqn:Hrows.
  2:{ cbn [fst snd Py.of_result]. split_and!; try done.
      intros e [= <-]. split; [|done].
      by eapply create_setup_rows_Raise. }
  rewrite notify_reliable. cbn [fst snd].
  pose proof (create_setup_setups _ _ _ _ _ _ Hrows) as (Hsetups & _ & _).
  pose proof Hrows as Hlink.
  apply create_setup_rows_link in Hlink as (session0 & Hlink).
  apply link_devices_last in Hlink.
  destruct (si_devices data) as [|i devices] eqn:Hdev.
  { cbn [SetupAdmin.notify SetupRouter.notify fst snd mbind outcome_bind
         Py.bind Py.of_result].
    split_and!; done. }
  rewrite <- Hdev in *.
  destruct (last (si_devices data)) as [last_id|] eqn:Hlast;
    [|apply last_None in Hlast; congruence].
  destruct Hlink as (d & -> & _).
  destruct (notify_published d (si_devices data) redis) as (redis' & Hn & _).
  rewrite Hn, notify_bound. cbn [fst snd Py.of_result].
  destruct connection as [served|].
  - case_bool_decide as Hserved;
      cbn [fst snd mbind outcome_bind Py.bind].
    + split_and!; try done.
      intros _. by exists served, new_setup, d.
    + split_and!; done.
  - cbn [fst snd mbind outcome_bind Py.bind]. split_and!; done.
Qed.

Lemma create_setup_exceptions_witness :
  let session :=
    Db.mk [Device.mk 1 "lobby" "hall" None 0 "k1";
           Device.mk 2 "cafe" "roof" None 0 "k2"] 3 [] 1 [] 1 [] 1 [] 1 in
  let data :=
    {| si_name := "week";
       si_playlists :=
         [PlaylistInput.mk "morning" "08:00" "12:00"
            true true true true true false false
            [{| ib_url := "a.png"; ib_duration := 5 |}] []];
       si_devices := [1; 2] |} in
  let result :=
    SetupAdmin.create_setup SetupRouter.strptime_hm (Some 1%nat) data
      Redis.empty session in
  Db.setups result.2 = [Setup.mk 1 "week"]
  ∧ Redis.published result.1.2
    = [("device:2:instructions", SetupRouter.update_setup_payload)].
Proof.
  intros session data result.
  destruct (create_setup_exceptions SetupRouter.strptime_hm (Some 1%nat) data
              Redis.empty session) as (_ & _ & _ & _ & Hlost).
  destruct Hlost as (served & new_setup & device & Hc & _ & Hrows & Hs & Hr);
    [vm_compute; reflexivity|].
  injection Hc as <-. fold result in Hrows, Hs, Hr.
  vm_compute in Hrows. injection Hrows as <- <-.
  split; [exact Hs|]. rewrite Hr. vm_compute. reflexivity.
Defined.


(** ** Deleting and updating a setup *)

Section delete_setup.
Import DeviceRouter SetupRouter SetupAdmin.

Lemma setup_by_id_id i session setup :
  Store.setup_by_id i session = Some setup →
  setup ∈ Db.setups session ∧ Setup.id setup = i.
Proof.
  intros H. apply find_Some_elem in H as [Hin Hf].
  by apply bool_decide_eq_true in Hf.
Qed.

(** The notification loop of [delete_setup] publishes one instruction per
    linked device, in the order of the table, and nothing else. *)
Lemma delete_setup_Ok setup_id redis session setup :
  Store.setup_by_id setup_id session = Some setup →
  ∃ redis',
    delete_setup setup_id redis session
    = (Ok (JObj [("detail", JStr ("Setup " +:+ pretty setup_id
                                  +:+ " deleted successfully."))]),
       redis', Store.delete_setup setup session)
    ∧ Redis.published redis'
      = Redis.published redis
        ++ ((λ d, (instructions_channel (Device.id d), update_setup_payload))
              <$> devices setup session)
    ∧ Redis.channels redis' = Redis.channels redis
    ∧ Redis.sets redis' = Redis.sets redis
    ∧ Redis.kv redis' = Redis.kv redis.
Proof.
  intros Hsetup. unfold delete_setup. rewrite Hsetup.
  eexists. split; [reflexivity|].
  generalize (devices setup session). intros l. revert redis.
  induction l as [|d l IH]; intros redis; cbn [foldl].
  - by rewrite app_nil_r.
  - destruct (IH (Redis.publish (instructions_channel (Device.id d))
                    update_setup_payload redis)) as (-> & -> & -> & ->).
    cbn [Redis.publish Redis.published Redis.channels Redis.sets Redis.kv
         fmap list_fmap].
    by rewrite <- app_assoc.
Qed.

(** Among rows with distinct ids, the instructions addressed to one row's
    channel are those published for that row. *)
Lemma published_for_other (f : Device.t → bool) (l : list Device.t) i :
  i ∉ Device.id <$> l →
  filter (λ p : string * Json, p.1 = instructions_channel i)
    ((λ d, (instructions_channel (Device.id d), update_setup_payload))
       <$> List.filter f l)
  = [].
Proof.
  induction l as [|y l IH]; intros Hi; [done|].
  rewrite fmap_cons, not_elem_of_cons in Hi. destruct Hi as [Hy Hi].
  cbn [List.filter]. destruct (f y).
  - rewrite fmap_cons, filter_cons. cbn [fst]. case_decide as Hc.
    + apply instructions_channel_inj in Hc. congruence.
    + by apply IH.
  - by apply IH.
Qed.

Lemma published_for_row (f : Device.t → bool) (l : list Device.t) d :
  NoDup (Device.id <$> l) → d ∈ l →
  filter (λ p : string * Json, p.1 = instructions_channel (Device.id d))
    ((λ d, (instructions_channel (Device.id d), update_setup_payload))
       <$> List.filter f l)
  = if f d then [(instructions_channel (Device.id d), update_setup_payload)]
    else [].
Proof.
  induction l as [|y l IH]; intros Hnd Hd; [by apply elem_of_nil in Hd|].
  rewrite fmap_cons in Hnd. apply NoDup_cons in Hnd as [Hy Hnd].
  cbn [List.filter]. apply elem_of_cons in Hd as [->|Hd].
  - destruct (f y).
    + rewrite fmap_cons, filter_cons. cbn [fst].
      rewrite decide_True by done. by rewrite published_for_other.
    + by rewrite published_for_other.
  - assert (Hne : Device.id y ≠ Device.id d).
    { intros Heq. apply Hy. rewrite Heq. by apply list_elem_of_fmap_2. }
    destruct (f y).
    + rewrite fmap_cons, filter_cons. cbn [fst]. case_decide as Hc.
      * apply instructions_channel_inj in Hc. congruence.
      * by apply IH.
    + by apply IH.
Qed.

End delete_setup.

(** X12.  [delete_setup] answers 404 and changes nothing when no setup has
    the id.  Otherwise, on a device table with distinct ids, it succeeds
    and has published exactly one [update_setup] instruction on the channel
    of every device linked to the setup and none on the channel of any other
    device; subscriptions, sets and keys of Redis are untouched. *)
Theorem delete_setup_notifies_linked_devices
    (setup_id : Z) (redis : Redis.t) (session : Db.t) :
  (Store.setup_by_id setup_id session = None →
     SetupAdmin.delete_setup setup_id redis session
     = (Raise (HTTPException HTTP_404_NOT_FOUND
                 ("Setup " +:+ pretty setup_id +:+ " not dound")),
        redis, session))
  ∧ (∀ setup,
       Store.setup_by_id setup_id session = Some setup →
       NoDup (Device.id <$> Db.devices session) →
       ∃ redis',
         SetupAdmin.delete_setup setup_id redis session
         = (Ok (JObj [("detail", JStr ("Setup " +:+ pretty setup_id
                                       +:+ " deleted successfully."))]),
            redis', Store.delete_setup setup session)
         ∧ (∀ d, d ∈ Db.devices session →
              Redis.published_on
                (DeviceRouter.instructions_channel (Device.id d)) redis'
              = Redis.published_on
                  (DeviceRouter.instructions_channel (Device.id d)) redis
                ++ (if bool_decide (Device.setup_id d = Some setup_id)
                    then [SetupRouter.update_setup_payload] else []))
         ∧ Redis.channels redis' = Redis.channels redis
         ∧ Redis.sets redis' = Redis.sets redis
         ∧ Redis.kv redis' = Redis.kv redis).
Proof.
  split.
  - intros Hnone. unfold SetupAdmin.delete_setup. by rewrite Hnone.
  - intros setup Hsetup Hnd.
    destruct (delete_setup_Ok setup_id redis session setup Hsetup)
      as (redis' & Hres & Hpub & Hrest).
    exists redis'. split; [done|]. split; [|done].
    intros d Hd. unfold Redis.published_on. rewrite Hpub, filter_app, fmap_app.
    f_equal. unfold SetupAdmin.devices.
    rewrite (published_for_row _ _ d Hnd Hd).
    apply setup_by_id_id in Hsetup as [_ ->].
    by case_bool_decide.
Qed.

Lemma delete_setup_notifies_linked_devices_witness :
  let session :=
    Db.mk [Device.mk 1 "lobby" "hall" (Some 1) 0 "k1";
           Device.mk 2 "cafe" "floor 1" None 7 "k2";
           Device.mk 3 "bar" "floor 2" (Some 1) 7 "k3"] 4
      [Setup.mk 1 "week"] 2 [] 1 [] 1 [] 1 in
  let redis' := (SetupAdmin.delete_setup 1 Redis.empty session).1.2 in
  Redis.published_on (DeviceRouter.instructions_channel 1) redis'
  = [SetupRouter.update_setup_payload]
  ∧ Redis.published_on (DeviceRouter.instructions_channel 2) redis' = [].
Proof.
  intros session redis'.
  destruct (delete_setup_notifies_linked_devices 1 Redis.empty session)
    as [_ Hdel].
  destruct (Hdel (Setup.mk 1 "week")) as (r & Hres & Hpub & _).
  - reflexivity.
  - apply (bool_decide_unpack _). vm_compute. exact I.
  - assert (Hr : redis' = r).
    { unfold redis'. by rewrite Hres. }
    rewrite Hr. split.
    + apply (Hpub (Device.mk 1 "lobby" "hall" (Some 1) 0 "k1")).
      apply elem_of_cons. by left.
    + apply (Hpub (Device.mk 2 "cafe" "floor 1" None 7 "k2")).
      apply elem_of_cons. right. apply elem_of_cons. by left.
Defined.

Section delete_setup_store.
Import SetupRouter SetupAdmin.

Lemma List_filter_fmap_same {A} (f : A → bool) (g : A → A) (l : list A) :
  (∀ x, f x = true → g x = x) → (∀ x, f x = false → f (g x) = false) →
  List.filter f (g <$> l) = List.filter f l.
Proof.
  intros Htrue Hfalse. induction l as [|x l IH]; [done|].
  rewrite fmap_cons. cbn [List.filter]. destruct (f x) eqn:Hx.
  - rewrite (Htrue x Hx), Hx. by rewrite IH.
  - by rewrite (Hfalse x Hx).
Qed.

Lemma List_filter_filter {A} (f : A → bool) (P : A → Prop)
    `{∀ x, Decision (P x)} (l : list A) :
  (∀ x, x ∈ l → f x = true → P x) →
  List.filter f (filter P l) = List.filter f l.
Proof.
  induction l as [|x l IH]; intros Hf; [done|].
  rewrite filter_cons. cbn [List.filter].
  assert (IH' : List.filter f (filter P l) = List.filter f l).
  { apply IH. intros y Hy. apply Hf. by right. }
  case_decide as Hx.
  - cbn [List.filter]. by rewrite IH'.
  - destruct (f x) eqn:Hfx; [|done]. destruct Hx. apply Hf; [by left|done].
Qed.

(** Deleting one setup leaves the response for any other setup as it
    was. *)
Lemma delete_setup_output setup other session :
  NoDup (Playlist.id <$> Db.playlists session) →
  Setup.id other ≠ Setup.id setup →
  setup_output other (Store.delete_setup setup session)
  = setup_output other session.
Proof.
  intros Hnd Hne. unfold setup_output, Store.delete_setup.
  cbn [Db.devices Db.playlists Db.images Db.videos]. f_equal.
  - f_equal. apply List_filter_fmap_same.
    + intros d Hd. apply bool_decide_eq_true in Hd.
      rewrite bool_decide_eq_false_2; [done|]. congruence.
    + intros d Hd.
      destruct (bool_decide (Device.setup_id d = Some (Setup.id setup)));
        [|exact Hd].
      apply bool_decide_eq_false. cbn. discriminate.
  - rewrite List_filter_filter.
    2:{ intros p _ Hp. apply bool_decide_eq_true in Hp. congruence. }
    apply list_fmap_ext. intros k p Hp.
    apply list_elem_of_lookup_2, list_elem_of_In, filter_In in Hp as [Hp Hs].
    apply list_elem_of_In in Hp. apply bool_decide_eq_true in Hs.
    assert (Hkept : Playlist.id p ∉
              Playlist.id <$>
                filter (λ p, Playlist.setup_id p = Setup.id setup)
                  (Db.playlists session)).
    { intros Hin. apply list_elem_of_fmap in Hin as (p' & Hid & Hp').
      apply list_elem_of_filter in Hp' as [Hs' Hp'].
      assert (p = p') by
        by apply (NoDup_fmap_elem_inj Playlist.id (Db.playlists session)).
      subst p'. congruence. }
    f_equal.
    + apply List_filter_filter. intros i _ Hi.
      apply bool_decide_eq_true in Hi. by rewrite Hi.
    + apply List_filter_filter. intros v _ Hv.
      apply bool_decide_eq_true in Hv. by rewrite Hv.
Qed.

End delete_setup_store.

(** X13.  After [delete_setup], [get_setup_info] answers 404 for the id,
    no device row and no playlist row refers to the setup any more, and no
    device has been deleted; with distinct playlist ids, [get_setup_info]
    answers every other id as before. *)
Theorem delete_setup_removes_only_that_setup
    (setup_id : Z) (redis : Redis.t) (session : Db.t) (setup : Setup.t) :
  Store.setup_by_id setup_id session = Some setup →
  NoDup (Playlist.id <$> Db.playlists session) →
  let session' := (SetupAdmin.delete_setup setup_id redis session).2 in
  SetupAdmin.get_setup_info setup_id session'
  = Raise (HTTPException HTTP_404_NOT_FOUND
             ("Setup " +:+ pretty setup_id +:+ " not dound"))
  ∧ (∀ d, d ∈ Db.devices session' → Device.setup_id d ≠ Some setup_id)
  ∧ (∀ p, p ∈ Db.playlists session' → Playlist.setup_id p ≠ setup_id)
  ∧ Device.id <$> Db.devices session' = Device.id <$> Db.devices session
  ∧ ∀ i, i ≠ setup_id →
         SetupAdmin.get_setup_info i session'
         = SetupAdmin.get_setup_info i session.
Proof.
  intros Hsetup Hnd session'.
  assert (Hs : session' = Store.delete_setup setup session).
  { unfold session', SetupAdmin.delete_setup. by rewrite Hsetup. }
  rewrite Hs. clear Hs session'.
  apply setup_by_id_id in Hsetup as [Hin Hid]. split_and!.
  - unfold SetupAdmin.get_setup_info, Store.setup_by_id.
    rewrite find_None_elem; [done|].
    intros s Hs. apply list_elem_of_filter in Hs as [Hs _].
    apply bool_decide_eq_false. congruence.
  - intros d Hd. unfold Store.delete_setup in Hd. cbn [Db.devices] in Hd.
    apply list_elem_of_fmap in Hd as (d' & -> & Hd').
    case_bool_decide as Hc; [done|]. by rewrite <- Hid.
  - intros p Hp. unfold Store.delete_setup in Hp. cbn [Db.playlists] in Hp.
    apply list_elem_of_filter in Hp as [Hp _]. by rewrite <- Hid.
  - unfold Store.delete_setup. cbn [Db.devices].
    rewrite <- list_fmap_compose. apply list_fmap_ext.
    intros _ d _. cbn. by case_bool_decide.
  - intros i Hi. unfold SetupAdmin.get_setup_info.
    assert (Hfind : Store.setup_by_id i (Store.delete_setup setup session)
                    = Store.setup_by_id i session).
    { unfold Store.setup_by_id, Store.delete_setup. cbn [Db.setups].
      apply find_filter_other. intros s Hs.
      apply bool_decide_eq_true in Hs. congruence. }
    rewrite Hfind.
    destruct (Store.setup_by_id i session) as [other|] eqn:Hother; [|done].
    apply setup_by_id_id in Hother as [_ Hoid].
    rewrite delete_setup_output; [done..|congruence].
Qed.

Lemma delete_setup_removes_only_that_setup_witness :
  let session :=
    Db.mk [Device.mk 1 "lobby" "hall" (Some 1) 0 "k1"] 2
      [Setup.mk 1 "week"; Setup.mk 2 "weekend"] 3
      [Playlist.mk 1 "morning" "08:00" "12:00" true true true true true
         false false 1;
       Playlist.mk 2 "brunch" "10:00" "14:00" false false false false false
         true true 2] 3
      [Image.mk 1 "a.png" 5 1; Image.mk 2 "b.png" 5 2] 3 [] 1 in
  let session' := (SetupAdmin.delete_setup 1 Redis.empty session).2 in
  SetupAdmin.get_setup_info 1 session'
  = Raise (HTTPException HTTP_404_NOT_FOUND "Setup 1 not dound")
  ∧ SetupAdmin.get_setup_info 2 session' = SetupAdmin.get_setup_info 2 session.
Proof.
  intros session session'.
  destruct (delete_setup_removes_only_that_setup 1 Redis.empty session
              (Setup.mk 1 "week")) as (Hgone & _ & _ & _ & Hother).
  - reflexivity.
  - apply (bool_decide_unpack _). vm_compute. exact I.
  - split; [exact Hgone|]. apply Hother. discriminate.
Defined.

Section update_setup.
Import SetupAdmin.
Variable strptime : string → option Z.

(** [SetupUpdate] has no field [playlists]. *)
Lemma getattr_playlists data :
  getattr data "playlists" = Py.AttributeError "playlists".
Proof. reflexivity. Qed.

(** The loop over the days leaves at its first statement. *)
Lemma check_days_raises data :
  for_each_outcome (check_day strptime data) SetupRouter.days ()
  = Py.AttributeError "playlists".
Proof.
  unfold SetupRouter.days. cbn [for_each_outcome]. unfold check_day.
  by rewrite getattr_playlists.
Qed.

(** A flush is refused or leaves no name pending. *)
Lemma flush_cases setup tx :
  flush setup tx = Py.IntegrityError
  ∨ ∃ session,
      flush setup tx = Py.Returns {| tx_session := session; tx_name := None |}.
Proof.
  unfold flush. destruct tx as [session [name|]]; cbn [tx_name tx_session].
  - case_bool_decide; [right; by eexists|].
    destruct (List.find _ _); [by left|right; by eexists].
  - right. by eexists.
Qed.

Lemma delete_listed_playlist_cases setup i tx :
  (flush setup tx = Py.IntegrityError
   ∧ delete_listed_playlist setup i tx = Py.IntegrityError)
  ∨ ∃ session session',
      flush setup tx
      = Py.Returns {| tx_session := session; tx_name := None |}
      ∧ delete_listed_playlist setup i tx
        = Py.Returns {| tx_session := session'; tx_name := None |}.
Proof.
  unfold delete_listed_playlist.
  destruct (flush_cases setup tx) as [->|[session ->]]; [by left|right].
  cbn [mbind outcome_bind Py.bind tx_session tx_name].
  destruct (Store.playlist_of_setup i (Setup.id setup) session);
    by eexists _, _.
Qed.

(** Once nothing is pending the deletions go through. *)
Lemma delete_listed_playlists_flushed setup playlists session :
  ∃ tx',
    for_each_outcome (delete_listed_playlist setup) playlists
      {| tx_session := session; tx_name := None |}
    = Py.Returns tx'.
Proof.
  revert session. induction playlists as [|i playlists IH]; intros session.
  - by eexists.
  - cbn [for_each_outcome].
    destruct (delete_listed_playlist_cases setup i
                {| tx_session := session; tx_name := None |})
      as [[Hflush _]|(s1 & s2 & _ & ->)]; [done|].
    cbn [mbind outcome_bind Py.bind]. apply IH.
Qed.

(** The deletions are refused exactly when there is one and the first
    flush is refused. *)
Lemma delete_listed_playlists_cases setup playlists tx :
  (playlists ≠ [] ∧ flush setup tx = Py.IntegrityError
   ∧ for_each_outcome (delete_listed_playlist setup) playlists tx
     = Py.IntegrityError)
  ∨ ((playlists = [] ∨ ∃ tx0, flush setup tx = Py.Returns tx0)
     ∧ ∃ tx', for_each_outcome (delete_listed_playlist setup) playlists tx
              = Py.Returns tx').
Proof.
  destruct playlists as [|i playlists].
  - right. split; [by left|by eexists].
  - cbn [for_each_outcome].
    destruct (delete_listed_playlist_cases setup i tx)
      as [[Hflush ->]|(s1 & s2 & Hflush & ->)].
    + left. by split_and!.
    + right. split; [right; by eexists|].
      cbn [mbind outcome_bind Py.bind].
      apply delete_listed_playlists_flushed.
Qed.

Lemma update_setup_rows_cases setup data session :
  let tx :=
    {| tx_session := session;
       tx_name := match su_name data with
                  | Some name =>
                      if bool_decide (name ≠ "") then Some name else None
                  | None => None
                  end |} in
  (su_playlists_to_delete data ≠ [] ∧ flush setup tx = Py.IntegrityError
   ∧ update_setup_rows strptime setup data session = Py.IntegrityError)
  ∨ ((su_playlists_to_delete data = []
      ∨ ∃ tx0, flush setup tx = Py.Returns tx0)
     ∧ update_setup_rows strptime setup data session
       = Py.AttributeError "playlists").
Proof.
  intros tx. unfold update_setup_rows. fold tx.
  destruct (delete_listed_playlists_cases setup (su_playlists_to_delete data)
              tx) as [(Hne & Hflush & ->)|[Hok [tx' ->]]].
  - left. by split_and!.
  - right. split; [done|].
    cbn [mbind outcome_bind Py.bind]. by rewrite check_days_raises.
Qed.

End update_setup.

(** X14.  [update_setup] never returns a setup, and whatever it raises
    nothing has been published and the store is as it was.  It ends with
    404 when no setup has the id.  For a setup that exists it ends with the
    store's [IntegrityError] or with an [AttributeError]: the loop over the
    days reads [data.playlists], and [SetupUpdate] has no such field.  With
    no playlist listed for deletion it is the [AttributeError]; when a
    playlist is listed for deletion and the request renames the setup to a
    name another setup carries, it is the [IntegrityError], raised by the
    flush before the first query. *)
Theorem update_setup_never_succeeds
    (strptime : string → option Z) (setup_id : Z) (data : SetupUpdate)
    (redis : Redis.t) (session : Db.t) :
  let result := SetupAdmin.update_setup strptime setup_id data redis session in
  (∀ out, result.1.1 ≠ Py.Returns out)
  ∧ result.1.2 = redis
  ∧ result.2 = session
  ∧ (Store.setup_by_id setup_id session = None →
     result.1.1
     = Py.Raises (HTTPException HTTP_404_NOT_FOUND
                    ("Setup " +:+ pretty setup_id +:+ " not dound")))
  ∧ (∀ setup,
       Store.setup_by_id setup_id session = Some setup →
       (result.1.1 = Py.IntegrityError
        ∨ result.1.1 = Py.AttributeError "playlists")
       ∧ (su_playlists_to_delete data = [] →
          result.1.1 = Py.AttributeError "playlists")
       ∧ ∀ name other,
           su_name data = Some name → name ≠ "" →
           name ≠ Setup.name setup →
           other ∈ Db.setups session →
           Setup.name other = name → Setup.id other ≠ Setup.id setup →
           su_playlists_to_delete data ≠ [] →
           result.1.1 = Py.IntegrityError).
Proof.
  intros result. unfold result, SetupAdmin.update_setup.
  destruct (Store.setup_by_id setup_id session) as [setup|] eqn:Hsetup;
    [|cbn; split_and!; done].
  destruct (update_setup_rows_cases strptime setup data session)
    as [(Hne & Hflush & ->)|[Hok ->]]; cbn [fst snd].
  - split_and!; try done. intros setup' [= <-]. split_and!; [by left|done|done].
  - split_and!; try done. intros setup' [= <-].
    split_and!; [by right|done|].
    intros name other Hname Hempty Hrename Hother Hsame Hid Hdel.
    destruct Hok as [Hnil|[tx0 Hflush]]; [done|].
    exfalso. revert Hflush. unfold SetupAdmin.flush.
    cbn [SetupAdmin.tx_name SetupAdmin.tx_session].
    rewrite Hname, (bool_decide_eq_true_2 _ Hempty).
    rewrite (bool_decide_eq_false_2 _ Hrename).
    destruct (find_is_Some
                (λ s, bool_decide (Setup.name s = name
                                   ∧ Setup.id s ≠ Setup.id setup))
                (Db.setups session) other) as [s' ->]; [done| |done].
    by apply bool_decide_eq_true.
Qed.

Lemma update_setup_never_succeeds_witness :
  let session :=
    Db.mk [] 1 [Setup.mk 1 "week"; Setup.mk 2 "weekend"] 3
      [Playlist.mk 1 "morning" "08:00" "12:00" true true true true true
         false false 1] 2 [] 1 [] 1 in
  let rename :=
    {| su_name := Some "weekend"; su_playlists_to_add := [];
       su_playlists_to_update := []; su_playlists_to_delete := [1];
       su_devices_to_add := []; su_devices_to_remove := [] |} in
  let plain :=
    {| su_name := Some "week 2"; su_playlists_to_add := [];
       su_playlists_to_update := []; su_playlists_to_delete := [];
       su_devices_to_add := []; su_devices_to_remove := [] |} in
  (SetupAdmin.update_setup SetupRouter.strptime_hm 1 rename Redis.empty
     session).1.1 = Py.IntegrityError
  ∧ (SetupAdmin.update_setup SetupRouter.strptime_hm 1 plain Redis.empty
       session).1.1 = Py.AttributeError "playlists".
Proof.
  intros session rename plain. split.
  - destruct (update_setup_never_succeeds SetupRouter.strptime_hm 1 rename
                Redis.empty session) as (_ & _ & _ & _ & Hsetup).
    destruct (Hsetup (Setup.mk 1 "week")) as (_ & _ & Hrefused);
      [reflexivity|].
    apply (Hrefused "weekend" (Setup.mk 2 "weekend")); try done.
    apply elem_of_cons. right. apply elem_of_cons. by left.
  - destruct (update_setup_never_succeeds SetupRouter.strptime_hm 1 plain
                Redis.empty session) as (_ & _ & _ & _ & Hsetup).
    destruct (Hsetup (Setup.mk 1 "week")) as (_ & Hplain & _);
      [reflexivity|].
    by apply Hplain.
Defined.


(** ** The code stream *)

Section code_stream_frames.
Import CodeStream CodeStreamFacts.

Lemma message_line_message message_data :
  message_line (message_frame message_data) = true.
Proof. reflexivity. Qed.

Lemma message_line_heartbeat : message_line heartbeat_frame = false.
Proof. reflexivity. Qed.

Lemma message_line_TIMEOUT : message_line TIMEOUT = false.
Proof. reflexivity. Qed.

Lemma has_heartbeat_heartbeat : has_heartbeat heartbeat_frame.
Proof. reflexivity. Qed.

Lemma messages_app l k : messages (l ++ k) = (messages l + messages k)%nat.
Proof. unfold messages. by rewrite List.filter_app, length_app. Qed.

Lemma messages_cons f l :
  messages (f :: l)
  = ((if message_line f then 1 else 0) + messages l)%nat.
Proof. unfold messages. cbn [List.filter]. by destruct (message_line f). Qed.

Lemma messages_is_message f : is_message f → messages [f] = 1%nat.
Proof. intros [d ->]. reflexivity. Qed.

Lemma is_message_not_TIMEOUT f : is_message f → f ≠ TIMEOUT.
Proof. intros [d ->]. discriminate. Qed.

Lemma cancel_not_Finished l : cancel l ≠ Finished → l ≠ Finished.
Proof. by destruct l. Qed.

Ltac stream_cbn :=
  cbn [code conn gen listener_task heartbeat_task timeout_task queue sent
       pubsub_cleaned_up redis] in *.

Ltac stream_step :=
  unfold step, queue_get, event_generator_finally, put in *;
  stream_cbn;
  repeat (match goal with
          | |- context [match ?x with _ => _ end] => is_var x; destruct x
          | |- context [bool_decide (?x = TIMEOUT)] =>
              destruct (decide (x = TIMEOUT));
              [rewrite (bool_decide_eq_true_2 (x = TIMEOUT)) by done
              |rewrite (bool_decide_eq_false_2 (x = TIMEOUT)) by done]
          | |- context [contains "heartbeat" ?x] =>
              is_var x; destruct (contains "heartbeat" x) eqn:?
          end; stream_cbn).

Ltac stream_facts :=
  repeat match goal with
         | H : Forall _ (_ :: _) |- _ => apply Forall_cons in H as [? ?]
         | H : Forall _ (_ ++ _) |- _ => apply Forall_app in H as [? ?]
         | H : context [messages (_ ++ _)] |- _ => rewrite messages_app in H
         | H : context [messages (_ :: _)] |- _ => rewrite messages_cons in H
         | |- context [messages (_ ++ _)] => rewrite messages_app
         | |- context [messages (_ :: _)] => rewrite messages_cons
         end.

Ltac forall_heartbeat :=
  first
    [ assumption
    | match goal with
      | H : ∃ init, _ = init ++ [_] ∧ _ |- _ =>
          destruct H as (? & -> & ?); apply Forall_app; split;
          [assumption|by apply Forall_singleton]
      end ].

Ltac sent_last :=
  first
    [ assumption
    | forall_heartbeat
    | match goal with
      | |- ∃ init, ?snt ++ [?s] = init ++ [?s] ∧ _ =>
          exists snt; split; [reflexivity|forall_heartbeat]
      end
    | match goal with
      | H : ∃ init, ?snt = init ++ [?s] ∧ _ |- ∃ init tail, ?snt = _ ∧ _ =>
          destruct H as (init & -> & ?); exists init, [s];
          split_and!; [reflexivity|assumption|cbn; lia]
      end
    | match goal with
      | |- ∃ init tail, ?snt = _ ∧ _ =>
          exists snt, []; rewrite app_nil_r;
          split_and!; [reflexivity|forall_heartbeat|cbn; lia]
      end ].

Ltac sent_frames :=
  first
    [ assumption
    | apply Forall_app; split; [assumption|]; apply Forall_singleton;
      match goal with
      | H : ?s = heartbeat_frame ∨ ?s = TIMEOUT ∨ is_message ?s |- _ =>
          destruct H as [?|[?|?]]; [by left|done|by right]
      end ].

Ltac queue_frames :=
  first
    [ assumption
    | by constructor
    | apply Forall_app; split; [assumption|]; apply Forall_singleton;
      first [by left|by right; left|right; right; by eexists] ].

Ltac count_messages :=
  repeat match goal with
         | H : ?l ≠ Finished → _ |- _ =>
             first [specialize (H ltac:(done))|clear H]
         end;
  subst;
  rewrite ?app_nil_r, ?message_line_TIMEOUT, ?message_line_heartbeat,
    ?message_line_message in *;
  change (messages []) with 0%nat in *;
  lia.

Lemma code_stream_step_well_formed e s : well_formed s → well_formed (step e s).
Proof.
  unfold well_formed.
  destruct s as [c cn g l h t q snt f r]. stream_cbn.
  intros (Hfresh & Hsent & Hqueue & Hone & Hnone & Hlast).
  destruct e, g; stream_step.
  all: try (specialize (Hfresh ltac:(auto));
            destruct Hfresh as (? & ? & ? & ? & ?); subst; try discriminate).
  all: try (split_and!; done).
  all: stream_facts.
  all: split_and!;
    [ by intros [?|?]
    | sent_frames
    | queue_frames
    | count_messages
    | intros Hl; first
        [ by destruct Hl
        | try apply cancel_not_Finished in Hl; count_messages ]
    | sent_last ].
Qed.

Lemma code_stream_run_well_formed trace s : well_formed s → well_formed (run trace s).
Proof.
  revert s. induction trace as [|e trace IH]; intros s Hs; [done|].
  cbn [run foldl]. apply IH. by apply code_stream_step_well_formed.
Qed.

Lemma well_formed_initial code conn redis :
  well_formed (event_generator code conn redis).
Proof.
  unfold well_formed, event_generator. stream_cbn.
  split_and!; try done; by constructor.
Qed.

Lemma messages_at_most_one l i j x y :
  (messages l ≤ 1)%nat → l !! i = Some x → l !! j = Some y →
  message_line x = true → message_line y = true → i = j.
Proof.
  revert i j. induction l as [|z l IH]; intros i j Hle Hi Hj Hx Hy;
    [done|].
  rewrite messages_cons in Hle.
  destruct i as [|i], j as [|j]; cbn in Hi, Hj.
  - done.
  - injection Hi as ->. rewrite Hx in Hle.
    assert (Hin : y ∈ List.filter message_line l).
    { apply list_elem_of_In, filter_In.
      split; [|done]. by eapply list_elem_of_In, list_elem_of_lookup_2. }
    unfold messages in Hle.
    destruct (List.filter message_line l); [by apply elem_of_nil in Hin|].
    cbn in Hle. lia.
  - injection Hj as ->. rewrite Hy in Hle.
    assert (Hin : x ∈ List.filter message_line l).
    { apply list_elem_of_In, filter_In.
      split; [|done]. by eapply list_elem_of_In, list_elem_of_lookup_2. }
    unfold messages in Hle.
    destruct (List.filter message_line l); [by apply elem_of_nil in Hin|].
    cbn in Hle. lia.
  - f_equal. apply IH; try done. destruct (message_line z); lia.
Qed.

Lemma last_without_heartbeat (l init tail : list string) i f :
  l = init ++ tail → Forall has_heartbeat init → (length tail ≤ 1)%nat →
  l !! i = Some f → contains "heartbeat" f = false →
  tail = [f] ∧ length l = S i.
Proof.
  intros -> Hinit Htail Hi Hf.
  destruct (decide (i < length init)%nat) as [Hlt|Hge].
  - rewrite lookup_app_l in Hi by done.
    rewrite Forall_forall in Hinit.
    apply list_elem_of_lookup_2, Hinit in Hi. unfold has_heartbeat in Hi.
    congruence.
  - rewrite lookup_app_r in Hi by lia.
    destruct tail as [|x [|y tail]]; [done| |cbn in Htail; lia].
    destruct (i - length init)%nat eqn:Hdiff; [|done].
    cbn in Hi. injection Hi as ->. split; [done|].
    rewrite length_app. cbn. lia.
Qed.

Lemma subscribers_subscribe_eq conn channel redis :
  Redis.subscribers channel (Redis.subscribe conn channel redis)
  = {[conn]} ∪ Redis.subscribers channel redis.
Proof. rewrite subscribers_subscribe. by rewrite decide_True. Qed.

Lemma subscribers_unsubscribe conn channel redis :
  Redis.subscribers channel (Redis.unsubscribe conn redis)
  = Redis.subscribers channel redis ∖ {[conn]}.
Proof.
  unfold Redis.subscribers, Redis.unsubscribe. cbn [Redis.channels].
  rewrite lookup_fmap.
  destruct (Redis.channels redis !! channel); cbn; [done|].
  symmetry. apply empty_difference_L.
Qed.

Lemma subscribers_unsubscribe_from_eq conn channel redis :
  Redis.subscribers channel (Redis.unsubscribe_from conn channel redis)
  = Redis.subscribers channel redis ∖ {[conn]}.
Proof.
  unfold Redis.subscribers, Redis.unsubscribe_from. cbn [Redis.channels].
  rewrite lookup_alter, decide_True by done.
  destruct (Redis.channels redis !! channel); cbn; [done|].
  symmetry. apply empty_difference_L.
Qed.

Lemma without_conn (conn : nat) (subscribers : gset nat) :
  conn ∉ subscribers → subscribers ∖ {[conn]} = subscribers.
Proof. intros H. by apply difference_disjoint_L, disjoint_singleton_r. Qed.

Lemma with_and_without_conn (conn : nat) (subscribers : gset nat) :
  conn ∉ subscribers → ({[conn]} ∪ subscribers) ∖ {[conn]} = subscribers.
Proof.
  intros H. rewrite difference_union_distr_l_L, difference_diag_L.
  rewrite (left_id_L ∅ (∪)). by apply without_conn.
Qed.

Lemma step_subscription subscribers e s :
  conn s ∉ subscribers →
  subscription subscribers s → subscription subscribers (step e s).
Proof.
  unfold subscription.
  destruct s as [c cn g l h t q snt f r]. stream_cbn. intros Hconn Hsub.
  destruct e, g; stream_step; destruct_and?; subst; try done.
  all: unfold aclose;
    rewrite ?subscribers_unsubscribe, ?subscribers_unsubscribe_from_eq,
      ?subscribers_subscribe_eq;
    repeat match goal with
           | H : Redis.subscribers _ _ = _ |- _ => rewrite H
           end;
    rewrite ?with_and_without_conn, ?without_conn by done;
    try done.
Qed.

Lemma step_code_conn e s : code (step e s) = code s ∧ conn (step e s) = conn s.
Proof.
  destruct s as [c cn g l h t q snt f r]. destruct e, g; stream_step; done.
Qed.

Lemma run_code_conn trace s :
  code (run trace s) = code s ∧ conn (run trace s) = conn s.
Proof.
  revert s. induction trace as [|e trace IH]; intros s; [done|].
  cbn [run foldl]. destruct (IH (step e s)) as [Hc Hn].
  destruct (step_code_conn e s) as [Hc' Hn'].
  unfold run in Hc, Hn. by rewrite Hc, Hn, Hc', Hn'.
Qed.

Lemma run_subscription subscribers trace s :
  conn s ∉ subscribers →
  subscription subscribers s → subscription subscribers (run trace s).
Proof.
  revert s. induction trace as [|e trace IH]; intros s Hconn Hs; [done|].
  cbn [run foldl]. apply IH.
  - by destruct (step_code_conn e s) as [_ ->].
  - by apply step_subscription.
Qed.

(** The subscribers of the code while the generator is inside the loop and
    after it has ended. *)
Lemma code_stream_subscribers code conn redis trace :
  conn ∉ Redis.subscribers code redis →
  let s := run trace (event_generator code conn redis) in
  (gen s = Streaming ∨ (∃ item, gen s = Yielded item) →
   Redis.subscribers code (CodeStream.redis s)
   = {[conn]} ∪ Redis.subscribers code redis)
  ∧ (gen s = Closed →
     Redis.subscribers code (CodeStream.redis s)
     = Redis.subscribers code redis).
Proof.
  intros Hconn s.
  pose proof (run_subscription (Redis.subscribers code redis) trace
                (event_generator code conn redis) Hconn) as Hsub.
  fold s in Hsub. unfold subscription in Hsub.
  destruct (run_code_conn trace (event_generator code conn redis))
    as [Hc Hn].
  fold s in Hc, Hn. cbn in Hc, Hn. rewrite Hc, Hn in Hsub.
  specialize (Hsub ltac:(by split)). split.
  - intros [Hg|[item Hg]]; rewrite Hg in Hsub; by destruct Hsub as (_ & _ & ?).
  - intros Hg. by rewrite Hg in Hsub.
Qed.

End code_stream_frames.

(** X15.  Whatever happens to a code stream, the frames it has sent are
    heartbeat frames and message frames only, so ["TIMEOUT"] is never
    sent; at most one message frame is sent; and a frame that does not
    contain the text [heartbeat] is the last frame sent, the generator
    being suspended right after it or closed.  A message that arrives while
    the stream waits is sent at the next resumption, and if its frame does
    not contain [heartbeat] the resumption after that closes the stream. *)
Theorem code_stream_frames
    (code : string) (conn : nat) (redis : Redis.t)
    (trace : list CodeStream.Event) :
  let s := CodeStream.run trace (CodeStream.event_generator code conn redis) in
  (∀ f, f ∈ CodeStream.sent s →
        f = CodeStream.heartbeat_frame
        ∨ ∃ message_data, f = CodeStream.message_frame message_data)
  ∧ (CodeStream.TIMEOUT ∉ CodeStream.sent s)
  ∧ (∀ i j d d',
       CodeStream.sent s !! i = Some (CodeStream.message_frame d) →
       CodeStream.sent s !! j = Some (CodeStream.message_frame d') →
       i = j)
  ∧ (∀ i f,
       CodeStream.sent s !! i = Some f →
       CodeStream.contains "heartbeat" f = false →
       length (CodeStream.sent s) = S i
       ∧ (CodeStream.gen s = CodeStream.Yielded f
          ∨ CodeStream.gen s = CodeStream.Closed))
  ∧ ∀ message_data,
      let s1 :=
        CodeStream.run
          [CodeStream.Next; CodeStream.Subscribed;
           CodeStream.Inbound message_data; CodeStream.Next]
          (CodeStream.event_generator code conn redis) in
      CodeStream.sent s1 = [CodeStream.message_frame message_data]
      ∧ (CodeStream.contains "heartbeat"
           (CodeStream.message_frame message_data) = false →
         CodeStream.gen (CodeStream.step CodeStream.Next s1)
         = CodeStream.Closed).
Proof.
  intros s.
  pose proof (code_stream_run_well_formed trace _ (well_formed_initial code conn redis))
    as (_ & Hsent & _ & Hone & _ & Hlast).
  fold s in Hsent, Hone, Hlast. rewrite messages_app in Hone.
  rewrite Forall_forall in Hsent. split_and!.
  - exact Hsent.
  - intros Hin. apply Hsent in Hin as [Hin|Hin]; [discriminate|].
    by apply is_message_not_TIMEOUT in Hin.
  - intros i j d d' Hi Hj.
    apply (messages_at_most_one (CodeStream.sent s) i j
             (CodeStream.message_frame d) (CodeStream.message_frame d'));
      try done.
    lia.
  - intros i f Hi Hf. destruct (CodeStream.gen s) as [| | |item|].
    + rewrite Forall_forall in Hlast.
      apply list_elem_of_lookup_2, Hlast in Hi.
      unfold CodeStreamFacts.has_heartbeat in Hi. congruence.
    + rewrite Forall_forall in Hlast.
      apply list_elem_of_lookup_2, Hlast in Hi.
      unfold CodeStreamFacts.has_heartbeat in Hi. congruence.
    + rewrite Forall_forall in Hlast.
      apply list_elem_of_lookup_2, Hlast in Hi.
      unfold CodeStreamFacts.has_heartbeat in Hi. congruence.
    + destruct Hlast as (init & Hs & Hinit).
      destruct (last_without_heartbeat _ init [item] i f Hs Hinit)
        as [Heq Hlen]; [cbn; lia|done..|].
      injection Heq as ->. auto.
    + destruct Hlast as (init & tail & Hs & Hinit & Htail).
      destruct (last_without_heartbeat _ init tail i f Hs Hinit Htail)
        as [_ Hlen]; [done..|]. auto.
  - intros message_data s1. unfold s1.
    cbn [CodeStream.run foldl CodeStream.step CodeStream.event_generator
         CodeStream.gen CodeStream.listener_task CodeStream.put
         CodeStream.queue CodeStream.queue_get CodeStream.sent
         CodeStream.code CodeStream.conn CodeStream.heartbeat_task
         CodeStream.timeout_task CodeStream.pubsub_cleaned_up
         CodeStream.redis app].
    rewrite bool_decide_eq_false_2
      by (apply is_message_not_TIMEOUT; by eexists).
    cbn [CodeStream.sent CodeStream.gen app]. split; [done|].
    intros ->. reflexivity.
Qed.


Lemma code_stream_frames_witness :
  let s :=
    CodeStream.run
      [CodeStream.Next; CodeStream.Subscribed; CodeStream.Tick;
       CodeStream.TimedOut; CodeStream.Next; CodeStream.Next]
      (CodeStream.event_generator "123456789" 7 Redis.empty) in
  CodeStream.TIMEOUT ∉ CodeStream.sent s.
Proof.
  intros s.
  destruct (code_stream_frames "123456789" 7 Redis.empty
              [CodeStream.Next; CodeStream.Subscribed; CodeStream.Tick;
               CodeStream.TimedOut; CodeStream.Next; CodeStream.Next])
    as (_ & H & _).
  exact H.
Defined.

(** X16.  The connection of a code stream is subscribed to its code exactly
    while the generator is inside its loop: from the SUBSCRIBE reply on it
    is one subscriber more, and once the generator has ended, by the
    message, the timeout or an interruption, the subscribers of the code are
    those of before, so that [get_device_status_by_code] answers a new
    request for the code as it did before the stream. *)
Theorem code_stream_releases_code
    (code : string) (conn : nat) (redis : Redis.t)
    (trace : list CodeStream.Event) :
  conn ∉ Redis.subscribers code redis →
  let s := CodeStream.run trace (CodeStream.event_generator code conn redis) in
  (CodeStream.gen s = CodeStream.Streaming
   ∨ (∃ item, CodeStream.gen s = CodeStream.Yielded item) →
   Redis.subscribers code (CodeStream.redis s)
   = {[conn]} ∪ Redis.subscribers code redis)
  ∧ (CodeStream.gen s = CodeStream.Closed →
     Redis.subscribers code (CodeStream.redis s)
     = Redis.subscribers code redis
     ∧ CodeRouter.get_device_status_by_code code (CodeStream.redis s)
       = CodeRouter.get_device_status_by_code code redis).
Proof.
  intros Hconn s.
  destruct (code_stream_subscribers code conn redis trace Hconn)
    as [Hopen Hclosed].
  split; [exact Hopen|]. intros Hg. specialize (Hclosed Hg).
  split; [exact Hclosed|].
  unfold CodeRouter.get_device_status_by_code, Redis.pubsub_numsub.
  subst s. by rewrite Hclosed.
Qed.

Lemma code_stream_releases_code_witness :
  let s :=
    CodeStream.run
      [CodeStream.Next; CodeStream.Subscribed; CodeStream.TimedOut;
       CodeStream.Next]
      (CodeStream.event_generator "123456789" 7 Redis.empty) in
  Redis.subscribers "123456789" (CodeStream.redis s) = ∅
  ∧ CodeRouter.get_device_status_by_code "123456789" (CodeStream.redis s)
    = Ok "123456789".
Proof.
  intros s.
  destruct (code_stream_releases_code "123456789" 7 Redis.empty
              [CodeStream.Next; CodeStream.Subscribed; CodeStream.TimedOut;
               CodeStream.Next]) as [_ Hclosed].
  - apply not_elem_of_empty.
  - apply Hclosed. reflexivity.
Defined.

(** X17.  While a code stream is inside its loop, [create_device] for that
    code never answers that no client is awaiting; once the stream has
    ended, and if no other connection was subscribed to the code, it
    answers exactly that and registers nothing. *)
Theorem create_device_during_code_stream
    (data : DeviceInput) (now : Z) (tokens : list string) (session : Db.t)
    (conn : nat) (redis : Redis.t) (trace : list CodeStream.Event) :
  Redis.pubsub_numsub (DeviceRouter.code_channel (di_code data)) redis = 0 →
  let s :=
    CodeStream.run trace
      (CodeStream.event_generator (DeviceRouter.code_channel (di_code data))
         conn redis) in
  (CodeStream.gen s = CodeStream.Streaming
   ∨ (∃ item, CodeStream.gen s = CodeStream.Yielded item) →
   ∀ detail redis' session',
     DeviceRouter.create_device data now tokens (CodeStream.redis s) session
     ≠ Some (Raise (HTTPException HTTP_404_NOT_FOUND detail),
             redis', session'))
  ∧ (CodeStream.gen s = CodeStream.Closed →
     DeviceRouter.create_device data now tokens (CodeStream.redis s) session
     = Some (Raise (HTTPException HTTP_404_NOT_FOUND
                      ("No Client awaiting with the following pin: "
                       +:+ pretty (di_code data))),
             CodeStream.redis s, session)).
Proof.
  intros Hnone s. apply numsub_zero in Hnone.
  destruct (code_stream_subscribers
              (DeviceRouter.code_channel (di_code data)) conn redis trace)
    as [Hopen Hclosed].
  { rewrite Hnone. apply not_elem_of_empty. }
  subst s. split.
  - intros Hg detail redis' session'. specialize (Hopen Hg).
    unfold DeviceRouter.create_device.
    rewrite bool_decide_eq_false_2.
    + destruct (Db.device_by_name (di_name data) session); [discriminate|].
      destruct (DeviceRouter.generate_api_key_loop tokens session);
        [|discriminate].
      unfold Db.add_device. discriminate.
    + intros Hzero. apply numsub_zero in Hzero. rewrite Hopen in Hzero.
      assert (Hin : conn ∈ ({[conn]} ∪ Redis.subscribers
                (DeviceRouter.code_channel (di_code data)) redis : gset nat))
        by (apply elem_of_union; left; by apply elem_of_singleton).
      rewrite Hzero in Hin. by apply not_elem_of_empty in Hin.
  - intros Hg. specialize (Hclosed Hg).
    unfold DeviceRouter.create_device.
    rewrite bool_decide_eq_true_2; [done|].
    unfold Redis.pubsub_numsub. rewrite Hclosed, Hnone. by rewrite size_empty.
Qed.

Lemma create_device_during_code_stream_witness :
  let data :=
    {| di_name := "cafe"; di_location := "floor 1"; di_setup_id := None;
       di_code := 123456789 |} in
  let s :=
    CodeStream.run
      [CodeStream.Next; CodeStream.Subscribed; CodeStream.Throw Cancellation]
      (CodeStream.event_generator "123456789" 7 Redis.empty) in
  DeviceRouter.create_device data 5 ["k1"] (CodeStream.redis s) Db.empty
  = Some (Raise (HTTPException HTTP_404_NOT_FOUND
                   "No Client awaiting with the following pin: 123456789"),
          CodeStream.redis s, Db.empty).
Proof.
  intros data s.
  destruct (create_device_during_code_stream data 5 ["k1"] Db.empty 7
              Redis.empty
              [CodeStream.Next; CodeStream.Subscribed;
               CodeStream.Throw Cancellation]) as [_ Hclosed].
  - reflexivity.
  - apply Hclosed. reflexivity.
Defined.


(** ** A device session: delivery, subscription and last-seen time *)

Section device_session_facts.
Import DeviceRouter DeviceSession DeviceSessionFacts.

Ltac facts_cbn :=
  cbn [device conn gen listener_task heartbeat_task queue sent cleanup_log
       redis session] in *.

Ltac facts_step :=
  unfold step, event_generator_finally, message_listener_cancelled, put,
    cancel in *;
  facts_cbn;
  repeat (match goal with
          | |- context [match ?x with _ => _ end] => is_var x; destruct x
          | H : context [match ?x with _ => _ end] |- _ =>
              is_var x; destruct x
          end; facts_cbn).

Lemma step_delivers e s :
  gen s = Streaming → listener_task s = Waiting → heartbeat_task s = Waiting →
  is_throw e = false →
  gen (step e s) = Streaming
  ∧ listener_task (step e s) = Waiting
  ∧ heartbeat_task (step e s) = Waiting
  ∧ sent (step e s) ++ queue (step e s) = sent s ++ queue s ++ enqueued e
  ∧ sent s `prefix_of` sent (step e s).
Proof.
  destruct s as [d c g l h q snt lg r db]. facts_cbn.
  intros -> -> -> He.
  destruct e; try discriminate; facts_step; cbn [enqueued];
    rewrite ?app_nil_r; split_and!; try done.
  - by rewrite <- app_assoc.
  - by apply prefix_app_r.
Qed.

Lemma subscribers_publish channel channel' message redis :
  Redis.subscribers channel (Redis.publish channel' message redis)
  = Redis.subscribers channel redis.
Proof. done. Qed.

Lemma subscribers_sadd channel key member redis :
  Redis.subscribers channel (Redis.sadd key member redis)
  = Redis.subscribers channel redis.
Proof. done. Qed.

Lemma subscribers_srem channel key member redis :
  Redis.subscribers channel (Redis.srem key member redis)
  = Redis.subscribers channel redis.
Proof. done. Qed.

Lemma step_session_subscription subscribers e s :
  conn s ∉ subscribers →
  subscription subscribers s → subscription subscribers (step e s).
Proof.
  unfold subscription.
  destruct s as [d c g l h q snt lg r db]. facts_cbn.
  intros Hconn (Hbefore & Hinside & Hafter & Hsub).
  destruct e, g; facts_step;
    try specialize (Hbefore ltac:(auto));
    try specialize (Hinside ltac:(auto));
    try specialize (Hafter ltac:(auto));
    try discriminate; try done.
  all: cbn [Device.id Device.set_last_seen];
    rewrite ?subscribers_unsubscribe, ?subscribers_publish, ?subscribers_srem,
      ?subscribers_subscribe_eq, ?Hsub;
    rewrite ?with_and_without_conn, ?without_conn by done;
    split_and!; try done; by intros [?|?].
Qed.

Lemma step_session_conn e s :
  conn (step e s) = conn s ∧ Device.id (device (step e s)) = Device.id (device s).
Proof.
  destruct s as [d c g l h q snt lg r db]. destruct e, g; facts_step; done.
Qed.

Lemma run_session_subscription subscribers trace s :
  conn s ∉ subscribers →
  subscription subscribers s →
  subscription subscribers (run trace s)
  ∧ Device.id (device (run trace s)) = Device.id (device s).
Proof.
  revert s. induction trace as [|e trace IH]; intros s Hconn Hs; [done|].
  cbn [run foldl]. destruct (step_session_conn e s) as [Hc Hd].
  destruct (IH (step e s)) as [Hsub Hid].
  - by rewrite Hc.
  - by apply step_session_subscription.
  - split; [done|]. unfold run in Hid. by rewrite Hid.
Qed.

Lemma device_exists_update i d session :
  device_exists i session → device_exists i (Db.update_device d session).
Proof.
  intros (x & Hx & Hi). unfold device_exists, Db.update_device.
  cbn [Db.devices].
  destruct (decide (Device.id x = Device.id d)) as [Heq|Hne].
  - exists d. split; [|congruence].
    apply list_elem_of_fmap. exists x. split; [|done].
    by rewrite bool_decide_eq_true_2.
  - exists x. split; [|done].
    apply list_elem_of_fmap. exists x. split; [|done].
    by rewrite bool_decide_eq_false_2.
Qed.

Lemma step_session_device_exists i e s :
  device_exists i (session s) → device_exists i (session (step e s)).
Proof.
  destruct s as [d c g l h q snt lg r db]. facts_cbn. intros Hex.
  destruct e, g; facts_step; try done; by apply device_exists_update.
Qed.

Lemma run_session_device_exists i trace s :
  device_exists i (session s) → device_exists i (session (run trace s)).
Proof.
  revert s. induction trace as [|e trace IH]; intros s Hs; [done|].
  cbn [run foldl]. apply IH. by apply step_session_device_exists.
Qed.

(** [send_snapshot_instruction] for a device that exists is decided by the
    subscriber count of its channel. *)
Lemma send_snapshot_instruction_exists url i redis session :
  device_exists i session →
  send_snapshot_instruction url i redis session
  = if bool_decide (Redis.pubsub_numsub (instructions_channel i) redis = 0)
    then (Raise (HTTPException HTTP_409_CONFLICT
                   ("Device " +:+ pretty i +:+ " is offline")), redis)
    else (Ok (JObj [("detail", JStr "Instruction sent successfully")]),
          Redis.publish (instructions_channel i) (snapshot_payload url) redis).
Proof.
  intros Hex. apply device_by_id_exists in Hex as (d & Hd & Hi).
  unfold send_snapshot_instruction. by rewrite Hd, Hi.
Qed.

Lemma numsub_with_conn (conn : nat) (subscribers : gset nat) channel redis :
  Redis.subscribers channel redis = {[conn]} ∪ subscribers →
  Redis.pubsub_numsub channel redis ≠ 0.
Proof.
  intros Hsub Hzero. apply numsub_zero in Hzero. rewrite Hsub in Hzero.
  assert (Hin : conn ∈ ({[conn]} ∪ subscribers : gset nat))
    by (apply elem_of_union; left; by apply elem_of_singleton).
  rewrite Hzero in Hin. by apply not_elem_of_empty in Hin.
Qed.

Lemma run_delivers trace s :
  gen s = Streaming → listener_task s = Waiting → heartbeat_task s = Waiting →
  Forall (λ e, is_throw e = false) trace →
  gen (run trace s) = Streaming
  ∧ sent (run trace s) ++ queue (run trace s)
    = sent s ++ queue s ++ flat_map enqueued trace
  ∧ sent s `prefix_of` sent (run trace s).
Proof.
  revert s. induction trace as [|e trace IH]; intros s Hg Hl Hh Htrace.
  - cbn. by rewrite app_nil_r.
  - apply Forall_cons in Htrace as [He Htrace].
    destruct (step_delivers e s Hg Hl Hh He) as (Hg' & Hl' & Hh' & Hq & Hp).
    destruct (IH (step e s) Hg' Hl' Hh' Htrace) as (Hg'' & Hq' & Hp').
    cbn [run foldl flat_map]. unfold run in Hg'', Hq', Hp'.
    split_and!; [done| |by etrans].
    rewrite Hq'. rewrite (app_assoc (sent (step e s))), Hq.
    by rewrite <- !app_assoc.
Qed.

Lemma session_initial_subscription device now conn redis session :
  subscription
    (Redis.subscribers (instructions_channel (Device.id device)) redis)
    (get_current_device_instructions device now conn redis session).
Proof.
  unfold subscription, get_current_device_instructions. facts_cbn.
  split_and!; done.
Qed.

(** While the generator has not ended, the session holds the device and
    the store as the handler left them. *)
Lemma step_session_open e s :
  gen (step e s) ≠ Closed →
  device (step e s) = device s ∧ session (step e s) = session s.
Proof.
  destruct s as [d c g l h q snt lg r db]. facts_cbn.
  destruct e, g; facts_step; done.
Qed.

Lemma step_session_closed e s :
  gen s = Closed →
  gen (step e s) = Closed
  ∧ device (step e s) = device s ∧ session (step e s) = session s.
Proof.
  destruct s as [d c g l h q snt lg r db]. facts_cbn. intros ->.
  destruct e; facts_step; done.
Qed.

Lemma run_session_closed trace s :
  gen s = Closed →
  gen (run trace s) = Closed
  ∧ device (run trace s) = device s ∧ session (run trace s) = session s.
Proof.
  revert s. induction trace as [|e trace IH]; intros s Hg; [done|].
  cbn [run foldl]. destruct (step_session_closed e s Hg) as (Hg' & Hd & Hs).
  destruct (IH (step e s) Hg') as (Hg'' & Hd' & Hs').
  unfold run in Hg'', Hd', Hs'. by rewrite Hg'', Hd', Hs', Hd, Hs.
Qed.

Lemma run_session_open trace s :
  gen (run trace s) ≠ Closed →
  device (run trace s) = device s ∧ session (run trace s) = session s.
Proof.
  revert s. induction trace as [|e trace IH]; intros s Hopen; [done|].
  cbn [run foldl] in *. fold (run trace (step e s)) in *.
  destruct (IH (step e s) Hopen) as [Hd Hs].
  destruct (step_session_open e s) as [Hd' Hs'].
  - intros Hclosed. apply Hopen.
    by destruct (run_session_closed trace (step e s) Hclosed) as (? & _).
  - by rewrite Hd, Hs, Hd', Hs'.
Qed.

(** The row [session.add(device); session.commit()] leaves behind is the
    one a query by the device's id finds. *)
Lemma device_by_id_update d session :
  device_exists (Device.id d) session →
  Db.device_by_id (Device.id d) (Db.update_device d session) = Some d.
Proof.
  intros (x & Hx & Hi). unfold Db.device_by_id, Db.update_device.
  cbn [Db.devices].
  induction (Db.devices session) as [|y l IH]; [by apply elem_of_nil in Hx|].
  rewrite fmap_cons. cbn [List.find].
  destruct (decide (Device.id y = Device.id d)) as [Heq|Hne].
  - rewrite (bool_decide_eq_true_2 _ Heq).
    by rewrite bool_decide_eq_true_2.
  - rewrite (bool_decide_eq_false_2 _ Hne).
    rewrite (bool_decide_eq_false_2 _ Hne). apply IH.
    apply elem_of_cons in Hx as [->|Hx]; [done|done].
Qed.

End device_session_facts.

(** X18.  While a device session streams and nothing is thrown into it,
    it neither ends nor loses, repeats or reorders anything: the frames
    sent followed by the frames still queued are those of before followed
    by one frame for every message and every heartbeat tick, in the order
    in which they arrived, and what had been sent stays a prefix of what has
    been sent. *)
Theorem device_session_delivers_in_order
    (s : DeviceSession.t) (trace : list DeviceSession.Event) :
  DeviceSession.gen s = DeviceSession.Streaming →
  DeviceSession.listener_task s = Waiting →
  DeviceSession.heartbeat_task s = Waiting →
  Forall (λ e, DeviceSessionFacts.is_throw e = false) trace →
  let s' := DeviceSession.run trace s in
  DeviceSession.gen s' = DeviceSession.Streaming
  ∧ DeviceSession.sent s' ++ DeviceSession.queue s'
    = DeviceSession.sent s ++ DeviceSession.queue s
      ++ flat_map DeviceSessionFacts.enqueued trace
  ∧ DeviceSession.sent s `prefix_of` DeviceSession.sent s'.
Proof. intros Hg Hl Hh Htrace s'. by apply run_delivers. Qed.

Lemma device_session_delivers_in_order_witness :
  let device := Device.mk 1 "lobby" "hall" None 0 "k1" in
  let s :=
    DeviceSession.run [DeviceSession.Next; DeviceSession.Subscribed]
      (DeviceSession.get_current_device_instructions device 5 7 Redis.empty
         (Db.mk [device] 2 [] 1 [] 1 [] 1 [] 1)) in
  let trace :=
    [DeviceSession.Tick;
     DeviceSession.Inbound SetupRouter.update_setup_payload;
     DeviceSession.Next; DeviceSession.Tick; DeviceSession.Next;
     DeviceSession.Next] in
  DeviceSession.sent (DeviceSession.run trace s)
  ++ DeviceSession.queue (DeviceSession.run trace s)
  = [heartbeat_frame;
     {| event := "message"; data := Payload SetupRouter.update_setup_payload |};
     heartbeat_frame].
Proof.
  intros device s trace.
  destruct (device_session_delivers_in_order s trace) as (_ & Hq & _).
  - reflexivity.
  - reflexivity.
  - reflexivity.
  - repeat constructor.
  - exact Hq.
Defined.

(** X19.  For a device that exists and whose instruction channel had no
    subscriber when its session was opened: while the session streams,
    [send_snapshot_instruction] accepts and publishes the instruction; it
    still does so after the generator has ended for as long as the cancelled
    listener has not been resumed; and once the session has terminated it
    answers 409, the device is offline, and publishes nothing. *)
Theorem snapshot_instruction_during_session
    (device : Device.t) (now : Z) (conn : nat) (redis : Redis.t)
    (session : Db.t) (trace : list DeviceSession.Event) (url : string) :
  Redis.pubsub_numsub
    (DeviceRouter.instructions_channel (Device.id device)) redis = 0 →
  DeviceRouter.device_exists (Device.id device) session →
  let s :=
    DeviceSession.run trace
      (DeviceSession.get_current_device_instructions device now conn redis
         session) in
  let accepted :=
    (Ok (JObj [("detail", JStr "Instruction sent successfully")]),
     Redis.publish (DeviceRouter.instructions_channel (Device.id device))
       (DeviceRouter.snapshot_payload url) (DeviceSession.redis s)) in
  (DeviceSession.gen s = DeviceSession.Streaming →
   DeviceRouter.send_snapshot_instruction url (Device.id device)
     (DeviceSession.redis s) (DeviceSession.session s) = accepted)
  ∧ (DeviceSession.gen s = DeviceSession.Closed →
     DeviceSession.listener_task s = CancelRequested →
     DeviceRouter.send_snapshot_instruction url (Device.id device)
       (DeviceSession.redis s) (DeviceSession.session s) = accepted)
  ∧ (DeviceSession.terminated s →
     DeviceRouter.send_snapshot_instruction url (Device.id device)
       (DeviceSession.redis s) (DeviceSession.session s)
     = (Raise (HTTPException HTTP_409_CONFLICT
                 ("Device " +:+ pretty (Device.id device) +:+ " is offline")),
        DeviceSession.redis s)).
Proof.
  intros Hnone Hex s accepted. apply numsub_zero in Hnone.
  set (s0 := DeviceSession.get_current_device_instructions device now conn
               redis session) in *.
  assert (Hex0 : DeviceRouter.device_exists (Device.id device)
                   (DeviceSession.session s0)).
  { unfold s0, DeviceSession.get_current_device_instructions.
    cbn [DeviceSession.session]. by apply device_exists_update. }
  pose proof (run_session_device_exists _ trace s0 Hex0) as Hexs.
  fold s in Hexs.
  destruct (run_session_subscription ∅ trace s0) as [Hsub Hid].
  { apply not_elem_of_empty. }
  { pose proof (session_initial_subscription device now conn redis session)
      as Hinit.
    by rewrite Hnone in Hinit. }
  fold s in Hsub, Hid.
  assert (Hid0 : Device.id (DeviceSession.device s) = Device.id device)
    by (rewrite Hid; reflexivity).
  destruct Hsub as (_ & Hinside & Hafter & Hsub). rewrite Hid0 in Hsub.
  rewrite send_snapshot_instruction_exists by done.
  unfold accepted. split_and!.
  - intros Hg. rewrite (Hinside Hg) in Hsub.
    rewrite bool_decide_eq_false_2; [done|].
    by eapply numsub_with_conn.
  - intros _ Hl. rewrite Hl in Hsub.
    rewrite bool_decide_eq_false_2; [done|].
    by eapply numsub_with_conn.
  - intros (Hg & Hl & _). specialize (Hafter Hg).
    rewrite bool_decide_eq_true_2; [done|].
    unfold Redis.pubsub_numsub. rewrite Hsub.
    destruct (DeviceSession.listener_task s); try done;
      by rewrite size_empty.
Qed.

Lemma snapshot_instruction_during_session_witness :
  let device := Device.mk 1 "lobby" "hall" None 0 "k1" in
  let s :=
    DeviceSession.run
      [DeviceSession.Next; DeviceSession.Subscribed;
       DeviceSession.Throw ClientDisconnect 9]
      (DeviceSession.get_current_device_instructions device 5 7 Redis.empty
         (Db.mk [device] 2 [] 1 [] 1 [] 1 [] 1)) in
  DeviceRouter.send_snapshot_instruction "https://bucket/shot.png" 1
    (DeviceSession.redis s) (DeviceSession.session s)
  = (Ok (JObj [("detail", JStr "Instruction sent successfully")]),
     Redis.publish (DeviceRouter.instructions_channel 1)
       (DeviceRouter.snapshot_payload "https://bucket/shot.png")
       (DeviceSession.redis s)).
Proof.
  intros device s.
  destruct (snapshot_instruction_during_session device 5 7 Redis.empty
              (Db.mk [device] 2 [] 1 [] 1 [] 1 [] 1)
              [DeviceSession.Next; DeviceSession.Subscribed;
               DeviceSession.Throw ClientDisconnect 9]
              "https://bucket/shot.png") as (_ & Hpending & _).
  - reflexivity.
  - exists device. split; [apply elem_of_cons; by left|reflexivity].
  - apply Hpending; reflexivity.
Defined.

(** X20.  The online set does not count sessions.  When the cancelled
    listener of one session of a device is resumed while another connection
    is still subscribed to the instruction channel of that device, the
    device leaves the online set and is announced offline, although the
    other connection remains subscribed and [send_snapshot_instruction]
    still accepts instructions for the device. *)
Theorem device_session_end_hides_other_session
    (s : DeviceSession.t) (other : nat) (url : string) :
  DeviceSession.listener_task s = CancelRequested →
  other ≠ DeviceSession.conn s →
  other ∈ Redis.subscribers
            (DeviceRouter.instructions_channel
               (Device.id (DeviceSession.device s)))
            (DeviceSession.redis s) →
  DeviceRouter.device_exists (Device.id (DeviceSession.device s))
    (DeviceSession.session s) →
  let s' := DeviceSession.step DeviceSession.ResumeListener s in
  DeviceSession.offline s'
  ∧ other ∈ Redis.subscribers
              (DeviceRouter.instructions_channel
                 (Device.id (DeviceSession.device s)))
              (DeviceSession.redis s')
  ∧ DeviceRouter.send_snapshot_instruction url
      (Device.id (DeviceSession.device s))
      (DeviceSession.redis s') (DeviceSession.session s')
    = (Ok (JObj [("detail", JStr "Instruction sent successfully")]),
       Redis.publish
         (DeviceRouter.instructions_channel
            (Device.id (DeviceSession.device s)))
         (DeviceRouter.snapshot_payload url) (DeviceSession.redis s')).
Proof.
  intros Hl Hother Hsub Hex s'.
  assert (Hs' : s' = DeviceSession.message_listener_cancelled s).
  { unfold s', DeviceSession.step. by rewrite Hl. }
  rewrite Hs'. clear Hs' s'.
  assert (Hstill :
    other ∈ Redis.subscribers
              (DeviceRouter.instructions_channel
                 (Device.id (DeviceSession.device s)))
              (DeviceSession.redis (DeviceSession.message_listener_cancelled s))).
  { unfold DeviceSession.message_listener_cancelled.
    cbn [DeviceSession.redis].
    rewrite subscribers_unsubscribe, subscribers_publish, subscribers_srem.
    apply elem_of_difference. split; [done|].
    by rewrite elem_of_singleton. }
  split_and!.
  - apply message_listener_cancelled_offline.
  - exact Hstill.
  - rewrite send_snapshot_instruction_exists by done.
    rewrite bool_decide_eq_false_2; [done|].
    intros Hzero. apply numsub_zero in Hzero. rewrite Hzero in Hstill.
    by apply not_elem_of_empty in Hstill.
Qed.

Lemma device_session_end_hides_other_session_witness :
  let device := Device.mk 1 "lobby" "hall" None 0 "k1" in
  let s :=
    DeviceSession.run
      [DeviceSession.Next; DeviceSession.Subscribed;
       DeviceSession.Throw ClientDisconnect 9]
      (DeviceSession.get_current_device_instructions device 5 7
         (Redis.subscribe 3 (DeviceRouter.instructions_channel 1)
            (Redis.sadd DeviceRouter.online_devices "1" Redis.empty))
         (Db.mk [device] 2 [] 1 [] 1 [] 1 [] 1)) in
  DeviceSession.offline (DeviceSession.step DeviceSession.ResumeListener s)
  ∧ 3%nat ∈ Redis.subscribers (DeviceRouter.instructions_channel 1)
              (DeviceSession.redis
                 (DeviceSession.step DeviceSession.ResumeListener s)).
Proof.
  intros device s.
  destruct (device_session_end_hides_other_session s 3 "https://b/s.png")
    as (Hoff & Hstill & _).
  - reflexivity.
  - discriminate.
  - apply (bool_decide_unpack _). vm_compute. exact I.
  - exists (Device.mk 1 "lobby" "hall" None 9 "k1").
    split; [apply elem_of_cons; by left|reflexivity].
  - split; [exact Hoff|exact Hstill].
Defined.

(** X21.  The last-seen time the store holds for the device of a session
    is the time of the request for as long as the generator has not ended,
    and once something has been thrown into the streaming generator it is
    the time of that interruption, whatever happens afterwards. *)
Theorem device_session_last_seen
    (device : Device.t) (now : Z) (conn : nat) (redis : Redis.t)
    (session : Db.t) :
  DeviceRouter.device_exists (Device.id device) session →
  let s0 :=
    DeviceSession.get_current_device_instructions device now conn redis
      session in
  (∀ trace,
     DeviceSession.gen (DeviceSession.run trace s0) ≠ DeviceSession.Closed →
     DeviceSessionFacts.stored_last_seen (DeviceSession.run trace s0)
     = Some now)
  ∧ (∀ trace1 c t trace2,
       DeviceSession.gen (DeviceSession.run trace1 s0)
       = DeviceSession.Streaming →
       DeviceSessionFacts.stored_last_seen
         (DeviceSession.run (trace1 ++ DeviceSession.Throw c t :: trace2) s0)
       = Some t).
Proof.
  intros Hex s0.
  assert (Hex0 : DeviceRouter.device_exists (Device.id device)
                   (DeviceSession.session s0)).
  { unfold s0, DeviceSession.get_current_device_instructions.
    cbn [DeviceSession.session]. by apply device_exists_update. }
  assert (H0 : DeviceSessionFacts.stored_last_seen s0 = Some now).
  { unfold DeviceSessionFacts.stored_last_seen, s0,
      DeviceSession.get_current_device_instructions.
    cbn [DeviceSession.device DeviceSession.session].
    rewrite device_by_id_update; [done|]. exact Hex. }
  split.
  - intros trace Hopen.
    destruct (run_session_open trace s0 Hopen) as [Hd Hs].
    unfold DeviceSessionFacts.stored_last_seen in *. by rewrite Hd, Hs.
  - intros trace1 c t trace2 Hg.
    rewrite run_app. cbn [DeviceSession.run foldl].
    fold (DeviceSession.run trace2
            (DeviceSession.step (DeviceSession.Throw c t)
               (DeviceSession.run trace1 s0))).
    set (s1 := DeviceSession.run trace1 s0) in *.
    assert (Hstep : DeviceSession.step (DeviceSession.Throw c t) s1
                    = DeviceSession.event_generator_finally t s1).
    { unfold DeviceSession.step. by rewrite Hg. }
    rewrite Hstep.
    destruct (run_session_closed trace2
                (DeviceSession.event_generator_finally t s1))
      as (_ & Hd & Hs); [done|].
    unfold DeviceSessionFacts.stored_last_seen. rewrite Hd, Hs.
    unfold DeviceSession.event_generator_finally.
    cbn [DeviceSession.device DeviceSession.session].
    rewrite device_by_id_update; [done|].
    cbn [Device.id Device.set_last_seen].
    destruct (run_session_open trace1 s0) as [Hd1 Hs1].
    { fold s1. by rewrite Hg. }
    fold s1 in Hd1, Hs1. rewrite Hd1, Hs1. exact Hex0.
Qed.

Lemma device_session_last_seen_witness :
  let device := Device.mk 1 "lobby" "hall" None 0 "k1" in
  let s0 :=
    DeviceSession.get_current_device_instructions device 5 7 Redis.empty
      (Db.mk [device] 2 [] 1 [] 1 [] 1 [] 1) in
  DeviceSessionFacts.stored_last_seen
    (DeviceSession.run
       ([DeviceSession.Next; DeviceSession.Subscribed]
        ++ DeviceSession.Throw ClientDisconnect 9
           :: [DeviceSession.ResumeListener]) s0)
  = Some 9.
Proof.
  intros device s0.
  destruct (device_session_last_seen device 5 7 Redis.empty
              (Db.mk [device] 2 [] 1 [] 1 [] 1 [] 1)) as [_ Hend].
  - exists device. split; [apply elem_of_cons; by left|reflexivity].
  - apply Hend. reflexivity.
Defined.


(** ** The device rows after [create_setup] *)

Section create_setup_rows_exact.
Import SetupRouter SetupChecks.

Lemma update_device_setup_id setup_id row session :
  NoDup (Device.id <$> Db.devices session) →
  row ∈ Db.devices session →
  Db.devices (Db.update_device (Device.set_setup_id (Some setup_id) row)
                session)
  = (λ d, if bool_decide (Device.id d = Device.id row)
          then Device.set_setup_id (Some setup_id) d else d)
      <$> Db.devices session.
Proof.
  intros Hnd Hrow. unfold Db.update_device. cbn [Db.devices].
  apply list_fmap_ext. intros k d Hd. cbn [Device.id Device.set_setup_id].
  case_bool_decide as Heq; [|done].
  apply list_elem_of_lookup_2 in Hd.
  by rewrite (NoDup_fmap_elem_inj Device.id (Db.devices session) d row).
Qed.

(** On a table with distinct ids the linking loop changes the [setup_id]
    of the rows with a listed id and nothing else. *)
Lemma link_devices_exact setup_id devices session0 device0 session1 device1 :
  NoDup (Device.id <$> Db.devices session0) →
  for_each (link_device setup_id) devices (session0, device0)
  = Ok (session1, device1) →
  Db.devices session1
  = (λ d, if bool_decide (Device.id d ∈ devices)
          then Device.set_setup_id (Some setup_id) d else d)
      <$> Db.devices session0.
Proof.
  revert session0 device0.
  induction devices as [|i devices IH]; intros session0 device0 Hnd Hloop.
  - injection Hloop as <- <-. symmetry. apply fmap_id_on.
    intros d _. rewrite bool_decide_eq_false_2; [done|].
    apply not_elem_of_nil.
  - apply for_each_cons_Ok in Hloop as ([s d0] & Hstep & Hloop).
    unfold link_device in Hstep. cbn [fst] in Hstep.
    destruct (Db.device_by_id i session0) as [row|] eqn:Hrow; [|done].
    injection Hstep as <- <-.
    apply device_by_id_id in Hrow as [Hin Hid].
    pose proof (update_device_setup_id setup_id row session0 Hnd Hin) as Hupd.
    apply IH in Hloop.
    + rewrite Hloop, Hupd, <- list_fmap_compose.
      apply list_fmap_ext. intros k d _. cbn [compose]. rewrite Hid.
      destruct (decide (Device.id d = i)) as [Hi|Hi].
      * rewrite (bool_decide_eq_true_2 _ Hi).
        cbn [Device.id Device.set_setup_id].
        rewrite (bool_decide_eq_true_2 (Device.id d ∈ i :: devices))
          by (rewrite Hi; by left).
        by case_bool_decide.
      * rewrite (bool_decide_eq_false_2 _ Hi).
        destruct (decide (Device.id d ∈ devices)) as [Hl|Hl].
        -- rewrite (bool_decide_eq_true_2 _ Hl).
           by rewrite bool_decide_eq_true_2 by by right.
        -- rewrite (bool_decide_eq_false_2 _ Hl).
           rewrite bool_decide_eq_false_2; [done|].
           by apply not_elem_of_cons.
    + rewrite Hupd, <- list_fmap_compose.
      assert (Hsame : Device.id <$> Db.devices session0
                      = (Device.id
                         ∘ (λ d, if bool_decide (Device.id d = Device.id row)
                                 then Device.set_setup_id (Some setup_id) d
                                 else d)) <$> Db.devices session0).
      { apply list_fmap_ext. intros k d _. cbn [compose].
        by case_bool_decide. }
      by rewrite <- Hsame.
Qed.

End create_setup_rows_exact.

(** X22.  On a consistent device table a successful [create_setup]
    changes the device rows in one respect only: the rows with a listed id
    get the id of the new setup as their [setup_id].  Names, API keys and
    last-seen times are untouched, no row is added or removed, and the
    table is still consistent. *)
Theorem create_setup_changes_only_setup_id
    (strptime : string → option Z) (data : SetupInput)
    (redis redis' : Redis.t) (session session' : Db.t) (out : SetupOutput) :
  Store.devices_consistent session →
  SetupRouter.create_setup strptime data redis session
  = (Ok out, redis', session') →
  Db.devices session'
  = (λ d, if bool_decide (Device.id d ∈ si_devices data)
          then Device.set_setup_id (Some (so_id out)) d else d)
      <$> Db.devices session
  ∧ Store.devices_consistent session'.
Proof.
  intros (Hids & Hnames & Hkeys & Hnext) Hcreate.
  apply create_setup_Ok in Hcreate
    as (_ & _ & new_setup & device & Hrows & ->).
  apply create_setup_rows_Ok in Hrows
    as (_ & -> & session1 & Hplaylists & Hlink).
  apply add_playlists_Ok in Hplaylists as [_ (Hdevs & Hnextd & _)].
  cbn [Db.add_setup snd Db.devices Db.next_device_id] in Hdevs, Hnextd.
  pose proof Hlink as Hlink'.
  apply link_devices_exact in Hlink; [|by rewrite Hdevs].
  apply link_devices_Ok in Hlink' as (_ & _ & Hnextd' & _).
  rewrite Hdevs in Hlink.
  cbn [so_id SetupRouter.setup_output Setup.id].
  split; [exact Hlink|].
  unfold Store.devices_consistent.
  rewrite Hlink, Hnextd', Hnextd, <- !list_fmap_compose.
  assert (Hsame : ∀ {B} (g : Device.t → B),
            (∀ d s, g (Device.set_setup_id s d) = g d) →
            (g ∘ (λ d, if bool_decide (Device.id d ∈ si_devices data)
                       then Device.set_setup_id
                              (Some (Db.next_setup_id session)) d
                       else d)) <$> Db.devices session
            = g <$> Db.devices session).
  { intros B g Hg. apply list_fmap_ext. intros k d _. cbn [compose].
    by case_bool_decide. }
  rewrite !Hsame by done. split_and!; try done.
  apply Forall_fmap. eapply Forall_impl; [exact Hnext|].
  intros d Hd. cbn [compose]. by case_bool_decide.
Qed.

Lemma create_setup_changes_only_setup_id_witness :
  let session :=
    Db.mk [Device.mk 1 "lobby" "hall" None 0 "k1";
           Device.mk 2 "cafe" "floor 1" None 7 "k2"] 3 [] 1 [] 1 [] 1 [] 1 in
  let data :=
    {| si_name := "week";
       si_playlists :=
         [PlaylistInput.mk "morning" "08:00" "12:00"
            true true true true true false false
            [{| ib_url := "a.png"; ib_duration := 5 |}] []];
       si_devices := [2] |} in
  let result :=
    SetupRouter.create_setup SetupRouter.strptime_hm data Redis.empty session
  in
  Db.devices result.2
  = [Device.mk 1 "lobby" "hall" None 0 "k1";
     Device.mk 2 "cafe" "floor 1" (Some 1) 7 "k2"].
Proof.
  intros session data result.
  destruct (create_setup_changes_only_setup_id SetupRouter.strptime_hm data
              Redis.empty result.1.2 session result.2
              (SetupRouter.setup_output (Setup.mk 1 "week") result.2))
    as (Hrows & _).
  - unfold Store.devices_consistent.
    apply (bool_decide_unpack _). vm_compute. exact I.
  - vm_compute. reflexivity.
  - exact Hrows.
Defined.
